(** * Target computation engine of ml_investment (targets.py)

    A shallow embedding of the quarterly alignment primitive
    ([QuarterlyTarget]), the daily window aggregation primitive
    ([DailyAggTarget]), the per-ticker dispatch and merge shared by their
    [calculate] methods, the quarterly difference compositions, the report
    gap ([ReportGapTarget]), the static attribute join ([BaseInfoTarget])
    and [utils.make_step_function].

    Conventions of the embedding:
    - a DataFrame is the list of its rows, in positional order;
    - a date ([np.datetime64]) is a day number in [Z]; a request date is an
      [option Z], where [None] stands for a missing date (NaT / NaN);
    - numeric cells are rationals; a missing number (NaN, None) is [CNull],
      a missing date or time difference (NaT) is [CNaT];
    - index arithmetic is done on unbounded integers;
    - a raised exception is the [None] of the error monad;
    - the subtraction of two label columns in [QuarterlyDiffTarget], whose
      result depends on the dtypes pandas gives the columns, is a parameter
      of the development. *)

From Stdlib Require Import String List ZArith QArith Bool Lia Lqa Sorted Permutation.
Import ListNotations.
Local Open Scope string_scope.
Local Open Scope Z_scope.

(** ** Cells, records, request and result rows *)

(** A cell of a value column: NaN or None, a number, a date, a time
    difference in days, or NaT, the missing value of a datetime or Timedelta
    column. *)
Inductive cell : Type :=
| CNull
| CNum (x : Q)
| CDate (d : Z)
| CDelta (days : Z)
| CNaT.

(** One row of a quarterly or daily series: its date and its value columns. *)
Record record : Type := mkRecord { date : Z; fields : string -> cell }.

(** [df[col].values] on one row; the date is itself a column. *)
Definition column (col : string) (r : record) : cell :=
  if String.eqb col "date" then CDate (date r) else fields r col.

(** A row of [info_df]: columns ["ticker"] and ["date"]. *)
Record request_row : Type := mkRequest { ticker : string; rdate : option Z }.

(** A row of a result table: the key columns and the label [y]. *)
Record result_row : Type :=
  mkResult { r_ticker : string; r_date : option Z; y : cell }.

Definition key : Type := (string * option Z)%type.

Definition request_key (r : request_row) : key := (ticker r, rdate r).
Definition result_key (r : result_row) : key := (r_ticker r, r_date r).

Definition date_eqb (a b : option Z) : bool :=
  match a, b with
  | Some x, Some z => x =? z
  | None, None => true
  | _, _ => false
  end.

(** Key equality of [drop_duplicates] and [merge]: missing dates are equal
    to each other there. *)
Definition key_eqb (a b : key) : bool :=
  String.eqb (fst a) (fst b) && date_eqb (snd a) (snd b).

(** The data provider: [load_quarterly_data([ticker])] and
    [load_daily_data([ticker])], the latter returning [None] for a ticker
    without daily history. *)
Record data_loader : Type := mkLoader {
  load_quarterly_data : string -> list record;
  load_daily_data : string -> option (list record)
}.

(** ** A small error monad *)

Definition bind {A B : Type} (m : option A) (k : A -> option B) : option B :=
  match m with
  | Some a => k a
  | None => None
  end.

Notation "x <- m ;; k" := (bind m (fun x => k))
  (at level 61, m at next level, right associativity).

Fixpoint mapM {A B : Type} (f : A -> option B) (l : list A) : option (list B) :=
  match l with
  | [] => Some []
  | a :: l' => b <- f a ;; bs <- mapM f l' ;; Some (b :: bs)
  end.

(** ** numpy and pandas helpers *)

(** [np.where(mask)[0][0]]: first position where the mask holds;
    [None] is the IndexError on an all-false mask. *)
Fixpoint where_first {A : Type} (mask : A -> bool) (l : list A) : option nat :=
  match l with
  | [] => None
  | a :: l' => if mask a then Some O
               else match where_first mask l' with
                    | Some i => Some (S i)
                    | None => None
                    end
  end.

(** [values[:h]] for [h >= 0]. *)
Definition slice_to (h : Z) {A : Type} (l : list A) : list A :=
  firstn (Z.to_nat h) l.

(** [values[h:]] for [h < 0]: the last [|h|] elements, all of them when
    there are fewer. *)
Definition slice_from_neg (h : Z) {A : Type} (l : list A) : list A :=
  skipn (Z.to_nat (Z.of_nat (length l) + h)) l.

Definition sum_num (l : list Q) : Q := fold_right Qplus (0#1)%Q l.

(** The numbers of a window of numeric cells; [None] as soon as a cell is
    not a number (NaN, or a date, which the aggregation is not meant for). *)
Fixpoint as_floats (l : list cell) : option (list Q) :=
  match l with
  | [] => Some []
  | CNum x :: l' => xs <- as_floats l' ;; Some (x :: xs)
  | _ :: l' => None
  end.

(** [np.mean] on [series.astype(float)]: NaN on an empty window and as soon
    as one value is NaN; the exact mean of the numbers otherwise. *)
Definition np_mean (l : list cell) : cell :=
  match as_floats l with
  | Some (x :: xs) =>
      CNum (Qred (sum_num (x :: xs) / inject_Z (Z.of_nat (length (x :: xs)))))
  | _ => CNull
  end.

(** String order used by [groupby] to sort its group keys. *)
Fixpoint insert_sorted (k : string) (l : list string) : list string :=
  match l with
  | [] => [k]
  | h :: l' => if String.leb k h then k :: l else h :: insert_sorted k l'
  end.

Definition sort_keys (l : list string) : list string :=
  fold_right insert_sorted [] l.

(** [info_df.groupby('ticker')['date'].apply(list).reset_index().values]:
    one work item per distinct ticker, tickers sorted, the dates of a group
    in the request table's row order. *)
Definition groupby_ticker (info_df : list request_row)
  : list (string * list (option Z)) :=
  map (fun t => (t, map rdate (filter (fun r => String.eqb (ticker r) t) info_df)))
      (sort_keys (nodup string_dec (map ticker info_df))).

(** [pd.concat(result, axis=0)]: ValueError when there is nothing to
    concatenate. *)
Definition pd_concat (parts : list (list result_row)) : option (list result_row) :=
  match parts with
  | [] => None
  | _ => Some (concat parts)
  end.

(** [drop_duplicates(['ticker', 'date'])], keeping the first row of a key. *)
Fixpoint drop_duplicates_seen (seen : list key) (rows : list result_row)
  : list result_row :=
  match rows with
  | [] => []
  | r :: rows' =>
      if existsb (key_eqb (result_key r)) seen
      then drop_duplicates_seen seen rows'
      else r :: drop_duplicates_seen (result_key r :: seen) rows'
  end.

Definition drop_duplicates (rows : list result_row) : list result_row :=
  drop_duplicates_seen [] rows.

(** [pd.merge(info_df, result, on=['ticker', 'date'], how='left')]: the
    left rows in their order, each with the right rows of its key, or with
    a null label when there is none. *)
Definition merge_row (right : list result_row) (l : request_row)
  : list result_row :=
  match filter (fun r => key_eqb (request_key l) (result_key r)) right with
  | [] => [mkResult (ticker l) (rdate l) CNull]
  | ms => map (fun r => mkResult (ticker l) (rdate l) (y r)) ms
  end.

Definition pd_merge_left (info_df : list request_row) (right : list result_row)
  : list result_row :=
  flat_map (merge_row right) info_df.

(** The merge phase of [calculate] (lines 97-99 and 294-296), for any list
    of partial tables. *)
Definition merge_results (info_df : list request_row)
  (parts : list (list result_row)) : option (list result_row) :=
  all <- pd_concat parts ;;
  Some (pd_merge_left info_df (drop_duplicates all)).

(** The body shared by [QuarterlyTarget.calculate] and
    [DailyAggTarget.calculate]: group, map the worker over the groups in
    order ([Pool.imap]), merge.  A worker that raises aborts the call. *)
Definition dispatch_and_merge
  (worker : string * list (option Z) -> option (list result_row))
  (info_df : list request_row) : option (list result_row) :=
  parts <- mapM worker (groupby_ticker info_df) ;;
  merge_results info_df parts.

(** ** QuarterlyTarget *)

Module QuarterlyTarget.

Definition date_is (d : option Z) (r : record) : bool :=
  match d with
  | Some x => date r =? x
  | None => false
  end.

(** One iteration of the loop over the requested dates (lines 45-52). *)
Definition lookup (col : string) (quarter_shift : Z)
  (quarterly_data : list record) (d : option Z) : option cell :=
  if existsb (date_is d) quarterly_data then
    curr_quarter_idx <- where_first (date_is d) quarterly_data ;;
    let idx := Z.of_nat curr_quarter_idx + quarter_shift in
    if (0 <=? idx) && (idx <? Z.of_nat (length quarterly_data))
    then Some (nth (Z.to_nat idx) (map (column col) quarterly_data) CNull)
    else Some CNull
  else None.

Definition single_ticker_target (data_loader : data_loader) (col : string)
  (quarter_shift : Z) (ticker_and_dates : string * list (option Z))
  : option (list result_row) :=
  let (ticker, dates) := ticker_and_dates in
  let quarterly_data := rev (load_quarterly_data data_loader ticker) in
  vals <- mapM (lookup col quarter_shift quarterly_data) dates ;;
  Some (map (fun dv => mkResult ticker (fst dv) (snd dv)) (combine dates vals)).

Definition calculate (data_loader : data_loader) (col : string)
  (quarter_shift : Z) (info_df : list request_row) : option (list result_row) :=
  dispatch_and_merge (single_ticker_target data_loader col quarter_shift) info_df.

End QuarterlyTarget.

(** ** DailyAggTarget *)

Module DailyAggTarget.

(** The masks [daily_dates >= np.datetime64(date)] and
    [daily_dates < np.datetime64(date)].  The loop evaluates them on present
    dates only: on a missing date [np.datetime64(date)] has raised before
    (see [aggregate]). *)
Definition on_or_after (d : option Z) (r : record) : bool :=
  match d with
  | Some x => x <=? date r
  | None => false
  end.

Definition before (d : option Z) (r : record) : bool :=
  match d with
  | Some x => date r <? x
  | None => false
  end.

(** The window handed to [foo] for one requested date (lines 247-252). *)
Definition window (col : string) (horizon : Z) (daily_data : list record)
  (d : option Z) : list cell :=
  if 0 <=? horizon
  then slice_to horizon (map (column col) (filter (on_or_after d) daily_data))
  else slice_from_neg horizon (map (column col) (filter (before d) daily_data)).

(** One iteration of the loop over the requested dates (lines 246-254).
    Both branches start with [np.datetime64(date)], which raises on a
    missing date (pd.NaT, NaN). *)
Definition aggregate (col : string) (horizon : Z) (foo : list cell -> cell)
  (daily_data : list record) (d : option Z) : option cell :=
  match d with
  | Some _ => Some (foo (window col horizon daily_data d))
  | None => None
  end.

(** Without daily history the rows are returned with [y = None] before any
    date is looked at (lines 235-242); with history the loop runs over the
    dates and a date that raises aborts the worker. *)
Definition single_ticker_target (data_loader : data_loader) (col : string)
  (horizon : Z) (foo : list cell -> cell)
  (ticker_and_dates : string * list (option Z)) : option (list result_row) :=
  let (ticker, dates) := ticker_and_dates in
  match load_daily_data data_loader ticker with
  | None => Some (map (fun d => mkResult ticker d CNull) dates)
  | Some daily =>
      let daily_data := rev daily in
      vals <- mapM (aggregate col horizon foo daily_data) dates ;;
      Some (map (fun dv => mkResult ticker (fst dv) (snd dv)) (combine dates vals))
  end.

Definition calculate (data_loader : data_loader) (col : string)
  (horizon : Z) (foo : list cell -> cell) (info_df : list request_row)
  : option (list result_row) :=
  dispatch_and_merge (single_ticker_target data_loader col horizon foo) info_df.

End DailyAggTarget.

(** ** QuarterlyDiffTarget and QuarterlyBinDiffTarget *)

(** [curr_df['y'] - last_df['y']] (line 151) is pandas' subtraction of two
    Series that carry the same index, taken position by position.  What it
    returns depends on the dtypes of the two columns as wholes: float64
    columns are subtracted in float64, an int64 column facing a column that
    holds a NaN is coerced to float64 first, two datetime columns give a
    Timedelta column, and operands that do not fit raise.  The subtraction
    is therefore a parameter: [sub curr last k] is the value at position [k]
    of the difference of the columns [curr] and [last], [None] when the
    subtraction raises. *)
Definition series_sub : Type := list cell -> list cell -> nat -> option cell.

Definition set_y (r : result_row) (v : cell) : result_row :=
  mkResult (r_ticker r) (r_date r) v.

Module QuarterlyDiffTarget.

(** [calculate] with [norm = False], the configuration built by
    [QuarterlyBinDiffTarget.__init__]: the difference column replaces the
    labels of [curr_df], row for row. *)
Definition calculate (sub : series_sub) (data_loader : data_loader)
  (col : string) (info_df : list request_row) : option (list result_row) :=
  curr_df <- QuarterlyTarget.calculate data_loader col 0 info_df ;;
  last_df <- QuarterlyTarget.calculate data_loader col (-1) info_df ;;
  mapM (fun kr => v <- sub (map y curr_df) (map y last_df) (fst kr) ;;
                  Some (set_y (snd kr) v))
       (combine (seq 0 (length curr_df)) curr_df).

End QuarterlyDiffTarget.

Module QuarterlyBinDiffTarget.

(** Lines 196-198 on one label.  A NaN row is left alone and a number is
    replaced by [y > 0], cast to float.  On a datetime or Timedelta column
    the comparison with 0 raises, whatever rows are selected. *)
Definition binarize (c : cell) : option cell :=
  match c with
  | CNull => Some CNull
  | CNum x => Some (CNum (match (x ?= 0)%Q with Gt => 1 | _ => 0 end)%Q)
  | CDate _ => None
  | CDelta _ => None
  | CNaT => None
  end.

Definition calculate (sub : series_sub) (data_loader : data_loader)
  (col : string) (info_df : list request_row) : option (list result_row) :=
  target_df <- QuarterlyDiffTarget.calculate sub data_loader col info_df ;;
  mapM (fun r => v <- binarize (y r) ;; Some (set_y r v)) target_df.

End QuarterlyBinDiffTarget.

(** ** Rebasing request dates (DailySmoothedQuarterlyDiffTarget) *)

Module DailySmoothedQuarterlyDiffTarget.

(** The value of a label cell used as a request date. *)
Definition as_request_date (c : cell) : option Z :=
  match c with
  | CDate d => Some d
  | _ => None
  end.

(** Lines 351-354: the previous quarter's date of every request row
    becomes the row's request date. *)
Definition last_date_df (data_loader : data_loader)
  (info_df : list request_row) : option (list request_row) :=
  t <- QuarterlyTarget.calculate data_loader "date" (-1) info_df ;;
  Some (map (fun r => mkRequest (r_ticker r) (as_request_date (y r))) t).

(** The two quarterly passes in sequence: rebase through offset -1, then
    read [col] at offset 0. *)
Definition two_pass (data_loader : data_loader) (col : string)
  (info_df : list request_row) : option (list result_row) :=
  rebased <- last_date_df data_loader info_df ;;
  QuarterlyTarget.calculate data_loader col 0 rebased.

End DailySmoothedQuarterlyDiffTarget.

(** ** Chronological notions the properties are stated with *)

Fixpoint strictly_descending (l : list Z) : bool :=
  match l with
  | a :: l' =>
      match l' with
      | b :: _ => (b <? a) && strictly_descending l'
      | [] => true
      end
  | [] => true
  end.

Fixpoint strictly_ascending (l : list Z) : bool :=
  match l with
  | a :: l' =>
      match l' with
      | b :: _ => (a <? b) && strictly_ascending l'
      | [] => true
      end
  | [] => true
  end.

Definition pick_later (r : record) (acc : option record) : option record :=
  match acc with
  | Some a => if date a <? date r then Some r else Some a
  | None => Some r
  end.

Definition pick_earlier (r : record) (acc : option record) : option record :=
  match acc with
  | Some a => if date r <? date a then Some r else Some a
  | None => Some r
  end.

(** The quarter reported on [d], the latest quarter reported before [d] and
    the earliest quarter reported after [d], wherever they sit in the
    series. *)
Definition same_quarter (q : list record) (d : Z) : option record :=
  find (fun r => date r =? d) q.

Definition previous_quarter (q : list record) (d : Z) : option record :=
  fold_right pick_later None (filter (fun r => date r <? d) q).

Definition next_quarter (q : list record) (d : Z) : option record :=
  fold_right pick_earlier None (filter (fun r => d <? date r) q).

Definition value_of (col : string) (o : option record) : cell :=
  match o with
  | Some r => column col r
  | None => CNull
  end.

(** Records in ascending chronological order. *)
Fixpoint insert_by_date (r : record) (l : list record) : list record :=
  match l with
  | [] => [r]
  | h :: l' => if date r <=? date h then r :: l else h :: insert_by_date r l'
  end.

Definition chronological (l : list record) : list record :=
  fold_right insert_by_date [] l.

Definition last_n {A : Type} (n : nat) (l : list A) : list A :=
  rev (firstn n (rev l)).

(** The forward window in words: the records dated on or after the request
    date, in ascending chronological order, the first [horizon] of them. *)
Definition forward_window (col : string) (horizon : Z) (daily : list record)
  (d : option Z) : list cell :=
  match d with
  | Some x =>
      firstn (Z.to_nat horizon)
        (map (column col) (chronological (filter (fun r => x <=? date r) daily)))
  | None => []
  end.

(** The backward window in words: the records dated strictly before the
    request date, in ascending chronological order, the last [|horizon|]
    of them. *)
Definition backward_window (col : string) (horizon : Z) (daily : list record)
  (d : option Z) : list cell :=
  match d with
  | Some x =>
      last_n (Z.abs_nat horizon)
        (map (column col) (chronological (filter (fun r => date r <? x) daily)))
  | None => []
  end.



(** ** The label of one request row *)

(** What [QuarterlyTarget] computes for ticker [t] and request date [d];
    [None] when the exact-match assertion fails. *)
Definition quarterly_lookup (dl : data_loader) (col : string) (shift : Z)
  (t : string) (d : option Z) : option cell :=
  QuarterlyTarget.lookup col shift (rev (load_quarterly_data dl t)) d.

Definition quarterly_label (dl : data_loader) (col : string) (shift : Z)
  (t : string) (d : option Z) : cell :=
  match quarterly_lookup dl col shift t d with
  | Some v => v
  | None => CNull
  end.

(** The label column a quarterly pass returns for a request table whose
    dates all match. *)
Definition label_column (dl : data_loader) (col : string) (shift : Z)
  (info_df : list request_row) : list cell :=
  map (fun r => quarterly_label dl col shift (ticker r) (rdate r)) info_df.

(** What [DailyAggTarget] computes for ticker [t] and request date [d]:
    null without daily history, whatever the date; with history, [None]
    when the date is missing. *)
Definition daily_lookup (dl : data_loader) (col : string) (horizon : Z)
  (foo : list cell -> cell) (t : string) (d : option Z) : option cell :=
  match load_daily_data dl t with
  | None => Some CNull
  | Some daily => DailyAggTarget.aggregate col horizon foo (rev daily) d
  end.

Definition daily_label (dl : data_loader) (col : string) (horizon : Z)
  (foo : list cell -> cell) (t : string) (d : option Z) : cell :=
  match daily_lookup dl col horizon foo t d with
  | Some v => v
  | None => CNull
  end.


(** The request table with a label computed row by row. *)
Definition labelled (g : string -> option Z -> cell) (info_df : list request_row)
  : list result_row :=
  map (fun r => mkResult (ticker r) (rdate r) (g (ticker r) (rdate r))) info_df.

Definition dates_of (t : string) (info_df : list request_row) : list (option Z) :=
  map rdate (filter (fun r => String.eqb (ticker r) t) info_df).

(** The label the offset convention names for a request row: the column
    value of the quarter that [pick] selects in the entity's series, null
    when there is no such quarter. *)
Definition chronological_label (pick : list record -> Z -> option record)
  (dl : data_loader) (col : string) (t : string) (d : option Z) : cell :=
  match d with
  | Some x => value_of col (pick (load_quarterly_data dl t) x)
  | None => CNull
  end.

(** The label of a daily window described in words: null without daily
    history, the aggregate of the window otherwise. *)
Definition window_label
  (w : string -> Z -> list record -> option Z -> list cell)
  (dl : data_loader) (col : string) (horizon : Z) (foo : list cell -> cell)
  (t : string) (d : option Z) : cell :=
  match load_daily_data dl t with
  | None => CNull
  | Some daily => foo (w col horizon daily d)
  end.

(** A cell of a numeric column: a number or NaN. *)
Definition numeric_cell (c : cell) : bool :=
  match c with
  | CNull => true
  | CNum _ => true
  | _ => false
  end.

(** [binarize] on a label of a numeric column. *)
Definition binarized (c : cell) : cell :=
  match QuarterlyBinDiffTarget.binarize c with
  | Some v => v
  | None => CNull
  end.

(** ** Sample data *)

Definition num (v : Z) : cell := CNum (inject_Z v).

Definition sample (d v : Z) : record := mkRecord d (fun _ => num v).

(** A provider with one series, the same for every ticker. *)
Definition one_series (l : list record) : data_loader :=
  mkLoader (fun _ => l) (fun _ => Some l).

(** Values [10, 20, 30, 40] on the days [D .. D+3], oldest first and newest
    first. *)
Definition series_ascending (D : Z) : list record :=
  [sample D 10; sample (D + 1) 20; sample (D + 2) 30; sample (D + 3) 40].

Definition series_descending (D : Z) : list record :=
  [sample (D + 3) 40; sample (D + 2) 30; sample (D + 1) 20; sample D 10].


(** Ticker ["AAA"] has no daily history, every other ticker has the four
    records starting at day 0. *)
Definition partial_loader : data_loader :=
  mkLoader (fun _ => series_descending 0)
           (fun t => if String.eqb t "AAA" then None
                     else Some (series_descending 0)).

Definition request_A (d : Z) : list request_row := [mkRequest "A" (Some d)].

Definition newest_first_provider : data_loader := one_series (series_descending 0).
Definition oldest_first_provider : data_loader := one_series (series_ascending 0).

Definition mixed_request : list request_row :=
  [mkRequest "AAA" (Some 1); mkRequest "B" (Some 0); mkRequest "AAA" (Some 2);
   mkRequest "B" (Some 0)].

Definition unmatched_request : list request_row :=
  [mkRequest "A" (Some 1); mkRequest "A" (Some 7)].

(** Quarterly values 10, 15, 10 on the days 0, 1, 2 and 10, 10 on the days
    0, 1, newest first. *)
Definition up_down_provider : data_loader :=
  one_series [sample 2 10; sample 1 15; sample 0 10].

Definition flat_provider : data_loader :=
  one_series [sample 1 10; sample 0 10].

Definition up_down_request : list request_row :=
  [mkRequest "A" (Some 1); mkRequest "A" (Some 2); mkRequest "A" (Some 0)].

(** Requests for the ticker without daily history, one of them with a
    missing date, beside a request for a ticker with history. *)
Definition absent_request : list request_row :=
  [mkRequest "AAA" (Some 1); mkRequest "B" (Some 0); mkRequest "AAA" None].


(** Whole numbers of magnitude at most 2^52: float64 and int64 hold them
    and their differences exactly. *)
Definition small_whole (x : Q) : bool :=
  (Z.pos (Qden x) =? 1) && (Z.abs (Qnum x) <=? 2 ^ 52).

(** The subtraction used on the sample tables: the exact difference of two
    small whole numbers, NaN when an operand is NaN, the days between two
    dates.  Operands outside these cases are not used in the samples and
    are refused. *)
Definition whole_sub : series_sub :=
  fun curr last k =>
    match nth_error curr k, nth_error last k with
    | Some (CNum x), Some (CNum z) =>
        if small_whole x && small_whole z then Some (CNum (x - z)%Q) else None
    | Some (CNum _), Some CNull => Some CNull
    | Some CNull, Some (CNum _) => Some CNull
    | Some CNull, Some CNull => Some CNull
    | Some (CDate a), Some (CDate b) => Some (CDelta (a - b))
    | _, _ => None
    end.

(** ** Tactics *)

(** Decides the date comparisons of a goal by linear arithmetic. *)
Ltac decide_order :=
  repeat match goal with
  | |- context [?a <=? ?b] =>
      first [ rewrite (proj2 (Z.leb_le a b)) by lia
            | rewrite (proj2 (Z.leb_gt a b)) by lia ]
  | |- context [?a <? ?b] =>
      first [ rewrite (proj2 (Z.ltb_lt a b)) by lia
            | rewrite (proj2 (Z.ltb_ge a b)) by lia ]
  end.

(** ** ReportGapTarget *)

(** The difference of two means (line 421): both label columns hold the
    float64 results of [np.mean], or None for an entity without daily
    history; a missing operand gives a missing difference. *)
Definition numeric_sub (a b : cell) : cell :=
  match a, b with
  | CNum x, CNum z => CNum (x - z)%Q
  | _, _ => CNull
  end.

Module ReportGapTarget.

(** [calculate] with [norm = False]: the mean over the window on and after
    the date minus the mean over the window before it, subtracted as
    Series on the same index, position by position. *)
Definition calculate (data_loader : data_loader) (col : string)
  (smooth_horizon : Z) (info_df : list request_row) : option (list result_row) :=
  curr_df <- DailyAggTarget.calculate data_loader col smooth_horizon np_mean info_df ;;
  last_df <- DailyAggTarget.calculate data_loader col (- smooth_horizon) np_mean info_df ;;
  Some (map (fun cl => set_y (fst cl) (numeric_sub (y (fst cl)) (y (snd cl))))
            (combine curr_df last_df)).

End ReportGapTarget.

(** The gap of one request row: both means are computed, which fails on a
    missing date of an entity with daily history. *)
Definition gap_lookup (dl : data_loader) (col : string) (smooth_horizon : Z)
  (t : string) (d : option Z) : option cell :=
  curr <- daily_lookup dl col smooth_horizon np_mean t d ;;
  last <- daily_lookup dl col (- smooth_horizon) np_mean t d ;;
  Some (numeric_sub curr last).

(** ** BaseInfoTarget *)

(** One row of [load_base_data()]: the ticker and its static attributes. *)
Record base_row : Type := mkBase { b_ticker : string; b_fields : string -> cell }.

Module BaseInfoTarget.

(** [pd.merge(info_df, base_df, on='ticker', how='left')] restricted to the
    columns [ticker] and [y]: the request tickers in their order, each with
    the attribute of every base row of that ticker, or with null when the
    base table has none.  The base table is not deduplicated. *)
Definition calculate (base_df : list base_row) (col : string)
  (info_df : list string) : list (string * cell) :=
  flat_map (fun t =>
              match filter (fun b => String.eqb t (b_ticker b)) base_df with
              | [] => [(t, CNull)]
              | ms => map (fun b => (t, b_fields b col)) ms
              end) info_df.

End BaseInfoTarget.

(** ** utils.make_step_function *)

(** [Series.shift(-1)]: every value moves one position up and the last
    position becomes NaN. *)
Definition shift_up (ys : list cell) : list cell :=
  match ys with
  | [] => []
  | _ :: rest => (rest ++ [CNull])%list
  end.

(** A row of the concatenated frame: [x_col], [y_col] and the helper column
    [idx]. *)
Definition step_row : Type := (Z * cell * Z)%type.

(** The order of [sort_values([x_col, 'idx'])]. *)
Definition step_le (a b : step_row) : bool :=
  (fst (fst a) <? fst (fst b)) ||
  ((fst (fst a) =? fst (fst b)) && (snd a <=? snd b)).

Fixpoint insert_step (a : step_row) (l : list step_row) : list step_row :=
  match l with
  | [] => [a]
  | h :: l' => if step_le a h then a :: l else h :: insert_step a l'
  end.

(** A stable sort: rows of equal keys keep their order. *)
Definition sort_steps (l : list step_row) : list step_row :=
  fold_right insert_step [] l.

(** [make_step_function(df, x_col, y_col)] on the rows [(x, y)] of [df];
    [now] is the value of [np.datetime64('now')], [None] the IndexError of
    [values[-1]] on an empty frame. *)
Definition make_step_function (now : Z) (df : list (Z * cell))
  : option (list (Z * cell)) :=
  let part_1 := map (fun r => (r, 2)) df in
  let part_2 := map (fun r => (r, 1))
                    (combine (map fst df) (shift_up (map snd df))) in
  let result := map fst (sort_steps (part_1 ++ part_2)) in
  match rev result with
  | [] => None
  | last_row :: _ => Some (result ++ [(now, snd last_row)])%list
  end.

(** The sorted frame before the last row is appended. *)
Definition step_body (df : list (Z * cell)) : list (Z * cell) :=
  map fst (sort_steps
             (map (fun r => (r, 2)) df ++
              map (fun r => (r, 1))
                  (combine (map fst df) (shift_up (map snd df))))).

Definition step_sorted (l : list step_row) : Prop :=
  Sorted (fun a b => step_le a b = true) l.

(** The value of the row that follows, NaN after the last row. *)
Definition next_y (rest : list (Z * cell)) : cell :=
  match rest with
  | [] => CNull
  | r :: _ => snd r
  end.

(** The step function in words: every [x] twice, first with the value of
    the row that follows, then with its own value. *)
Fixpoint steps (df : list (Z * cell)) : list (Z * cell) :=
  match df with
  | [] => []
  | r :: rest => (fst r, next_y rest) :: r :: steps rest
  end.

(** The same rows with their helper column. *)
Fixpoint tagged_steps (df : list (Z * cell)) : list step_row :=
  match df with
  | [] => []
  | r :: rest => ((fst r, next_y rest), 1) :: (r, 2) :: tagged_steps rest
  end.

(** A small frame, oldest first. *)
Definition step_frame : list (Z * cell) := [(1, num 10); (2, num 20); (3, num 30)].

(** ** Notions the further properties are stated with *)

(** The order of the group keys. *)
Definition ticker_le (a b : string) : Prop := String.leb a b = true.

(** The row-by-row loop a calculator amounts to: no table for an empty
    request, no table as soon as one row fails. *)
Definition rowwise (f : string -> option Z -> option cell)
  (info_df : list request_row) : option (list result_row) :=
  match info_df with
  | [] => None
  | _ => mapM (fun r => v <- f (ticker r) (rdate r) ;;
                        Some (mkResult (ticker r) (rdate r) v)) info_df
  end.

(** Labels equal as numbers. *)
Definition cell_equiv (a b : cell) : Prop :=
  match a, b with
  | CNull, CNull => True
  | CNum x, CNum z => (x == z)%Q
  | CDate d, CDate e => d = e
  | _, _ => False
  end.

Definition cell_opp (a : cell) : cell :=
  match a with
  | CNum x => CNum (- x)%Q
  | c => c
  end.

(** The records a request date admits into a window of the given
    horizon. *)
Definition eligible (horizon : Z) (d : option Z) (r : record) : bool :=
  if 0 <=? horizon then DailyAggTarget.on_or_after d r
  else DailyAggTarget.before d r.

(** Two partial tables, in the two orders in which workers may deliver
    them. *)
Definition partial_tables : list (list result_row) :=
  [[mkResult "A" (Some 1) (num 10)]; [mkResult "B" (Some 0) (num 20)]].

Definition partial_tables_swapped : list (list result_row) :=
  [[mkResult "B" (Some 0) (num 20)]; [mkResult "A" (Some 1) (num 10)]].

Definition two_ticker_request : list request_row :=
  [mkRequest "B" (Some 0); mkRequest "A" (Some 1); mkRequest "B" (Some 0)].

(** A base table with a repeated ticker, and a request for three
    tickers. *)
Definition base_table : list base_row :=
  [mkBase "A" (fun _ => num 1); mkBase "B" (fun _ => num 2);
   mkBase "A" (fun _ => num 3)].

Definition unique_base_table : list base_row :=
  [mkBase "A" (fun _ => num 1); mkBase "B" (fun _ => num 2)].

Definition ticker_request : list string := ["B"; "C"; "A"; "B"].

(** * Properties *)

(** ** Keys *)

Lemma date_eqb_eq (a b : option Z) : date_eqb a b = true <-> a = b.
Proof.
  destruct a as [x|], b as [z|]; simpl; split; intro H;
    try discriminate; try reflexivity.
  - apply Z.eqb_eq in H. now subst.
  - injection H as ->. apply Z.eqb_refl.
Qed.

Lemma key_eqb_eq (a b : key) : key_eqb a b = true <-> a = b.
Proof.
  destruct a as [ta da], b as [tb db]. unfold key_eqb. simpl.
  rewrite andb_true_iff, String.eqb_eq, date_eqb_eq.
  split.
  - intros [-> ->]. reflexivity.
  - intros H. injection H as -> ->. split; reflexivity.
Qed.

Lemma key_eqb_refl (a : key) : key_eqb a a = true.
Proof. now apply key_eqb_eq. Qed.

(** ** The error monad *)

Lemma mapM_total {A B : Type} (f : A -> option B) (g : A -> B) (l : list A) :
  (forall a, In a l -> f a = Some (g a)) -> mapM f l = Some (map g l).
Proof.
  induction l as [|a l IH]; intros H; simpl.
  - reflexivity.
  - rewrite (H a (or_introl eq_refl)). simpl.
    rewrite IH by (intros x Hx; apply H; now right).
    reflexivity.
Qed.

Lemma mapM_fails {A B : Type} (f : A -> option B) (l : list A) (a : A) :
  In a l -> f a = None -> mapM f l = None.
Proof.
  induction l as [|x l IH]; intros Hin Hf; simpl.
  - contradiction.
  - destruct Hin as [-> | Hin].
    + now rewrite Hf.
    + destruct (f x); simpl; [|reflexivity].
      now rewrite (IH Hin Hf).
Qed.

Lemma mapM_None_inv {A B : Type} (f : A -> option B) (l : list A) :
  mapM f l = None -> exists a, In a l /\ f a = None.
Proof.
  induction l as [|a l IH]; simpl; intros H; [discriminate|].
  destruct (f a) eqn:E.
  - simpl in H. destruct (mapM f l); [discriminate|].
    destruct (IH eq_refl) as [x [Hin Hx]]. exists x. split; [now right | assumption].
  - exists a. split; [now left | assumption].
Qed.

Lemma combine_map_self {A B C : Type} (g : A -> B) (h : A * B -> C) (l : list A) :
  map h (combine l (map g l)) = map (fun a => h (a, g a)) l.
Proof.
  induction l as [|a l IH]; simpl; [reflexivity | now rewrite IH].
Qed.

(** ** drop_duplicates and the left join *)

(** After [drop_duplicates] a key selects at most one row: the first row of
    that key in the concatenated table. *)
Lemma drop_duplicates_seen_filter (k : key) (rows : list result_row) :
  forall seen,
    filter (fun r => key_eqb k (result_key r)) (drop_duplicates_seen seen rows) =
    if existsb (key_eqb k) seen then []
    else match find (fun r => key_eqb k (result_key r)) rows with
         | Some r => [r]
         | None => []
         end.
Proof.
  induction rows as [|r rows IH]; intros seen; simpl.
  - now destruct (existsb (key_eqb k) seen).
  - destruct (existsb (key_eqb (result_key r)) seen) eqn:Hr.
    + rewrite IH. destruct (existsb (key_eqb k) seen) eqn:Hk; [reflexivity|].
      destruct (key_eqb k (result_key r)) eqn:Hkr; [|reflexivity].
      apply key_eqb_eq in Hkr. subst k. congruence.
    + simpl. rewrite IH. simpl.
      destruct (key_eqb k (result_key r)) eqn:Hkr.
      * apply key_eqb_eq in Hkr. subst k. now rewrite Hr.
      * reflexivity.
Qed.

Lemma drop_duplicates_filter (k : key) (rows : list result_row) :
  filter (fun r => key_eqb k (result_key r)) (drop_duplicates rows) =
  match find (fun r => key_eqb k (result_key r)) rows with
  | Some r => [r]
  | None => []
  end.
Proof. unfold drop_duplicates. now rewrite drop_duplicates_seen_filter. Qed.

(** A left row joined with a deduplicated table gives exactly one row. *)
Lemma merge_row_dedup (rows : list result_row) (l : request_row) :
  merge_row (drop_duplicates rows) l =
  [mkResult (ticker l) (rdate l)
     match find (fun r => key_eqb (request_key l) (result_key r)) rows with
     | Some r => y r
     | None => CNull
     end].
Proof.
  unfold merge_row. rewrite drop_duplicates_filter.
  now destruct (find (fun r => key_eqb (request_key l) (result_key r)) rows).
Qed.

Lemma pd_merge_left_dedup (rows : list result_row) (info_df : list request_row) :
  pd_merge_left info_df (drop_duplicates rows) =
  map (fun l => mkResult (ticker l) (rdate l)
         match find (fun r => key_eqb (request_key l) (result_key r)) rows with
         | Some r => y r
         | None => CNull
         end) info_df.
Proof.
  unfold pd_merge_left. induction info_df as [|l info IH]; simpl.
  - reflexivity.
  - rewrite merge_row_dedup, IH. reflexivity.
Qed.

Lemma merge_results_keys (info_df : list request_row)
  (parts : list (list result_row)) (out : list result_row) :
  merge_results info_df parts = Some out ->
  map result_key out = map request_key info_df.
Proof.
  unfold merge_results, pd_concat. destruct parts as [|p parts]; simpl; [discriminate|].
  intros H. injection H as <-. rewrite pd_merge_left_dedup, map_map.
  reflexivity.
Qed.

(** ** Grouping *)

Lemma insert_sorted_In (k x : string) (l : list string) :
  In x (insert_sorted k l) <-> x = k \/ In x l.
Proof.
  induction l as [|h l IH]; simpl.
  - intuition.
  - destruct (String.leb k h); simpl; rewrite ?IH; intuition.
Qed.

Lemma sort_keys_In (x : string) (l : list string) :
  In x (sort_keys l) <-> In x l.
Proof.
  induction l as [|h l IH]; simpl.
  - reflexivity.
  - rewrite insert_sorted_In, IH. intuition.
Qed.

Lemma group_keys_In (t : string) (info_df : list request_row) :
  In t (sort_keys (nodup string_dec (map ticker info_df))) <->
  In t (map ticker info_df).
Proof. now rewrite sort_keys_In, nodup_In. Qed.

Lemma groupby_ticker_In (t : string) (info_df : list request_row) :
  In t (map ticker info_df) ->
  In (t, dates_of t info_df) (groupby_ticker info_df).
Proof.
  intros H. unfold groupby_ticker. apply in_map_iff.
  exists t. split; [reflexivity | now apply group_keys_In].
Qed.

Lemma dates_of_In (r : request_row) (info_df : list request_row) :
  In r info_df -> In (rdate r) (dates_of (ticker r) info_df).
Proof.
  intros H. unfold dates_of. apply in_map. apply filter_In.
  split; [assumption | apply String.eqb_refl].
Qed.

Lemma dates_of_inv (t : string) (d : option Z) (info_df : list request_row) :
  In d (dates_of t info_df) -> In (mkRequest t d) info_df.
Proof.
  unfold dates_of. intros H. apply in_map_iff in H.
  destruct H as [r [Hd Hr]]. apply filter_In in Hr. destruct Hr as [Hin Ht].
  apply String.eqb_eq in Ht. destruct r as [t' d']. simpl in *. now subst.
Qed.

(** ** Dispatch and merge *)

Lemma nonempty_In {A : Type} (l : list A) : l <> [] -> exists a, In a l.
Proof.
  destruct l as [|a l]; [congruence|]. intros _. exists a. now left.
Qed.

Lemma pd_concat_nonempty (parts : list (list result_row)) :
  parts <> [] -> pd_concat parts = Some (concat parts).
Proof. destruct parts; [congruence | reflexivity]. Qed.

Section Dispatch.

Variable worker : string * list (option Z) -> option (list result_row).
Variable info_df : list request_row.
Variable g : string -> option Z -> cell.

Hypothesis worker_rows : forall t,
  In t (map ticker info_df) ->
  worker (t, dates_of t info_df) =
  Some (map (fun d => mkResult t d (g t d)) (dates_of t info_df)).

Hypothesis some_request : info_df <> [].

Let keys := sort_keys (nodup string_dec (map ticker info_df)).
Let parts := map (fun t => map (fun d => mkResult t d (g t d)) (dates_of t info_df)) keys.

(** One failing work item aborts the whole call. *)
Lemma dispatch_and_merge_fails (t : string) :
  In t (map ticker info_df) ->
  worker (t, dates_of t info_df) = None ->
  dispatch_and_merge worker info_df = None.
Proof.
  intros Hin Hw. unfold dispatch_and_merge.
  rewrite (mapM_fails worker _ _ (groupby_ticker_In t info_df Hin) Hw).
  reflexivity.
Qed.

(** Whatever the workers return, a successful call keeps the request
    table's keys, row for row. *)
Lemma dispatch_and_merge_keys (out : list result_row) :
  dispatch_and_merge worker info_df = Some out ->
  map result_key out = map request_key info_df.
Proof.
  unfold dispatch_and_merge.
  destruct (mapM worker (groupby_ticker info_df)) as [tables|]; simpl;
    [|discriminate].
  apply merge_results_keys.
Qed.

Lemma workers_succeed : mapM worker (groupby_ticker info_df) = Some parts.
Proof.
  unfold groupby_ticker, parts. fold keys.
  assert (H : forall t, In t keys -> In t (map ticker info_df))
    by (intros t Ht; now apply group_keys_In).
  induction keys as [|k ks IH]; simpl.
  - reflexivity.
  - change (map rdate (filter (fun r => String.eqb (ticker r) k) info_df))
      with (dates_of k info_df).
    rewrite worker_rows by (apply H; now left). simpl.
    rewrite IH by (intros t Ht; apply H; now right). reflexivity.
Qed.

Lemma parts_nonempty : parts <> [].
Proof.
  destruct (nonempty_In info_df some_request) as [r Hr].
  assert (Hin : In (ticker r) keys).
  { unfold keys. apply group_keys_In. now apply in_map. }
  intros Hp. apply (f_equal (@length _)) in Hp.
  unfold parts in Hp. rewrite length_map in Hp. simpl in Hp.
  apply length_zero_iff_nil in Hp. rewrite Hp in Hin. contradiction.
Qed.

Lemma parts_label (rho : result_row) :
  In rho (concat parts) -> y rho = g (r_ticker rho) (r_date rho).
Proof.
  intros H. apply in_concat in H. destruct H as [p [Hp Hrho]].
  unfold parts in Hp. apply in_map_iff in Hp. destruct Hp as [t [<- _]].
  apply in_map_iff in Hrho. destruct Hrho as [d [<- _]]. reflexivity.
Qed.

Lemma parts_cover (r : request_row) :
  In r info_df ->
  In (mkResult (ticker r) (rdate r) (g (ticker r) (rdate r))) (concat parts).
Proof.
  intros H. apply in_concat.
  exists (map (fun d => mkResult (ticker r) d (g (ticker r) d))
              (dates_of (ticker r) info_df)).
  split.
  - unfold parts. apply in_map_iff. exists (ticker r). split; [reflexivity|].
    unfold keys. apply group_keys_In. now apply in_map.
  - apply in_map_iff. exists (rdate r). split; [reflexivity|].
    now apply dates_of_In.
Qed.

(** When every work item returns the rows of its dates labelled by [g],
    the call returns the request table labelled by [g]. *)
Lemma dispatch_and_merge_labelled :
  dispatch_and_merge worker info_df = Some (labelled g info_df).
Proof.
  unfold dispatch_and_merge. rewrite workers_succeed. simpl.
  unfold merge_results. rewrite (pd_concat_nonempty parts parts_nonempty).
  simpl. rewrite pd_merge_left_dedup. f_equal.
  unfold labelled. apply map_ext_in. intros r Hr. f_equal.
  destruct (find (fun x => key_eqb (request_key r) (result_key x)) (concat parts))
    as [rho|] eqn:F.
  - apply find_some in F. destruct F as [Hin Hk].
    apply key_eqb_eq in Hk. rewrite (parts_label rho Hin).
    unfold request_key, result_key in Hk. injection Hk as -> ->. reflexivity.
  - exfalso. pose proof (find_none _ _ F _ (parts_cover r Hr)) as Hc.
    unfold request_key, result_key in Hc. simpl in Hc.
    now rewrite (key_eqb_refl (ticker r, rdate r)) in Hc.
Qed.

End Dispatch.

(** ** The two calculators, row by row *)

Lemma quarterly_worker_rows (dl : data_loader) (col : string) (shift : Z)
  (t : string) (dates : list (option Z)) :
  (forall d, In d dates -> quarterly_lookup dl col shift t d <> None) ->
  QuarterlyTarget.single_ticker_target dl col shift (t, dates) =
  Some (map (fun d => mkResult t d (quarterly_label dl col shift t d)) dates).
Proof.
  intros H. unfold QuarterlyTarget.single_ticker_target.
  rewrite (mapM_total _ (quarterly_label dl col shift t)).
  - simpl. now rewrite combine_map_self.
  - intros d Hd. specialize (H d Hd). unfold quarterly_label.
    unfold quarterly_lookup in *.
    now destruct (QuarterlyTarget.lookup col shift
                    (rev (load_quarterly_data dl t)) d).
Qed.

Lemma quarterly_worker_fails (dl : data_loader) (col : string) (shift : Z)
  (t : string) (dates : list (option Z)) (d : option Z) :
  In d dates -> quarterly_lookup dl col shift t d = None ->
  QuarterlyTarget.single_ticker_target dl col shift (t, dates) = None.
Proof.
  intros Hin Hd. unfold QuarterlyTarget.single_ticker_target.
  unfold quarterly_lookup in Hd. now rewrite (mapM_fails _ _ _ Hin Hd).
Qed.

Lemma quarterly_calculate_labelled (dl : data_loader) (col : string) (shift : Z)
  (info_df : list request_row) :
  info_df <> [] ->
  (forall r, In r info_df ->
     quarterly_lookup dl col shift (ticker r) (rdate r) <> None) ->
  QuarterlyTarget.calculate dl col shift info_df =
  Some (labelled (quarterly_label dl col shift) info_df).
Proof.
  intros Hne Hall. unfold QuarterlyTarget.calculate.
  apply dispatch_and_merge_labelled; [|assumption].
  intros t _. apply quarterly_worker_rows.
  intros d Hd. apply dates_of_inv in Hd. exact (Hall _ Hd).
Qed.

Lemma quarterly_calculate_fails (dl : data_loader) (col : string) (shift : Z)
  (info_df : list request_row) (r : request_row) :
  In r info_df ->
  quarterly_lookup dl col shift (ticker r) (rdate r) = None ->
  QuarterlyTarget.calculate dl col shift info_df = None.
Proof.
  intros Hin Hr. unfold QuarterlyTarget.calculate.
  apply (dispatch_and_merge_fails _ _ (ticker r)).
  - now apply in_map.
  - apply (quarterly_worker_fails dl col shift _ _ (rdate r));
      [now apply dates_of_In | assumption].
Qed.



(** The daily lookup fails on a missing date of an entity with daily
    history, and on nothing else. *)
Lemma daily_lookup_None (dl : data_loader) (col : string) (horizon : Z)
  (foo : list cell -> cell) (t : string) (d : option Z) :
  daily_lookup dl col horizon foo t d = None <->
  load_daily_data dl t <> None /\ d = None.
Proof.
  unfold daily_lookup, DailyAggTarget.aggregate.
  destruct (load_daily_data dl t) as [daily|], d as [x|]; split;
    try discriminate; try (intros [H1 H2]; congruence).
  intros _. split; [discriminate | reflexivity].
Qed.

Lemma daily_lookup_dated (dl : data_loader) (col : string) (horizon : Z)
  (foo : list cell -> cell) (r : request_row) :
  (load_daily_data dl (ticker r) <> None -> rdate r <> None) ->
  daily_lookup dl col horizon foo (ticker r) (rdate r) <> None.
Proof.
  intros H E. apply daily_lookup_None in E. destruct E as [E1 E2]. now apply H.
Qed.

Lemma daily_worker_rows (dl : data_loader) (col : string) (horizon : Z)
  (foo : list cell -> cell) (t : string) (dates : list (option Z)) :
  (forall d, In d dates -> daily_lookup dl col horizon foo t d <> None) ->
  DailyAggTarget.single_ticker_target dl col horizon foo (t, dates) =
  Some (map (fun d => mkResult t d (daily_label dl col horizon foo t d)) dates).
Proof.
  intros H. unfold DailyAggTarget.single_ticker_target.
  unfold daily_label, daily_lookup in *.
  destruct (load_daily_data dl t) as [daily|]; [|reflexivity].
  rewrite (mapM_total _
             (fun d => match DailyAggTarget.aggregate col horizon foo (rev daily) d with
                       | Some v => v
                       | None => CNull
                       end)).
  - simpl. now rewrite combine_map_self.
  - intros d Hd. specialize (H d Hd).
    now destruct (DailyAggTarget.aggregate col horizon foo (rev daily) d).
Qed.

Lemma daily_worker_fails (dl : data_loader) (col : string) (horizon : Z)
  (foo : list cell -> cell) (t : string) (dates : list (option Z))
  (d : option Z) :
  In d dates -> daily_lookup dl col horizon foo t d = None ->
  DailyAggTarget.single_ticker_target dl col horizon foo (t, dates) = None.
Proof.
  intros Hin Hd. unfold DailyAggTarget.single_ticker_target.
  unfold daily_lookup in Hd.
  destruct (load_daily_data dl t) as [daily|]; [|discriminate].
  now rewrite (mapM_fails _ _ _ Hin Hd).
Qed.

Lemma daily_calculate_labelled (dl : data_loader) (col : string) (horizon : Z)
  (foo : list cell -> cell) (info_df : list request_row) :
  info_df <> [] ->
  (forall r, In r info_df ->
     daily_lookup dl col horizon foo (ticker r) (rdate r) <> None) ->
  DailyAggTarget.calculate dl col horizon foo info_df =
  Some (labelled (daily_label dl col horizon foo) info_df).
Proof.
  intros Hne Hall. unfold DailyAggTarget.calculate.
  apply dispatch_and_merge_labelled; [|assumption].
  intros t _. apply daily_worker_rows.
  intros d Hd. apply dates_of_inv in Hd. exact (Hall _ Hd).
Qed.

Lemma daily_calculate_fails (dl : data_loader) (col : string) (horizon : Z)
  (foo : list cell -> cell) (info_df : list request_row) (r : request_row) :
  In r info_df ->
  daily_lookup dl col horizon foo (ticker r) (rdate r) = None ->
  DailyAggTarget.calculate dl col horizon foo info_df = None.
Proof.
  intros Hin Hr. unfold DailyAggTarget.calculate.
  apply (dispatch_and_merge_fails _ _ (ticker r)).
  - now apply in_map.
  - apply (daily_worker_fails dl col horizon foo _ _ (rdate r));
      [now apply dates_of_In | assumption].
Qed.

Lemma daily_calculate_inv (dl : data_loader) (col : string) (horizon : Z)
  (foo : list cell -> cell) (info_df : list request_row)
  (out : list result_row) :
  DailyAggTarget.calculate dl col horizon foo info_df = Some out ->
  info_df <> [] /\
  (forall r, In r info_df ->
     daily_lookup dl col horizon foo (ticker r) (rdate r) <> None) /\
  out = labelled (daily_label dl col horizon foo) info_df.
Proof.
  intros H.
  assert (Hne : info_df <> []) by (intros ->; discriminate).
  assert (Hall : forall r, In r info_df ->
            daily_lookup dl col horizon foo (ticker r) (rdate r) <> None).
  { intros r Hr Hnone.
    rewrite (daily_calculate_fails dl col horizon foo info_df r Hr Hnone) in H.
    discriminate. }
  repeat split; try assumption.
  rewrite (daily_calculate_labelled dl col horizon foo info_df Hne Hall) in H.
  now injection H.
Qed.

(** The label of a dated row is the aggregate of its window. *)
Lemma daily_label_window (dl : data_loader) (col : string) (horizon : Z)
  (foo : list cell -> cell) (t : string) (daily : list record) (x : Z) :
  load_daily_data dl t = Some daily ->
  daily_label dl col horizon foo t (Some x) =
  foo (DailyAggTarget.window col horizon (rev daily) (Some x)).
Proof. intros H. unfold daily_label, daily_lookup. now rewrite H. Qed.

Lemma daily_label_absent (dl : data_loader) (col : string) (horizon : Z)
  (foo : list cell -> cell) (t : string) (d : option Z) :
  load_daily_data dl t = None -> daily_label dl col horizon foo t d = CNull.
Proof. intros H. unfold daily_label, daily_lookup. now rewrite H. Qed.

Lemma labelled_nth (g : string -> option Z -> cell) (info_df : list request_row)
  (i : nat) (r : request_row) :
  nth_error info_df i = Some r ->
  nth_error (labelled g info_df) i =
  Some (mkResult (ticker r) (rdate r) (g (ticker r) (rdate r))).
Proof.
  intros H. unfold labelled. now rewrite nth_error_map, H.
Qed.

(** ** The exact-match lookup *)

Lemma where_first_app {A : Type} (mask : A -> bool) (a b : list A) (m : A) :
  (forall x, In x a -> mask x = false) -> mask m = true ->
  where_first mask (a ++ m :: b) = Some (length a).
Proof.
  intros Ha Hm. induction a as [|x a IH]; simpl.
  - now rewrite Hm.
  - rewrite (Ha x (or_introl eq_refl)).
    rewrite IH by (intros z Hz; apply Ha; now right). reflexivity.
Qed.

Lemma where_first_exists {A : Type} (mask : A -> bool) (l : list A) (i : nat) :
  where_first mask l = Some i -> existsb mask l = true.
Proof.
  revert i. induction l as [|a l IH]; intros i H; simpl in *.
  - discriminate.
  - destruct (mask a); [reflexivity|]. simpl.
    destruct (where_first mask l) as [j|]; [|discriminate]. now apply (IH j).
Qed.

Lemma existsb_none {A : Type} (mask : A -> bool) (l : list A) :
  (forall x, In x l -> mask x = false) -> existsb mask l = false.
Proof.
  intros H. destruct (existsb mask l) eqn:E; [|reflexivity].
  apply existsb_exists in E. destruct E as [x [Hin Hx]].
  rewrite (H x Hin) in Hx. discriminate.
Qed.

(** The lookup, once the position of the exact match is known. *)
Lemma lookup_matched (col : string) (shift : Z) (q : list record)
  (d : option Z) (i : nat) :
  where_first (QuarterlyTarget.date_is d) q = Some i ->
  QuarterlyTarget.lookup col shift q d =
  Some (if (0 <=? Z.of_nat i + shift) && (Z.of_nat i + shift <? Z.of_nat (length q))
        then nth (Z.to_nat (Z.of_nat i + shift)) (map (column col) q) CNull
        else CNull).
Proof.
  intros H. unfold QuarterlyTarget.lookup.
  rewrite (where_first_exists _ _ _ H), H. simpl.
  now destruct ((0 <=? Z.of_nat i + shift) &&
                (Z.of_nat i + shift <? Z.of_nat (length q))).
Qed.

Lemma lookup_unmatched (col : string) (shift : Z) (q : list record) (d : option Z) :
  (forall x, In x q -> d <> Some (date x)) ->
  QuarterlyTarget.lookup col shift q d = None.
Proof.
  intros H. unfold QuarterlyTarget.lookup. rewrite existsb_none; [reflexivity|].
  intros x Hx. specialize (H x Hx). unfold QuarterlyTarget.date_is.
  destruct d as [z|]; [|reflexivity].
  apply Z.eqb_neq. intros E. apply H. now rewrite E.
Qed.

Lemma nth_column_middle (col : string) (a b : list record) (m : record) (n : nat) :
  n = length a ->
  nth n (map (column col) (a ++ m :: b)) CNull = column col m.
Proof.
  intros ->. rewrite map_app. simpl.
  rewrite <- (length_map (column col) a). apply nth_middle.
Qed.

Lemma in_range_true (idx n : Z) :
  0 <= idx < n -> (0 <=? idx) && (idx <? n) = true.
Proof.
  intros H. apply andb_true_iff. split; [apply Z.leb_le | apply Z.ltb_lt]; lia.
Qed.

Lemma in_range_false (idx n : Z) :
  idx < 0 \/ n <= idx -> (0 <=? idx) && (idx <? n) = false.
Proof.
  intros H. apply andb_false_iff.
  destruct H; [left; apply Z.leb_gt | right; apply Z.ltb_ge]; lia.
Qed.

Section Neighbours.

Variable col : string.
Variables (a b : list record) (m : record) (d : Z).
Hypothesis match_here : date m = d.
Hypothesis first_match : forall x, In x a -> date x <> d.

Lemma match_position :
  where_first (QuarterlyTarget.date_is (Some d)) (a ++ m :: b) = Some (length a).
Proof.
  apply where_first_app.
  - intros x Hx. simpl. apply Z.eqb_neq. now apply first_match.
  - simpl. now apply Z.eqb_eq.
Qed.

Lemma lookup_same :
  QuarterlyTarget.lookup col 0 (a ++ m :: b) (Some d) = Some (column col m).
Proof.
  rewrite (lookup_matched col 0 _ _ _ match_position).
  rewrite in_range_true by (rewrite length_app; simpl; lia).
  rewrite nth_column_middle by lia. reflexivity.
Qed.

Lemma lookup_before :
  QuarterlyTarget.lookup col (-1) (a ++ m :: b) (Some d) =
  Some (value_of col (hd_error (rev a))).
Proof.
  rewrite (lookup_matched col (-1) _ _ _ match_position).
  destruct (rev a) as [|p a'] eqn:E;
    apply (f_equal (@rev _)) in E; rewrite rev_involutive in E; simpl in E;
    rewrite E.
  - reflexivity.
  - rewrite in_range_true by (rewrite !length_app; simpl; lia).
    rewrite <- app_assoc. simpl app.
    rewrite nth_column_middle; [reflexivity|].
    rewrite length_app. simpl. lia.
Qed.

Lemma lookup_after :
  QuarterlyTarget.lookup col 1 (a ++ m :: b) (Some d) =
  Some (value_of col (hd_error b)).
Proof.
  rewrite (lookup_matched col 1 _ _ _ match_position).
  destruct b as [|n b'].
  - rewrite in_range_false by (rewrite length_app; simpl; lia).
    reflexivity.
  - rewrite in_range_true by (rewrite length_app; simpl; lia).
    replace (a ++ m :: n :: b')%list with ((a ++ [m]) ++ n :: b')%list
      by (now rewrite <- app_assoc).
    rewrite nth_column_middle; [reflexivity|].
    rewrite length_app. simpl. lia.
Qed.

End Neighbours.

(** ** Series supplied newest first *)

Lemma descending_tail (a : Z) (l : list Z) :
  strictly_descending (a :: l) = true -> strictly_descending l = true.
Proof.
  destruct l as [|b l]; [reflexivity|]. simpl.
  intros H. apply andb_true_iff in H. tauto.
Qed.

Lemma descending_head (a : Z) (l : list Z) :
  strictly_descending (a :: l) = true -> forall x, In x l -> x < a.
Proof.
  revert a. induction l as [|b l IH]; intros a H x Hx.
  - contradiction.
  - simpl in H. apply andb_true_iff in H. destruct H as [Hba Hl].
    apply Z.ltb_lt in Hba. destruct Hx as [<- | Hx]; [assumption|].
    specialize (IH b Hl x Hx). lia.
Qed.

Lemma descending_cons (a : Z) (l : list Z) :
  (forall x, In x l -> x < a) -> strictly_descending l = true ->
  strictly_descending (a :: l) = true.
Proof.
  intros Ha Hl. destruct l as [|b l]; [reflexivity|].
  change (((b <? a) && strictly_descending (b :: l)) = true).
  rewrite Hl, andb_true_r. apply Z.ltb_lt. apply Ha. now left.
Qed.

Lemma descending_app (l1 l2 : list Z) :
  strictly_descending (l1 ++ l2) = true ->
  strictly_descending l1 = true /\ strictly_descending l2 = true /\
  forall x z, In x l1 -> In z l2 -> z < x.
Proof.
  induction l1 as [|a l1 IH]; intros H.
  - simpl in H. repeat split; try assumption. intros x z [].
  - change ((a :: l1) ++ l2)%list with (a :: (l1 ++ l2))%list in H.
    pose proof (descending_head _ _ H) as Hhead.
    apply descending_tail in H. destruct (IH H) as [H1 [H2 H12]].
    repeat split; try assumption.
    + apply descending_cons; [|assumption].
      intros x Hx. apply Hhead. apply in_or_app. now left.
    + intros x z [<- | Hx] Hz.
      * apply Hhead. apply in_or_app. now right.
      * now apply H12.
Qed.

Lemma descending_filter (f : record -> bool) (l : list record) :
  strictly_descending (map date l) = true ->
  strictly_descending (map date (filter f l)) = true.
Proof.
  induction l as [|a l IH]; intros H; [reflexivity|].
  simpl map in H. pose proof (descending_head _ _ H) as Hhead.
  apply descending_tail in H. specialize (IH H).
  simpl. destruct (f a); [|assumption].
  simpl map. apply descending_cons; [|assumption].
  intros x Hx. apply Hhead. apply in_map_iff in Hx.
  destruct Hx as [r [<- Hr]]. apply filter_In in Hr. apply in_map. tauto.
Qed.

Lemma filter_none {A : Type} (f : A -> bool) (l : list A) :
  (forall x, In x l -> f x = false) -> filter f l = [].
Proof.
  induction l as [|a l IH]; intros H; simpl; [reflexivity|].
  rewrite (H a (or_introl eq_refl)). apply IH. intros x Hx. apply H. now right.
Qed.

Lemma filter_all {A : Type} (f : A -> bool) (l : list A) :
  (forall x, In x l -> f x = true) -> filter f l = l.
Proof.
  induction l as [|a l IH]; intros H; simpl; [reflexivity|].
  rewrite (H a (or_introl eq_refl)). f_equal. apply IH.
  intros x Hx. apply H. now right.
Qed.

Lemma find_skip {A : Type} (f : A -> bool) (l1 l2 : list A) :
  (forall x, In x l1 -> f x = false) -> find f (l1 ++ l2) = find f l2.
Proof.
  induction l1 as [|a l1 IH]; intros H; simpl; [reflexivity|].
  rewrite (H a (or_introl eq_refl)). apply IH. intros x Hx. apply H. now right.
Qed.

(** A series sorted newest first splits around the quarter reported on
    [d]: the later quarters before it, the earlier quarters after it. *)
Lemma descending_split (l : list record) (d : Z) :
  strictly_descending (map date l) = true -> In d (map date l) ->
  exists l1 m l2,
    l = (l1 ++ m :: l2)%list /\ date m = d /\
    (forall x, In x l1 -> d < date x) /\
    (forall x, In x l2 -> date x < d) /\
    strictly_descending (map date l1) = true /\
    strictly_descending (map date l2) = true.
Proof.
  intros Hs Hin. apply in_map_iff in Hin. destruct Hin as [m [Hm Hin]].
  apply in_split in Hin. destruct Hin as [l1 [l2 ->]].
  exists l1, m, l2. rewrite map_app in Hs. simpl map in Hs.
  destruct (descending_app _ _ Hs) as [H1 [H2 H12]].
  pose proof (descending_head _ _ H2) as Hhead.
  apply descending_tail in H2. subst d.
  repeat split; try assumption.
  - intros x Hx. apply H12; [now apply in_map | now left].
  - intros x Hx. apply Hhead. now apply in_map.
Qed.

Lemma latest_of_descending (l : list record) :
  strictly_descending (map date l) = true ->
  fold_right pick_later None l = hd_error l.
Proof.
  induction l as [|a l IH]; intros H; [reflexivity|].
  simpl map in H. pose proof (descending_head _ _ H) as Hhead.
  apply descending_tail in H. simpl. rewrite (IH H).
  destruct l as [|b l]; [reflexivity|]. simpl.
  replace (date b <? date a) with true; [reflexivity|].
  symmetry. apply Z.ltb_lt. apply Hhead. simpl. now left.
Qed.

Lemma earliest_of_descending (l : list record) :
  strictly_descending (map date l) = true ->
  fold_right pick_earlier None l = hd_error (rev l).
Proof.
  induction l as [|a l IH]; intros H; [reflexivity|].
  simpl map in H. pose proof (descending_head _ _ H) as Hhead.
  apply descending_tail in H. simpl. rewrite (IH H).
  destruct (rev l) as [|z rest] eqn:E; [reflexivity|]. simpl.
  replace (date a <? date z) with false; [reflexivity|].
  symmetry. apply Z.ltb_ge.
  assert (Hz : In z l) by (apply in_rev; rewrite E; now left).
  specialize (Hhead (date z) (in_map date _ _ Hz)). lia.
Qed.

Section DescendingSeries.

Variables (l1 l2 : list record) (m : record) (d : Z).
Hypothesis here : date m = d.
Hypothesis later : forall x, In x l1 -> d < date x.
Hypothesis earlier : forall x, In x l2 -> date x < d.
Hypothesis sorted1 : strictly_descending (map date l1) = true.
Hypothesis sorted2 : strictly_descending (map date l2) = true.

Lemma previous_quarter_split :
  previous_quarter (l1 ++ m :: l2) d = hd_error l2.
Proof.
  unfold previous_quarter. rewrite filter_app. simpl.
  rewrite filter_none by (intros x Hx; apply Z.ltb_ge; specialize (later x Hx); lia).
  replace (date m <? d) with false by (symmetry; apply Z.ltb_ge; lia).
  rewrite filter_all by (intros x Hx; apply Z.ltb_lt; now apply earlier).
  simpl. now apply latest_of_descending.
Qed.

Lemma next_quarter_split :
  next_quarter (l1 ++ m :: l2) d = hd_error (rev l1).
Proof.
  unfold next_quarter. rewrite filter_app. simpl.
  rewrite filter_all by (intros x Hx; apply Z.ltb_lt; now apply later).
  replace (d <? date m) with false by (symmetry; apply Z.ltb_ge; lia).
  rewrite filter_none by (intros x Hx; apply Z.ltb_ge; specialize (earlier x Hx); lia).
  rewrite app_nil_r. now apply earliest_of_descending.
Qed.

Lemma same_quarter_split :
  same_quarter (l1 ++ m :: l2) d = Some m.
Proof.
  unfold same_quarter.
  rewrite find_skip by (intros x Hx; apply Z.eqb_neq; specialize (later x Hx); lia).
  simpl. replace (date m =? d) with true; [reflexivity|].
  symmetry. now apply Z.eqb_eq.
Qed.

End DescendingSeries.

(** On a series supplied newest first, the three offsets read the previous,
    the matched and the next quarter. *)
Lemma descending_lookup (dl : data_loader) (col t : string) (d : Z) :
  strictly_descending (map date (load_quarterly_data dl t)) = true ->
  In d (map date (load_quarterly_data dl t)) ->
  quarterly_lookup dl col (-1) t (Some d) =
    Some (chronological_label previous_quarter dl col t (Some d)) /\
  quarterly_lookup dl col 0 t (Some d) =
    Some (chronological_label same_quarter dl col t (Some d)) /\
  quarterly_lookup dl col 1 t (Some d) =
    Some (chronological_label next_quarter dl col t (Some d)).
Proof.
  intros Hs Hin. unfold quarterly_lookup, chronological_label.
  destruct (descending_split _ _ Hs Hin) as [l1 [m [l2 [-> [Hm [H1 [H2 [S1 S2]]]]]]]].
  rewrite (previous_quarter_split l1 l2 m d Hm H1 H2 S2).
  rewrite (same_quarter_split l1 l2 m d Hm H1).
  rewrite (next_quarter_split l1 l2 m d Hm H1 H2 S1).
  rewrite rev_app_distr. simpl rev. rewrite <- app_assoc. simpl app.
  assert (Hfirst : forall x, In x (rev l2) -> date x <> d).
  { intros x Hx. apply in_rev in Hx. specialize (H2 x Hx). lia. }
  rewrite (lookup_before col (rev l2) (rev l1) m d Hm Hfirst).
  rewrite (lookup_same col (rev l2) (rev l1) m d Hm Hfirst).
  rewrite (lookup_after col (rev l2) (rev l1) m d Hm Hfirst).
  rewrite rev_involutive. repeat split; reflexivity.
Qed.

Lemma labelled_ext (g g' : string -> option Z -> cell) (info_df : list request_row) :
  (forall r, In r info_df -> g (ticker r) (rdate r) = g' (ticker r) (rdate r)) ->
  labelled g info_df = labelled g' info_df.
Proof.
  intros H. unfold labelled. apply map_ext_in. intros r Hr. now rewrite (H r Hr).
Qed.

(** ** Chronological order of a series supplied newest first *)

Lemma insert_latest (a : record) (l : list record) :
  (forall x, In x l -> date x < date a) -> insert_by_date a l = (l ++ [a])%list.
Proof.
  induction l as [|h l IH]; intros H; simpl; [reflexivity|].
  replace (date a <=? date h) with false
    by (symmetry; apply Z.leb_gt; apply H; now left).
  f_equal. apply IH. intros x Hx. apply H. now right.
Qed.

Lemma chronological_descending (l : list record) :
  strictly_descending (map date l) = true -> chronological l = rev l.
Proof.
  induction l as [|a l IH]; intros H; [reflexivity|].
  simpl map in H. pose proof (descending_head _ _ H) as Hhead.
  apply descending_tail in H. simpl. fold (chronological l).
  rewrite (IH H). apply insert_latest.
  intros x Hx. apply in_rev in Hx. apply Hhead. now apply in_map.
Qed.

Lemma last_n_skipn {A : Type} (n : nat) (l : list A) :
  last_n n l = skipn (length l - n) l.
Proof. unfold last_n. now rewrite firstn_rev, rev_involutive. Qed.

Lemma slice_from_neg_last_n {A : Type} (h : Z) (l : list A) :
  h < 0 -> slice_from_neg h l = last_n (Z.abs_nat h) l.
Proof.
  intros H. rewrite last_n_skipn. unfold slice_from_neg. f_equal. lia.
Qed.

(** On a series supplied newest first, the source's forward window is the
    window described in words. *)
Lemma window_forward (col : string) (horizon : Z) (daily : list record)
  (d : option Z) :
  0 <= horizon -> strictly_descending (map date daily) = true ->
  DailyAggTarget.window col horizon (rev daily) d =
  forward_window col horizon daily d.
Proof.
  intros Hh Hs. unfold DailyAggTarget.window, forward_window.
  replace (0 <=? horizon) with true by (symmetry; now apply Z.leb_le).
  destruct d as [x|].
  - rewrite chronological_descending by now apply descending_filter.
    rewrite <- filter_rev. reflexivity.
  - rewrite filter_none by reflexivity. unfold slice_to.
    now destruct (Z.to_nat horizon).
Qed.

Lemma window_backward (col : string) (horizon : Z) (daily : list record)
  (d : option Z) :
  horizon < 0 -> strictly_descending (map date daily) = true ->
  DailyAggTarget.window col horizon (rev daily) d =
  backward_window col horizon daily d.
Proof.
  intros Hh Hs. unfold DailyAggTarget.window, backward_window.
  replace (0 <=? horizon) with false by (symmetry; now apply Z.leb_gt).
  destruct d as [x|].
  - rewrite chronological_descending by now apply descending_filter.
    rewrite <- filter_rev. now apply slice_from_neg_last_n.
  - rewrite filter_none by reflexivity. unfold slice_from_neg. apply skipn_nil.
Qed.

(** When the source's window of every dated row with history is the window
    [w] described in words, the call labels the request table with the
    aggregate of [w]. *)
Lemma window_label_calculate
  (w : string -> Z -> list record -> option Z -> list cell)
  (dl : data_loader) (col : string) (horizon : Z) (foo : list cell -> cell)
  (info_df : list request_row) :
  info_df <> [] ->
  (forall r daily, In r info_df ->
     load_daily_data dl (ticker r) = Some daily ->
     exists x, rdate r = Some x /\
       DailyAggTarget.window col horizon (rev daily) (Some x) =
       w col horizon daily (Some x)) ->
  DailyAggTarget.calculate dl col horizon foo info_df =
  Some (labelled (window_label w dl col horizon foo) info_df).
Proof.
  intros Hne Hw. rewrite daily_calculate_labelled; [|assumption|].
  - f_equal. apply labelled_ext. intros r Hr. unfold window_label.
    destruct (load_daily_data dl (ticker r)) as [daily|] eqn:E.
    + destruct (Hw r daily Hr E) as [x [Hx Hwin]].
      rewrite Hx, (daily_label_window _ _ _ _ _ _ _ E). now rewrite Hwin.
    + now apply daily_label_absent.
  - intros r Hr. apply daily_lookup_dated. intros Hsome.
    destruct (load_daily_data dl (ticker r)) as [daily|] eqn:E; [|congruence].
    destruct (Hw r daily Hr E) as [x [Hx _]]. congruence.
Qed.

Lemma daily_calculate_one (dl : data_loader) (col : string) (horizon : Z)
  (foo : list cell -> cell) (t : string) (x : Z) :
  DailyAggTarget.calculate dl col horizon foo [mkRequest t (Some x)] =
  Some [mkResult t (Some x) (daily_label dl col horizon foo t (Some x))].
Proof.
  rewrite daily_calculate_labelled; [reflexivity | discriminate |].
  intros r [<- | []]. apply daily_lookup_dated. discriminate.
Qed.

Lemma forward_example (D : Z) (t : string) :
  DailyAggTarget.calculate (one_series (series_descending D)) "marketcap" 3
    np_mean [mkRequest t (Some D)] =
  Some [mkResult t (Some D) (num 20)].
Proof.
  rewrite daily_calculate_one.
  unfold daily_label, daily_lookup, DailyAggTarget.aggregate,
    DailyAggTarget.window. simpl.
  decide_order. reflexivity.
Qed.

Lemma backward_example (D : Z) (t : string) :
  DailyAggTarget.calculate (one_series (series_descending D)) "marketcap" (-3)
    np_mean [mkRequest t (Some (D + 3))] =
  Some [mkResult t (Some (D + 3)) (num 20)].
Proof.
  rewrite daily_calculate_one.
  unfold daily_label, daily_lookup, DailyAggTarget.aggregate,
    DailyAggTarget.window. simpl.
  decide_order. reflexivity.
Qed.



Lemma daily_calculate_rowwise (dl : data_loader) (col : string)
  (horizon : Z) (foo : list cell -> cell) (info_df : list request_row) :
  DailyAggTarget.calculate dl col horizon foo info_df =
  rowwise (daily_lookup dl col horizon foo) info_df.
Proof.
  destruct info_df as [|r0 rest]; [reflexivity|].
  set (l := r0 :: rest). unfold rowwise. fold l.
  destruct (mapM (fun r => v <- daily_lookup dl col horizon foo (ticker r) (rdate r) ;;
                           Some (mkResult (ticker r) (rdate r) v)) l) as [rows|] eqn:E.
  - assert (Hall : forall r, In r l ->
              daily_lookup dl col horizon foo (ticker r) (rdate r) <> None).
    { intros r Hr Hnone.
      rewrite (mapM_fails _ l r Hr) in E; [discriminate|]. now rewrite Hnone. }
    rewrite daily_calculate_labelled; [|discriminate | assumption].
    rewrite <- E. symmetry. unfold labelled. apply mapM_total.
    intros r Hr. specialize (Hall r Hr). unfold daily_label.
    now destruct (daily_lookup dl col horizon foo (ticker r) (rdate r)).
  - destruct (mapM_None_inv _ _ E) as [r [Hr Hnone]].
    apply (daily_calculate_fails dl col horizon foo l r Hr).
    now destruct (daily_lookup dl col horizon foo (ticker r) (rdate r)).
Qed.

(** A call that fails on a non-empty table fails on a row with a missing
    date whose entity has daily history. *)
Lemma daily_calculate_None (dl : data_loader) (col : string) (horizon : Z)
  (foo : list cell -> cell) (info_df : list request_row) :
  info_df <> [] ->
  DailyAggTarget.calculate dl col horizon foo info_df = None ->
  exists r, In r info_df /\ load_daily_data dl (ticker r) <> None /\
            rdate r = None.
Proof.
  intros Hne H. rewrite daily_calculate_rowwise in H. unfold rowwise in H.
  destruct info_df as [|r0 rest]; [congruence|].
  destruct (mapM_None_inv _ _ H) as [r [Hr Hnone]]. exists r.
  split; [assumption|]. apply (daily_lookup_None dl col horizon foo).
  now destruct (daily_lookup dl col horizon foo (ticker r) (rdate r)).
Qed.

(** ** Series supplied oldest first *)

Lemma ascending_tail (a : Z) (l : list Z) :
  strictly_ascending (a :: l) = true -> strictly_ascending l = true.
Proof.
  destruct l as [|b l]; [reflexivity|]. simpl.
  intros H. apply andb_true_iff in H. tauto.
Qed.

Lemma ascending_head (a : Z) (l : list Z) :
  strictly_ascending (a :: l) = true -> forall x, In x l -> a < x.
Proof.
  revert a. induction l as [|b l IH]; intros a H x Hx.
  - contradiction.
  - simpl in H. apply andb_true_iff in H. destruct H as [Hab Hl].
    apply Z.ltb_lt in Hab. destruct Hx as [<- | Hx]; [assumption|].
    specialize (IH b Hl x Hx). lia.
Qed.

Lemma ascending_cons (a : Z) (l : list Z) :
  (forall x, In x l -> a < x) -> strictly_ascending l = true ->
  strictly_ascending (a :: l) = true.
Proof.
  intros Ha Hl. destruct l as [|b l]; [reflexivity|].
  change (((a <? b) && strictly_ascending (b :: l)) = true).
  rewrite Hl, andb_true_r. apply Z.ltb_lt. apply Ha. now left.
Qed.






(** ** Rebasing through offset -1 *)

Lemma where_first_split {A : Type} (mask : A -> bool) (q : list A) (i : nat) :
  where_first mask q = Some i ->
  exists a m b, q = (a ++ m :: b)%list /\ mask m = true /\
                forall x, In x a -> mask x = false.
Proof.
  revert i. induction q as [|h q IH]; intros i H; simpl in H; [discriminate|].
  destruct (mask h) eqn:Hh.
  - exists [], h, q. repeat split; [assumption | intros x []].
  - destruct (where_first mask q) as [j|]; [|discriminate].
    destruct (IH j eq_refl) as [a [m [b [-> [Hm Ha]]]]].
    exists (h :: a), m, b. repeat split; [assumption|].
    intros x [<- | Hx]; [assumption | now apply Ha].
Qed.

Lemma lookup_Some_matched (col : string) (shift : Z) (q : list record)
  (d : option Z) :
  QuarterlyTarget.lookup col shift q d <> None ->
  exists i, where_first (QuarterlyTarget.date_is d) q = Some i.
Proof.
  unfold QuarterlyTarget.lookup. intros H.
  destruct (existsb (QuarterlyTarget.date_is d) q); [|congruence].
  destruct (where_first (QuarterlyTarget.date_is d) q) as [i|]; [|now elim H].
  now exists i.
Qed.





(** The first record of a series that carries a date, and the records of
    other dates before it. *)
Lemma first_match_split (q : list record) (d : Z) :
  In d (map date q) ->
  exists a m b, q = (a ++ m :: b)%list /\ date m = d /\
                forall x, In x a -> date x <> d.
Proof.
  induction q as [|h q IH]; intros H; [contradiction|].
  destruct (Z.eq_dec (date h) d) as [E | E].
  - exists [], h, q. repeat split; [assumption | intros x []].
  - destruct H as [H | H]; [contradiction|].
    destruct (IH H) as [a [m [b [-> [Hm Ha]]]]].
    exists (h :: a), m, b. repeat split; [assumption|].
    intros x [<- | Hx]; [assumption | now apply Ha].
Qed.

Lemma nth_error_nth_column (col : string) (q : list record) (n : nat) (m : record) :
  nth_error q n = Some m -> nth n (map (column col) q) CNull = column col m.
Proof.
  intros H. apply nth_error_split in H. destruct H as [a [b [-> <-]]].
  now apply nth_column_middle.
Qed.

(** ** The binarised difference *)

Lemma binarize_numeric (c : cell) :
  numeric_cell c = true ->
  QuarterlyBinDiffTarget.binarize c = Some (binarized c).
Proof. destruct c; simpl; intros H; try discriminate; reflexivity. Qed.

Lemma binarize_not_numeric (c : cell) :
  numeric_cell c = false -> QuarterlyBinDiffTarget.binarize c = None.
Proof. destruct c; simpl; intros H; try discriminate; reflexivity. Qed.

(** On a numeric difference column the binarised table is the difference
    table with every label binarised. *)
Lemma bin_diff_rows (sub : series_sub) (dl : data_loader) (col : string)
  (info_df : list request_row) (diff : list result_row) :
  QuarterlyDiffTarget.calculate sub dl col info_df = Some diff ->
  (forall r, In r diff -> numeric_cell (y r) = true) ->
  QuarterlyBinDiffTarget.calculate sub dl col info_df =
  Some (map (fun r => set_y r (binarized (y r))) diff).
Proof.
  intros H Hnum. unfold QuarterlyBinDiffTarget.calculate. rewrite H. simpl.
  apply mapM_total. intros r Hr. now rewrite (binarize_numeric _ (Hnum r Hr)).
Qed.

(** A label that is a date, a time difference or NaT makes the comparison
    with 0 raise. *)
Lemma bin_diff_fails (sub : series_sub) (dl : data_loader) (col : string)
  (info_df : list request_row) (diff : list result_row) (r : result_row) :
  QuarterlyDiffTarget.calculate sub dl col info_df = Some diff ->
  In r diff -> numeric_cell (y r) = false ->
  QuarterlyBinDiffTarget.calculate sub dl col info_df = None.
Proof.
  intros H Hr Hn. unfold QuarterlyBinDiffTarget.calculate. rewrite H. simpl.
  apply (mapM_fails _ _ r Hr). now rewrite (binarize_not_numeric _ Hn).
Qed.

Lemma binarized_positive (x : Q) : (0 < x)%Q -> binarized (CNum x) = CNum 1.
Proof.
  intros H. unfold binarized, QuarterlyBinDiffTarget.binarize.
  now rewrite (proj1 (Qgt_alt x 0) H).
Qed.

Lemma binarized_negative (x : Q) : (x < 0)%Q -> binarized (CNum x) = CNum 0.
Proof.
  intros H. unfold binarized, QuarterlyBinDiffTarget.binarize.
  now rewrite (proj1 (Qlt_alt x 0) H).
Qed.

Lemma binarized_zero (x : Q) : (x == 0)%Q -> binarized (CNum x) = CNum 0.
Proof.
  intros H. unfold binarized, QuarterlyBinDiffTarget.binarize.
  now rewrite (proj1 (Qeq_alt x 0) H).
Qed.

(** * The claims *)

(** C1.  The claim fails on the code at the offsets -1 and 1: on a series
    supplied in ascending date order the engine's reversal turns the series
    newest first, so adding -1 to the matched index reads the
    chronologically next quarter and adding 1 the previous one.  Quarters
    (0, 10), (1, 20), (2, 30), (3, 40) supplied oldest first, request date
    1: offset -1 returns 30 where the previous quarter's value is 10,
    offset 0 returns the matched quarter's 20, and offset 1 returns 10
    where the next quarter's value is 30. *)
Theorem QuarterlyTarget_offsets_oldest_first_evaluation :
  strictly_ascending (map date (load_quarterly_data oldest_first_provider "A")) = true /\
  In 1 (map date (load_quarterly_data oldest_first_provider "A")) /\
  QuarterlyTarget.calculate oldest_first_provider "revenue" (-1) (request_A 1) =
    Some [mkResult "A" (Some 1) (num 30)] /\
  QuarterlyTarget.calculate oldest_first_provider "revenue" 0 (request_A 1) =
    Some [mkResult "A" (Some 1) (num 20)] /\
  QuarterlyTarget.calculate oldest_first_provider "revenue" 1 (request_A 1) =
    Some [mkResult "A" (Some 1) (num 10)] /\
  labelled (chronological_label previous_quarter oldest_first_provider "revenue") (request_A 1) =
    [mkResult "A" (Some 1) (num 10)] /\
  labelled (chronological_label same_quarter oldest_first_provider "revenue") (request_A 1) =
    [mkResult "A" (Some 1) (num 20)] /\
  labelled (chronological_label next_quarter oldest_first_provider "revenue") (request_A 1) =
    [mkResult "A" (Some 1) (num 30)] /\
  QuarterlyTarget.calculate oldest_first_provider "revenue" (-1) (request_A 1) <>
    Some (labelled (chronological_label previous_quarter oldest_first_provider "revenue") (request_A 1)).
Proof.
  repeat split; try reflexivity.
  - simpl. tauto.
  - vm_compute. discriminate.
Qed.







(** C4.  For every request table containing a row whose date is absent
    from its entity's quarterly report dates, [QuarterlyTarget.calculate]
    fails and returns no table at all. *)
Theorem QuarterlyTarget_unmatched_date_fails (dl : data_loader) (col : string)
  (shift : Z) (info_df : list request_row) (r : request_row) :
  In r info_df ->
  (forall q, In q (load_quarterly_data dl (ticker r)) -> rdate r <> Some (date q)) ->
  QuarterlyTarget.calculate dl col shift info_df = None.
Proof.
  intros Hin Habsent. apply (quarterly_calculate_fails dl col shift info_df r Hin).
  unfold quarterly_lookup. apply lookup_unmatched.
  intros x Hx. apply Habsent. now apply in_rev.
Qed.

Lemma QuarterlyTarget_unmatched_date_fails_witness :
  (In (mkRequest "A" (Some 7)) unmatched_request /\
   (forall q, In q (load_quarterly_data newest_first_provider "A") ->
      Some 7 <> Some (date q))) /\
  QuarterlyTarget.calculate newest_first_provider "revenue" 0 unmatched_request = None.
Proof.
  assert (H1 : In (mkRequest "A" (Some 7)) unmatched_request)
    by (simpl; tauto).
  assert (H2 : forall q, In q (load_quarterly_data newest_first_provider "A") ->
                 Some 7 <> Some (date q)).
  { intros q Hq. simpl in Hq.
    destruct Hq as [<- | [<- | [<- | [<- | []]]]]; discriminate. }
  exact (conj (conj H1 H2)
           (QuarterlyTarget_unmatched_date_fails newest_first_provider "revenue" 0
              unmatched_request (mkRequest "A" (Some 7)) H1 H2)).
Defined.

(** C5.  Whenever [calculate] succeeds, the output table has exactly one
    row per request row, in the request table's positional order, for
    [QuarterlyTarget] and for [DailyAggTarget] alike: whatever partial
    tables the workers deliver and in whatever order, the merge phase
    returns the request rows, each with the label of the first partial row
    of its key, or null when no partial row carries the key. *)
Theorem calculate_keeps_request_rows :
  (forall (info_df : list request_row) (parts : list (list result_row))
          (out : list result_row),
     merge_results info_df parts = Some out ->
     out = map (fun l => mkResult (ticker l) (rdate l)
                  match find (fun r => key_eqb (request_key l) (result_key r))
                             (concat parts) with
                  | Some r => y r
                  | None => CNull
                  end) info_df /\
     length out = length info_df /\
     map result_key out = map request_key info_df) /\
  (forall (dl : data_loader) (col : string) (shift : Z)
          (info_df : list request_row) (out : list result_row),
     QuarterlyTarget.calculate dl col shift info_df = Some out ->
     length out = length info_df /\
     map result_key out = map request_key info_df) /\
  (forall (dl : data_loader) (col : string) (horizon : Z)
          (foo : list cell -> cell)
          (info_df : list request_row) (out : list result_row),
     DailyAggTarget.calculate dl col horizon foo info_df = Some out ->
     length out = length info_df /\
     map result_key out = map request_key info_df).
Proof.
  assert (Hlen : forall (info_df : list request_row) (out : list result_row),
            map result_key out = map request_key info_df ->
            length out = length info_df).
  { intros info_df out H. apply (f_equal (@length _)) in H.
    now rewrite !length_map in H. }
  repeat split.
  - unfold merge_results in H. destruct (pd_concat parts) as [rows|] eqn:E;
      simpl in H; [|discriminate].
    destruct parts as [|p ps]; [discriminate|]. injection E as <-.
    injection H as <-. apply pd_merge_left_dedup.
  - apply Hlen. now apply (merge_results_keys _ parts).
  - now apply (merge_results_keys _ parts).
  - apply Hlen. now apply (dispatch_and_merge_keys _ _ _ H).
  - now apply (dispatch_and_merge_keys _ _ _ H).
  - apply Hlen. now apply (dispatch_and_merge_keys _ _ _ H).
  - now apply (dispatch_and_merge_keys _ _ _ H).
Qed.

Lemma calculate_keeps_request_rows_witness :
  (QuarterlyTarget.calculate newest_first_provider "revenue" 1 mixed_request =
     Some (labelled (quarterly_label newest_first_provider "revenue" 1) mixed_request) /\
   DailyAggTarget.calculate partial_loader "marketcap" 2 np_mean mixed_request =
     Some (labelled (daily_label partial_loader "marketcap" 2 np_mean) mixed_request)) /\
  (length (labelled (quarterly_label newest_first_provider "revenue" 1) mixed_request) =
     length mixed_request /\
   map result_key (labelled (quarterly_label newest_first_provider "revenue" 1) mixed_request) =
     map request_key mixed_request) /\
  (length (labelled (daily_label partial_loader "marketcap" 2 np_mean) mixed_request) =
     length mixed_request /\
   map result_key (labelled (daily_label partial_loader "marketcap" 2 np_mean) mixed_request) =
     map request_key mixed_request).
Proof.
  assert (H1 : QuarterlyTarget.calculate newest_first_provider "revenue" 1 mixed_request =
     Some (labelled (quarterly_label newest_first_provider "revenue" 1) mixed_request))
    by reflexivity.
  assert (H2 : DailyAggTarget.calculate partial_loader "marketcap" 2 np_mean mixed_request =
     Some (labelled (daily_label partial_loader "marketcap" 2 np_mean) mixed_request))
    by reflexivity.
  exact (conj (conj H1 H2)
          (conj (proj1 (proj2 calculate_keeps_request_rows) _ _ _ _ _ H1)
                (proj2 (proj2 calculate_keeps_request_rows) _ _ _ _ _ _ H2))).
Defined.




(** C7.  For every entity for which the daily-data provider returns no
    history, [DailyAggTarget.calculate] returns a null label for every date
    requested for that entity, a missing date included, and the entity
    raises no error: as long as the rows of the entities with history carry
    a date the call returns a table, and a call that fails fails on a
    dateless row of another entity, one with history.  The rows of the
    other entities carry the aggregate of their own window, the same as
    under any provider that differs on the missing entity only. *)
Theorem DailyAggTarget_missing_history (dl : data_loader) (col : string)
  (horizon : Z) (foo : list cell -> cell) (info_df : list request_row)
  (t : string) :
  load_daily_data dl t = None ->
  In t (map ticker info_df) ->
  ((forall r, In r info_df ->
      load_daily_data dl (ticker r) <> None -> rdate r <> None) ->
   exists out,
     DailyAggTarget.calculate dl col horizon foo info_df = Some out /\
     (forall k r, nth_error info_df k = Some r -> ticker r = t ->
        nth_error out k = Some (mkResult t (rdate r) CNull)) /\
     (forall k r daily, nth_error info_df k = Some r ->
        load_daily_data dl (ticker r) = Some daily ->
        nth_error out k =
        Some (mkResult (ticker r) (rdate r)
                (foo (DailyAggTarget.window col horizon (rev daily) (rdate r))))) /\
     (forall dl' out',
        (forall t', t' <> t -> load_daily_data dl' t' = load_daily_data dl t') ->
        DailyAggTarget.calculate dl' col horizon foo info_df = Some out' ->
        forall k r, nth_error info_df k = Some r -> ticker r <> t ->
        nth_error out' k = nth_error out k)) /\
  (DailyAggTarget.calculate dl col horizon foo info_df = None ->
   exists r, In r info_df /\ ticker r <> t /\
             load_daily_data dl (ticker r) <> None /\ rdate r = None).
Proof.
  intros Hnone Hin.
  assert (Hne : info_df <> []) by (destruct info_df; [contradiction | discriminate]).
  split.
  - intros Hdated.
    assert (Hall : forall r, In r info_df ->
              daily_lookup dl col horizon foo (ticker r) (rdate r) <> None).
    { intros r Hr. apply daily_lookup_dated. now apply Hdated. }
    exists (labelled (daily_label dl col horizon foo) info_df).
    split; [now apply daily_calculate_labelled|].
    split; [|split].
    + intros k r Hk Ht. rewrite (labelled_nth _ _ _ _ Hk), Ht.
      now rewrite daily_label_absent.
    + intros k r daily Hk Hd. rewrite (labelled_nth _ _ _ _ Hk).
      assert (Hx : rdate r <> None).
      { apply Hdated; [exact (nth_error_In _ _ Hk) | congruence]. }
      destruct (rdate r) as [x|]; [|congruence].
      now rewrite (daily_label_window _ _ _ _ _ _ _ Hd).
    + intros dl' out' Hagree Hout k r Hk Ht.
      destruct (daily_calculate_inv _ _ _ _ _ _ Hout) as [_ [_ ->]].
      rewrite !(labelled_nth _ _ _ _ Hk). do 2 f_equal.
      unfold daily_label, daily_lookup. now rewrite (Hagree _ Ht).
  - intros Hfail.
    destruct (daily_calculate_None _ _ _ _ _ Hne Hfail) as [r [Hr [Hh Hd]]].
    exists r. repeat split; try assumption.
    intros E. rewrite E in Hh. contradiction.
Qed.

Lemma DailyAggTarget_missing_history_witness :
  (load_daily_data partial_loader "AAA" = None /\
   In "AAA" (map ticker absent_request) /\
   (forall r, In r absent_request ->
      load_daily_data partial_loader (ticker r) <> None -> rdate r <> None)) /\
  exists out,
    DailyAggTarget.calculate partial_loader "marketcap" 2 np_mean absent_request = Some out /\
    (forall k r, nth_error absent_request k = Some r -> ticker r = "AAA" ->
       nth_error out k = Some (mkResult "AAA" (rdate r) CNull)) /\
    (forall k r daily, nth_error absent_request k = Some r ->
       load_daily_data partial_loader (ticker r) = Some daily ->
       nth_error out k =
       Some (mkResult (ticker r) (rdate r)
               (np_mean (DailyAggTarget.window "marketcap" 2 (rev daily) (rdate r))))) /\
    (forall dl' out',
       (forall t', t' <> "AAA" ->
          load_daily_data dl' t' = load_daily_data partial_loader t') ->
       DailyAggTarget.calculate dl' "marketcap" 2 np_mean absent_request = Some out' ->
       forall k r, nth_error absent_request k = Some r -> ticker r <> "AAA" ->
       nth_error out' k = nth_error out k).
Proof.
  assert (H1 : load_daily_data partial_loader "AAA" = None) by reflexivity.
  assert (H2 : In "AAA" (map ticker absent_request)) by (simpl; tauto).
  assert (H3 : forall r, In r absent_request ->
            load_daily_data partial_loader (ticker r) <> None -> rdate r <> None).
  { intros r [<- | [<- | [<- | []]]] H; simpl in *; congruence. }
  exact (conj (conj H1 (conj H2 H3))
           (proj1 (DailyAggTarget_missing_history partial_loader "marketcap" 2
                     np_mean absent_request "AAA" H1 H2) H3)).
Defined.

(** C8.  For every matched request date the target index is the index of
    the exact match plus the offset: the record carrying the request date
    is preceded in the reversed series by records of other dates, their
    number is the exact-match index, and the label is the column value of
    the record at that index plus the offset when it lies in [0, length),
    and null, with no error raised, whenever it falls outside, however
    large the offset. *)
Theorem QuarterlyTarget_offset_out_of_range (dl : data_loader) (col : string)
  (shift : Z) (info_df : list request_row) :
  info_df <> [] ->
  (forall r, In r info_df ->
     exists q, In q (load_quarterly_data dl (ticker r)) /\
               rdate r = Some (date q)) ->
  exists out,
    QuarterlyTarget.calculate dl col shift info_df = Some out /\
    forall k r, nth_error info_df k = Some r ->
      exists a m b,
        rev (load_quarterly_data dl (ticker r)) = (a ++ m :: b)%list /\
        rdate r = Some (date m) /\
        (forall x, In x a -> date x <> date m) /\
        let idx := Z.of_nat (length a) + shift in
        let n := Z.of_nat (length (load_quarterly_data dl (ticker r))) in
        (0 <= idx < n ->
           exists q,
             nth_error (rev (load_quarterly_data dl (ticker r))) (Z.to_nat idx) =
               Some q /\
             nth_error out k =
               Some (mkResult (ticker r) (rdate r) (column col q))) /\
        (idx < 0 \/ n <= idx ->
           nth_error out k = Some (mkResult (ticker r) (rdate r) CNull)).
Proof.
  intros Hne Hmatch.
  assert (Hsplit : forall r, In r info_df ->
    exists a m b,
      rev (load_quarterly_data dl (ticker r)) = (a ++ m :: b)%list /\
      rdate r = Some (date m) /\
      (forall x, In x a -> date x <> date m)).
  { intros r Hr. destruct (Hmatch r Hr) as [q [Hq Hd]].
    destruct (first_match_split (rev (load_quarterly_data dl (ticker r))) (date q))
      as [a [m [b [E [Hm Ha]]]]].
    - apply in_map. now apply in_rev in Hq.
    - exists a, m, b. rewrite Hm. repeat split; assumption. }
  assert (Hlook : forall r a m b,
    rev (load_quarterly_data dl (ticker r)) = (a ++ m :: b)%list ->
    rdate r = Some (date m) ->
    (forall x, In x a -> date x <> date m) ->
    quarterly_lookup dl col shift (ticker r) (rdate r) =
    Some (if (0 <=? Z.of_nat (length a) + shift) &&
             (Z.of_nat (length a) + shift <? Z.of_nat (length (a ++ m :: b)))
          then nth (Z.to_nat (Z.of_nat (length a) + shift))
                 (map (column col) (a ++ m :: b)) CNull
          else CNull)).
  { intros r a m b E Hd Ha. unfold quarterly_lookup. rewrite E, Hd.
    apply lookup_matched. now apply match_position. }
  exists (labelled (quarterly_label dl col shift) info_df). split.
  - apply quarterly_calculate_labelled; [assumption|].
    intros r Hr. destruct (Hsplit r Hr) as [a [m [b [E [Hd Ha]]]]].
    rewrite (Hlook r a m b E Hd Ha). discriminate.
  - intros k r Hk.
    destruct (Hsplit r (nth_error_In _ _ Hk)) as [a [m [b [E [Hd Ha]]]]].
    exists a, m, b. split; [exact E|]. split; [exact Hd|]. split; [exact Ha|].
    intros idx n. rewrite (labelled_nth _ _ _ _ Hk).
    unfold quarterly_label. rewrite (Hlook r a m b E Hd Ha). fold idx.
    assert (Hlen : Z.of_nat (length (a ++ m :: b)) = n).
    { unfold n. now rewrite <- E, length_rev. }
    rewrite Hlen. split; intros Hrange.
    + rewrite in_range_true by assumption. rewrite E.
      destruct (nth_error (a ++ m :: b) (Z.to_nat idx)) as [q|] eqn:N.
      * exists q. split; [reflexivity|].
        now rewrite (nth_error_nth_column col _ _ q N).
      * apply nth_error_None in N. lia.
    + now rewrite in_range_false.
Qed.

Lemma QuarterlyTarget_offset_out_of_range_witness :
  (request_A 3 <> [] /\
   (forall r, In r (request_A 3) ->
      exists q, In q (load_quarterly_data newest_first_provider (ticker r)) /\
                rdate r = Some (date q))) /\
  exists out,
    QuarterlyTarget.calculate newest_first_provider "revenue" 1 (request_A 3) = Some out /\
    forall k r, nth_error (request_A 3) k = Some r ->
      exists a m b,
        rev (load_quarterly_data newest_first_provider (ticker r)) = (a ++ m :: b)%list /\
        rdate r = Some (date m) /\
        (forall x, In x a -> date x <> date m) /\
        let idx := Z.of_nat (length a) + 1 in
        let n := Z.of_nat (length (load_quarterly_data newest_first_provider (ticker r))) in
        (0 <= idx < n ->
           exists q,
             nth_error (rev (load_quarterly_data newest_first_provider (ticker r)))
               (Z.to_nat idx) = Some q /\
             nth_error out k =
               Some (mkResult (ticker r) (rdate r) (column "revenue" q))) /\
        (idx < 0 \/ n <= idx ->
           nth_error out k = Some (mkResult (ticker r) (rdate r) CNull)).
Proof.
  assert (H1 : request_A 3 <> []) by discriminate.
  assert (H2 : forall r, In r (request_A 3) ->
      exists q, In q (load_quarterly_data newest_first_provider (ticker r)) /\
                rdate r = Some (date q)).
  { intros r [<- | []]. exists (sample 3 40). split; [simpl; tauto | reflexivity]. }
  exact (conj (conj H1 H2)
           (QuarterlyTarget_offset_out_of_range newest_first_provider "revenue" 1
              (request_A 3) H1 H2)).
Defined.

(** C9.  For every request row of a numeric difference column,
    [QuarterlyBinDiffTarget.calculate] returns 1.0 when the un-normalized
    quarterly difference is positive and 0.0 when it is negative, and
    leaves the label null when the difference is null; with quarterly
    values 10, 15, 10 the differences +5, -5 and null become 1.0, 0.0 and
    null.  When the difference column holds a date, a time difference or
    NaT, as on a date column, the comparison with 0 raises and no table is
    returned. *)
Theorem QuarterlyBinDiffTarget_sign :
  (forall (sub : series_sub) (dl : data_loader) (col : string)
          (info_df : list request_row) (diff : list result_row),
     QuarterlyDiffTarget.calculate sub dl col info_df = Some diff ->
     (forall r, In r diff -> numeric_cell (y r) = true) ->
     exists out,
       QuarterlyBinDiffTarget.calculate sub dl col info_df = Some out /\
       length out = length diff /\
       forall k r, nth_error diff k = Some r ->
         exists r', nth_error out k = Some r' /\
           result_key r' = result_key r /\
           (forall x, y r = CNum x -> (0 < x)%Q -> y r' = CNum 1) /\
           (forall x, y r = CNum x -> (x < 0)%Q -> y r' = CNum 0) /\
           (y r = CNull -> y r' = CNull)) /\
  (forall (sub : series_sub) (dl : data_loader) (col : string)
          (info_df : list request_row) (diff : list result_row) (r : result_row),
     QuarterlyDiffTarget.calculate sub dl col info_df = Some diff ->
     In r diff -> numeric_cell (y r) = false ->
     QuarterlyBinDiffTarget.calculate sub dl col info_df = None) /\
  QuarterlyDiffTarget.calculate whole_sub up_down_provider "revenue" up_down_request =
    Some [mkResult "A" (Some 1) (num 5); mkResult "A" (Some 2) (num (-5));
          mkResult "A" (Some 0) CNull] /\
  QuarterlyBinDiffTarget.calculate whole_sub up_down_provider "revenue" up_down_request =
    Some [mkResult "A" (Some 1) (CNum 1); mkResult "A" (Some 2) (CNum 0);
          mkResult "A" (Some 0) CNull] /\
  QuarterlyDiffTarget.calculate whole_sub up_down_provider "date" (request_A 1) =
    Some [mkResult "A" (Some 1) (CDelta 1)] /\
  QuarterlyBinDiffTarget.calculate whole_sub up_down_provider "date" (request_A 1) = None.
Proof.
  split; [|split; [|repeat split; reflexivity]].
  - intros sub dl col info_df diff H Hnum.
    exists (map (fun r => set_y r (binarized (y r))) diff).
    split; [now apply bin_diff_rows|]. split; [apply length_map|].
    intros k r Hk. exists (set_y r (binarized (y r))).
    rewrite nth_error_map, Hk. simpl. repeat split.
    + intros x -> Hx. now apply binarized_positive.
    + intros x -> Hx. now apply binarized_negative.
    + intros ->. reflexivity.
  - intros sub dl col info_df diff r H Hr Hn.
    exact (bin_diff_fails sub dl col info_df diff r H Hr Hn).
Qed.

Lemma QuarterlyBinDiffTarget_sign_witness :
  (QuarterlyDiffTarget.calculate whole_sub up_down_provider "revenue" (request_A 1) =
     Some [mkResult "A" (Some 1) (num 5)] /\
   (forall r, In r [mkResult "A" (Some 1) (num 5)] -> numeric_cell (y r) = true)) /\
  exists out,
    QuarterlyBinDiffTarget.calculate whole_sub up_down_provider "revenue" (request_A 1) =
      Some out /\
    length out = length [mkResult "A" (Some 1) (num 5)] /\
    forall k r, nth_error [mkResult "A" (Some 1) (num 5)] k = Some r ->
      exists r', nth_error out k = Some r' /\
        result_key r' = result_key r /\
        (forall x, y r = CNum x -> (0 < x)%Q -> y r' = CNum 1) /\
        (forall x, y r = CNum x -> (x < 0)%Q -> y r' = CNum 0) /\
        (y r = CNull -> y r' = CNull).
Proof.
  assert (H : QuarterlyDiffTarget.calculate whole_sub up_down_provider "revenue"
                (request_A 1) = Some [mkResult "A" (Some 1) (num 5)])
    by reflexivity.
  assert (Hn : forall r, In r [mkResult "A" (Some 1) (num 5)] ->
                 numeric_cell (y r) = true).
  { intros r [<- | []]. reflexivity. }
  exact (conj (conj H Hn)
           (proj1 QuarterlyBinDiffTarget_sign whole_sub up_down_provider "revenue"
              (request_A 1) _ H Hn)).
Defined.

(** C10.  For every request row of a numeric difference column whose
    un-normalized quarterly difference is exactly zero,
    [QuarterlyBinDiffTarget.calculate] returns 0.0: the sign test is
    strictly greater than zero, so no change is classified with the
    decreases. *)
Theorem QuarterlyBinDiffTarget_zero :
  (forall (sub : series_sub) (dl : data_loader) (col : string)
          (info_df : list request_row) (diff : list result_row),
     QuarterlyDiffTarget.calculate sub dl col info_df = Some diff ->
     (forall r, In r diff -> numeric_cell (y r) = true) ->
     exists out,
       QuarterlyBinDiffTarget.calculate sub dl col info_df = Some out /\
       forall k r x, nth_error diff k = Some r ->
         y r = CNum x -> (x == 0)%Q ->
         exists r', nth_error out k = Some r' /\
           result_key r' = result_key r /\ y r' = CNum 0) /\
  QuarterlyDiffTarget.calculate whole_sub flat_provider "revenue" (request_A 1) =
    Some [mkResult "A" (Some 1) (num 0)] /\
  QuarterlyBinDiffTarget.calculate whole_sub flat_provider "revenue" (request_A 1) =
    Some [mkResult "A" (Some 1) (CNum 0)].
Proof.
  split; [|split; reflexivity].
  intros sub dl col info_df diff H Hnum.
  exists (map (fun r => set_y r (binarized (y r))) diff).
  split; [now apply bin_diff_rows|].
  intros k r x Hk Hy Hx. exists (set_y r (binarized (y r))).
  rewrite nth_error_map, Hk. simpl. repeat split.
  rewrite Hy. now apply binarized_zero.
Qed.

Lemma QuarterlyBinDiffTarget_zero_witness :
  (QuarterlyDiffTarget.calculate whole_sub flat_provider "revenue" (request_A 1) =
     Some [mkResult "A" (Some 1) (num 0)] /\
   (forall r, In r [mkResult "A" (Some 1) (num 0)] -> numeric_cell (y r) = true)) /\
  exists out,
    QuarterlyBinDiffTarget.calculate whole_sub flat_provider "revenue" (request_A 1) =
      Some out /\
    forall k r x, nth_error [mkResult "A" (Some 1) (num 0)] k = Some r ->
      y r = CNum x -> (x == 0)%Q ->
      exists r', nth_error out k = Some r' /\
        result_key r' = result_key r /\ y r' = CNum 0.
Proof.
  assert (H : QuarterlyDiffTarget.calculate whole_sub flat_provider "revenue"
                (request_A 1) = Some [mkResult "A" (Some 1) (num 0)])
    by reflexivity.
  assert (Hn : forall r, In r [mkResult "A" (Some 1) (num 0)] ->
                 numeric_cell (y r) = true).
  { intros r [<- | []]. reflexivity. }
  exact (conj (conj H Hn)
           (proj1 QuarterlyBinDiffTarget_zero whole_sub flat_provider "revenue"
              (request_A 1) _ H Hn)).
Defined.

(** * Further properties *)

(** ** Grouping *)

Lemma insert_sorted_NoDup (k : string) (l : list string) :
  ~ In k l -> NoDup l -> NoDup (insert_sorted k l).
Proof.
  induction l as [|h l IH]; intros Hk Hl; simpl.
  - constructor; [intros [] | constructor].
  - destruct (String.leb k h).
    + now constructor.
    + inversion Hl as [|? ? Hh Hl']; subst. constructor.
      * rewrite insert_sorted_In. intros [-> | Hin]; [|contradiction].
        apply Hk. now left.
      * apply IH; [|assumption]. intros Hin. apply Hk. now right.
Qed.

Lemma sort_keys_NoDup (l : list string) : NoDup l -> NoDup (sort_keys l).
Proof.
  induction l as [|h l IH]; intros H; simpl; [constructor|].
  inversion H as [|? ? Hh Hl]; subst. apply insert_sorted_NoDup.
  - now rewrite sort_keys_In.
  - now apply IH.
Qed.

Lemma insert_sorted_Sorted (k : string) (l : list string) :
  Sorted ticker_le l -> Sorted ticker_le (insert_sorted k l).
Proof.
  induction l as [|h l IH]; intros H; simpl.
  - repeat constructor.
  - destruct (String.leb k h) eqn:E.
    + constructor; [assumption | constructor; exact E].
    + inversion H as [|? ? Hl Hh]; subst.
      assert (Hhk : ticker_le h k).
      { destruct (String.leb_total k h) as [F | F]; [congruence | exact F]. }
      constructor; [now apply IH|].
      destruct l as [|h' l]; simpl.
      * constructor. exact Hhk.
      * destruct (String.leb k h'); constructor; [exact Hhk|].
        now inversion Hh.
Qed.

Lemma sort_keys_Sorted (l : list string) : Sorted ticker_le (sort_keys l).
Proof.
  induction l as [|h l IH]; simpl; [constructor | now apply insert_sorted_Sorted].
Qed.

Lemma dates_of_cons (t : string) (r : request_row) (l : list request_row) :
  dates_of t (r :: l) =
  if String.eqb (ticker r) t then rdate r :: dates_of t l else dates_of t l.
Proof. unfold dates_of. simpl. now destruct (String.eqb (ticker r) t). Qed.

Lemma group_sizes_cons (keys : list string) (r : request_row)
  (l : list request_row) :
  list_sum (map (fun t => length (dates_of t (r :: l))) keys) =
  (count_occ string_dec keys (ticker r) +
   list_sum (map (fun t => length (dates_of t l)) keys))%nat.
Proof.
  induction keys as [|k keys IH]; simpl; [reflexivity|].
  rewrite IH, dates_of_cons.
  destruct (string_dec k (ticker r)) as [E | E].
  - subst k. rewrite String.eqb_refl. simpl. lia.
  - replace (String.eqb (ticker r) k) with false; [lia|].
    symmetry. apply String.eqb_neq. congruence.
Qed.

Lemma group_sizes (keys : list string) (l : list request_row) :
  NoDup keys -> (forall r, In r l -> In (ticker r) keys) ->
  list_sum (map (fun t => length (dates_of t l)) keys) = length l.
Proof.
  intros Hnd. induction l as [|r l IH]; intros Hcov.
  - clear Hnd Hcov. induction keys as [|k keys IHk]; [reflexivity | exact IHk].
  - rewrite group_sizes_cons, IH by (intros x Hx; apply Hcov; now right).
    assert (Hone : count_occ string_dec keys (ticker r) = 1%nat).
    { apply NoDup_count_occ'; [assumption | apply Hcov; now left]. }
    rewrite Hone. reflexivity.
Qed.

(** X1.  The work items of [groupby('ticker')] partition the request
    table: their tickers are pairwise distinct and in ascending order, no
    item is empty, an item holds the dates of its ticker's rows in request
    order, and together they hold as many dates as the table has rows. *)
Theorem groupby_ticker_partition (info_df : list request_row) :
  NoDup (map fst (groupby_ticker info_df)) /\
  Sorted ticker_le (map fst (groupby_ticker info_df)) /\
  (forall t dates, In (t, dates) (groupby_ticker info_df) ->
     dates <> [] /\
     dates = map rdate (filter (fun r => String.eqb (ticker r) t) info_df) /\
     forall d, In d dates <-> In (mkRequest t d) info_df) /\
  length (concat (map snd (groupby_ticker info_df))) = length info_df.
Proof.
  assert (Hfst : map fst (groupby_ticker info_df) =
                 sort_keys (nodup string_dec (map ticker info_df))).
  { unfold groupby_ticker. rewrite map_map. simpl. apply map_id. }
  split; [|split; [|split]].
  - rewrite Hfst. apply sort_keys_NoDup, NoDup_nodup.
  - rewrite Hfst. apply sort_keys_Sorted.
  - intros t dates H. unfold groupby_ticker in H. apply in_map_iff in H.
    destruct H as [k [E Hk]]. injection E as -> <-.
    split; [|split; [reflexivity|]].
    + apply group_keys_In in Hk. apply in_map_iff in Hk.
      destruct Hk as [r [Hr Hin]]. intros Hempty.
      assert (Hd : In (rdate r) (map rdate
                 (filter (fun r0 => String.eqb (ticker r0) t) info_df))).
      { apply in_map, filter_In. split; [assumption|].
        rewrite Hr. apply String.eqb_refl. }
      rewrite Hempty in Hd. contradiction.
    + intros d. split.
      * apply (dates_of_inv t d info_df).
      * intros Hin. exact (dates_of_In (mkRequest t d) info_df Hin).
  - rewrite length_concat. unfold groupby_ticker. rewrite !map_map. simpl.
    rewrite <- (group_sizes (sort_keys (nodup string_dec (map ticker info_df)))
                  info_df).
    + f_equal.
    + apply sort_keys_NoDup, NoDup_nodup.
    + intros r Hr. apply group_keys_In. now apply in_map.
Qed.

(** ** drop_duplicates *)

Lemma seen_key_In (k : key) (seen : list key) :
  existsb (key_eqb k) seen = true <-> In k seen.
Proof.
  rewrite existsb_exists. split.
  - intros [x [Hin Heq]]. apply key_eqb_eq in Heq. now subst.
  - intros Hin. exists k. split; [assumption | apply key_eqb_refl].
Qed.

Lemma drop_duplicates_seen_keys (rows : list result_row) :
  forall seen k,
    In k (map result_key (drop_duplicates_seen seen rows)) <->
    In k (map result_key rows) /\ ~ In k seen.
Proof.
  induction rows as [|r rows IH]; intros seen k; simpl.
  - tauto.
  - destruct (existsb (key_eqb (result_key r)) seen) eqn:E.
    + rewrite IH. apply seen_key_In in E. split.
      * intros [H1 H2]. tauto.
      * intros [[<- | H1] H2]; [contradiction | tauto].
    + simpl. rewrite IH. simpl.
      assert (Hr : ~ In (result_key r) seen).
      { intros H. apply seen_key_In in H. congruence. }
      split.
      * intros [<- | [H1 H2]]; [tauto|]. split; [tauto|]. intros H. apply H2. now right.
      * intros [[<- | H1] H2]; [now left|].
        destruct (key_eqb (result_key r) k) eqn:F.
        -- apply key_eqb_eq in F. now left.
        -- right. split; [assumption|]. intros [H | H]; [|contradiction].
           subst k. rewrite key_eqb_refl in F. discriminate.
Qed.

Lemma drop_duplicates_seen_NoDup (rows : list result_row) :
  forall seen, NoDup (map result_key (drop_duplicates_seen seen rows)).
Proof.
  induction rows as [|r rows IH]; intros seen; simpl; [constructor|].
  destruct (existsb (key_eqb (result_key r)) seen); [apply IH|].
  simpl. constructor; [|apply IH].
  rewrite drop_duplicates_seen_keys. intros [_ H]. apply H. now left.
Qed.

Lemma drop_duplicates_seen_fixed (rows : list result_row) :
  forall seen,
    NoDup (map result_key rows) ->
    (forall k, In k (map result_key rows) -> ~ In k seen) ->
    drop_duplicates_seen seen rows = rows.
Proof.
  induction rows as [|r rows IH]; intros seen Hnd Hseen; simpl; [reflexivity|].
  simpl in Hnd. inversion Hnd as [|? ? Hr Hnd']; subst.
  replace (existsb (key_eqb (result_key r)) seen) with false.
  - f_equal. apply IH; [assumption|].
    intros k Hk [<- | Hin]; [contradiction|].
    apply (Hseen k); [now right | assumption].
  - symmetry. apply not_true_is_false. intros E. apply seen_key_In in E.
    apply (Hseen (result_key r)); [now left | assumption].
Qed.

Lemma find_hd_filter {A : Type} (f : A -> bool) (l : list A) :
  find f l = hd_error (filter f l).
Proof.
  induction l as [|a l IH]; simpl; [reflexivity|]. now destruct (f a).
Qed.

(** X2.  [drop_duplicates(['ticker', 'date'])] leaves pairwise distinct
    keys, keeps for every key the first row that carried it and loses no
    key, and applying it twice changes nothing. *)
Theorem drop_duplicates_first_seen (rows : list result_row) :
  NoDup (map result_key (drop_duplicates rows)) /\
  (forall k, find (fun r => key_eqb k (result_key r)) (drop_duplicates rows) =
             find (fun r => key_eqb k (result_key r)) rows) /\
  (forall k, In k (map result_key (drop_duplicates rows)) <->
             In k (map result_key rows)) /\
  drop_duplicates (drop_duplicates rows) = drop_duplicates rows.
Proof.
  split; [|split; [|split]].
  - apply drop_duplicates_seen_NoDup.
  - intros k. rewrite find_hd_filter, drop_duplicates_filter.
    now destruct (find (fun r => key_eqb k (result_key r)) rows).
  - intros k. unfold drop_duplicates. rewrite drop_duplicates_seen_keys.
    simpl. tauto.
  - unfold drop_duplicates at 1. apply drop_duplicates_seen_fixed.
    + apply drop_duplicates_seen_NoDup.
    + intros k _ [].
Qed.

(** ** The merge phase and the order of the partial tables *)

Lemma concat_In_perm (parts parts' : list (list result_row)) (r : result_row) :
  Permutation parts parts' -> In r (concat parts) -> In r (concat parts').
Proof.
  intros Hp Hin. apply in_concat in Hin. destruct Hin as [p [Hp1 Hp2]].
  apply in_concat. exists p. split; [|assumption].
  now apply (Permutation_in _ Hp).
Qed.

(** X3.  The merge phase does not depend on the order in which the partial
    tables arrive, provided rows of the same key carry the same label: any
    permutation of the partial tables merges to the same table. *)
Theorem merge_results_any_order (info_df : list request_row)
  (parts parts' : list (list result_row)) :
  Permutation parts parts' ->
  (forall r r', In r (concat parts) -> In r' (concat parts) ->
     result_key r = result_key r' -> y r = y r') ->
  merge_results info_df parts = merge_results info_df parts'.
Proof.
  intros Hp Hsame. unfold merge_results.
  destruct parts as [|p ps].
  - apply Permutation_nil in Hp. subst. reflexivity.
  - destruct parts' as [|p' ps'].
    + apply Permutation_sym, Permutation_nil in Hp. discriminate.
    + rewrite !pd_concat_nonempty by discriminate. unfold bind.
      rewrite !pd_merge_left_dedup. f_equal. apply map_ext. intros l. f_equal.
      destruct (find (fun r => key_eqb (request_key l) (result_key r))
                  (concat (p :: ps))) as [r|] eqn:F;
      destruct (find (fun r => key_eqb (request_key l) (result_key r))
                  (concat (p' :: ps'))) as [r'|] eqn:F'.
      * apply find_some in F, F'. destruct F as [Hin Hk], F' as [Hin' Hk'].
        apply key_eqb_eq in Hk, Hk'. apply Hsame; [assumption | | congruence].
        apply (concat_In_perm _ _ r' (Permutation_sym Hp) Hin').
      * apply find_some in F. destruct F as [Hin Hk].
        pose proof (find_none _ _ F' r (concat_In_perm _ _ r Hp Hin)) as Hc.
        simpl in Hc. congruence.
      * apply find_some in F'. destruct F' as [Hin' Hk'].
        pose proof (find_none _ _ F r'
                      (concat_In_perm _ _ r' (Permutation_sym Hp) Hin')) as Hc.
        simpl in Hc. congruence.
      * reflexivity.
Qed.

Lemma merge_results_any_order_witness :
  (Permutation partial_tables partial_tables_swapped /\
   (forall r r', In r (concat partial_tables) -> In r' (concat partial_tables) ->
      result_key r = result_key r' -> y r = y r')) /\
  merge_results two_ticker_request partial_tables =
  merge_results two_ticker_request partial_tables_swapped.
Proof.
  assert (H1 : Permutation partial_tables partial_tables_swapped)
    by apply perm_swap.
  assert (H2 : forall r r', In r (concat partial_tables) ->
                 In r' (concat partial_tables) ->
                 result_key r = result_key r' -> y r = y r').
  { intros r r' [<- | [<- | []]] [<- | [<- | []]] E;
      try reflexivity; discriminate. }
  exact (conj (conj H1 H2)
           (merge_results_any_order two_ticker_request partial_tables
              partial_tables_swapped H1 H2)).
Defined.

(** ** The calculators as row-by-row loops *)

Lemma quarterly_calculate_rowwise (dl : data_loader) (col : string)
  (shift : Z) (info_df : list request_row) :
  QuarterlyTarget.calculate dl col shift info_df =
  rowwise (quarterly_lookup dl col shift) info_df.
Proof.
  destruct info_df as [|r0 rest]; [reflexivity|].
  set (l := r0 :: rest). unfold rowwise. fold l.
  destruct (mapM (fun r => v <- quarterly_lookup dl col shift (ticker r) (rdate r) ;;
                           Some (mkResult (ticker r) (rdate r) v)) l) as [rows|] eqn:E.
  - assert (Hall : forall r, In r l ->
              quarterly_lookup dl col shift (ticker r) (rdate r) <> None).
    { intros r Hr Hnone.
      rewrite (mapM_fails _ l r Hr) in E; [discriminate|]. now rewrite Hnone. }
    rewrite quarterly_calculate_labelled; [|discriminate | assumption].
    rewrite <- E. symmetry. unfold labelled. apply mapM_total.
    intros r Hr. specialize (Hall r Hr). unfold quarterly_label.
    now destruct (quarterly_lookup dl col shift (ticker r) (rdate r)).
  - destruct (mapM_None_inv _ _ E) as [r [Hr Hnone]].
    apply (quarterly_calculate_fails dl col shift l r Hr).
    now destruct (quarterly_lookup dl col shift (ticker r) (rdate r)).
Qed.

Lemma lookup_None_unmatched (col : string) (shift : Z) (q : list record)
  (d : option Z) :
  QuarterlyTarget.lookup col shift q d = None ->
  forall x, In x q -> d <> Some (date x).
Proof.
  intros H x Hx E. subst d.
  assert (Hex : exists i, where_first (QuarterlyTarget.date_is (Some (date x))) q
                          = Some i).
  { clear H. induction q as [|h q IH]; [contradiction|]. simpl.
    destruct (date h =? date x) eqn:F; [now exists O|].
    destruct Hx as [-> | Hx]; [rewrite Z.eqb_refl in F; discriminate|].
    destruct (IH Hx) as [i Hi]. simpl in Hi. rewrite Hi. now exists (S i). }
  destruct Hex as [i Hi]. rewrite (lookup_matched col shift _ _ _ Hi) in H.
  discriminate.
Qed.

(** X4.  [QuarterlyTarget.calculate], with its grouping, parallel map,
    deduplication and left join, computes what the plain loop over the
    request rows computes: every request row, in order, with the label
    looked up for its own ticker and date.  It returns no table exactly
    when the request table is empty or some row's date is carried by no
    quarter of the row's entity. *)
Theorem QuarterlyTarget_calculate_rowwise (dl : data_loader) (col : string)
  (shift : Z) (info_df : list request_row) :
  QuarterlyTarget.calculate dl col shift info_df =
    rowwise (quarterly_lookup dl col shift) info_df /\
  (QuarterlyTarget.calculate dl col shift info_df = None <->
   info_df = [] \/
   exists r, In r info_df /\
     forall q, In q (load_quarterly_data dl (ticker r)) ->
               rdate r <> Some (date q)).
Proof.
  split; [apply quarterly_calculate_rowwise|]. split.
  - rewrite quarterly_calculate_rowwise. unfold rowwise.
    destruct info_df as [|r0 rest]; [now left|]. intros H. right.
    destruct (mapM_None_inv _ _ H) as [r [Hr Hnone]]. exists r.
    split; [assumption|]. intros q Hq.
    apply (lookup_None_unmatched col shift (rev (load_quarterly_data dl (ticker r)))).
    + unfold quarterly_lookup in Hnone.
      now destruct (QuarterlyTarget.lookup col shift
                      (rev (load_quarterly_data dl (ticker r))) (rdate r)).
    + now apply in_rev in Hq.
  - intros [-> | [r [Hr Hun]]]; [reflexivity|].
    apply (quarterly_calculate_fails dl col shift info_df r Hr).
    unfold quarterly_lookup. apply lookup_unmatched.
    intros x Hx. apply Hun. now apply in_rev.
Qed.


(** ** More on the exact-match lookup *)

Lemma find_split {A : Type} (f : A -> bool) (q : list A) (m : A) :
  find f q = Some m ->
  exists a b, q = (a ++ m :: b)%list /\ f m = true /\
              forall x, In x a -> f x = false.
Proof.
  induction q as [|h q IH]; simpl; intros H; [discriminate|].
  destruct (f h) eqn:E.
  - injection H as ->. exists [], q. repeat split; [assumption | intros x []].
  - destruct (IH H) as [a [b [-> [Hm Ha]]]].
    exists (h :: a), b. repeat split; [assumption|].
    intros x [<- | Hx]; [assumption | now apply Ha].
Qed.

(** X6.  At offset 0 the lookup returns the named column of the record
    that carries the request date, without any assumption on the order of
    the series or the uniqueness of its dates: when several records carry
    the date, the last one in the provider's order is read; when none
    does, the lookup fails. *)
Theorem QuarterlyTarget_offset_zero (dl : data_loader) (col t : string) (d : Z) :
  quarterly_lookup dl col 0 t (Some d) =
  option_map (column col)
    (find (fun r => date r =? d) (rev (load_quarterly_data dl t))).
Proof.
  unfold quarterly_lookup.
  destruct (find (fun r => date r =? d) (rev (load_quarterly_data dl t)))
    as [m|] eqn:F; simpl.
  - destruct (find_split _ _ _ F) as [a [b [-> [Hm Ha]]]].
    apply lookup_same.
    + now apply Z.eqb_eq.
    + intros x Hx. apply Z.eqb_neq. now apply Ha.
  - apply lookup_unmatched. intros x Hx E. injection E as ->.
    pose proof (find_none _ _ F x Hx) as Hc. simpl in Hc.
    rewrite Z.eqb_refl in Hc. discriminate.
Qed.

(** X7.  Reading the [date] column at offset 0 gives the request dates
    back: for a non-empty request table whose dates all match a quarter of
    their entity, [QuarterlyTarget('date', 0).calculate] labels every row
    with its own request date. *)
Theorem QuarterlyTarget_date_round_trip (dl : data_loader)
  (info_df : list request_row) :
  info_df <> [] ->
  (forall r, In r info_df ->
     exists d, rdate r = Some d /\
               In d (map date (load_quarterly_data dl (ticker r)))) ->
  QuarterlyTarget.calculate dl "date" 0 info_df =
  Some (labelled (fun _ d => match d with
                             | Some x => CDate x
                             | None => CNull
                             end) info_df).
Proof.
  intros Hne Hmatch.
  assert (Hrow : forall r, In r info_df ->
            quarterly_lookup dl "date" 0 (ticker r) (rdate r) =
            Some match rdate r with Some x => CDate x | None => CNull end).
  { intros r Hr. destruct (Hmatch r Hr) as [d [-> Hd]].
    unfold quarterly_lookup.
    set (q := rev (load_quarterly_data dl (ticker r))).
    assert (Hsome : QuarterlyTarget.lookup "date" 0 q (Some d) <> None).
    { intros Hnone. apply in_map_iff in Hd. destruct Hd as [m [Hm Hin]].
      apply (lookup_None_unmatched _ _ _ _ Hnone m); [|now rewrite Hm].
      unfold q. now apply in_rev in Hin. }
    destruct (lookup_Some_matched _ _ _ _ Hsome) as [i Hi].
    destruct (where_first_split _ _ _ Hi) as [a [m [b [E [Hm Ha]]]]].
    simpl in Hm. apply Z.eqb_eq in Hm. rewrite E.
    rewrite (lookup_same "date" a b m d Hm).
    - unfold column. simpl. now rewrite Hm.
    - intros x Hx. specialize (Ha x Hx). simpl in Ha. now apply Z.eqb_neq. }
  rewrite quarterly_calculate_labelled; [f_equal; apply labelled_ext | assumption |].
  - intros r Hr. unfold quarterly_label. now rewrite (Hrow r Hr).
  - intros r Hr. rewrite (Hrow r Hr). discriminate.
Qed.

Lemma QuarterlyTarget_date_round_trip_witness :
  (two_ticker_request <> [] /\
   (forall r, In r two_ticker_request ->
      exists d, rdate r = Some d /\
                In d (map date (load_quarterly_data oldest_first_provider (ticker r))))) /\
  QuarterlyTarget.calculate oldest_first_provider "date" 0 two_ticker_request =
  Some (labelled (fun _ d => match d with
                             | Some x => CDate x
                             | None => CNull
                             end) two_ticker_request).
Proof.
  assert (H1 : two_ticker_request <> []) by discriminate.
  assert (H2 : forall r, In r two_ticker_request ->
      exists d, rdate r = Some d /\
                In d (map date (load_quarterly_data oldest_first_provider (ticker r)))).
  { intros r [<- | [<- | [<- | []]]].
    - exists 0. split; [reflexivity | simpl; tauto].
    - exists 1. split; [reflexivity | simpl; tauto].
    - exists 0. split; [reflexivity | simpl; tauto]. }
  exact (conj (conj H1 H2)
           (QuarterlyTarget_date_round_trip oldest_first_provider
              two_ticker_request H1 H2)).
Defined.

(** On a series with unique dates the exact match of a record's date is
    found at the record's position. *)
Lemma lookup_at_index (q : list record) (i : nat) (m : record) :
  NoDup (map date q) -> nth_error q i = Some m ->
  where_first (QuarterlyTarget.date_is (Some (date m))) q = Some i.
Proof.
  intros Hnd H. apply nth_error_split in H. destruct H as [a [b [-> <-]]].
  apply match_position; [reflexivity|].
  intros x Hx E. rewrite map_app in Hnd. simpl in Hnd.
  apply NoDup_remove_2 in Hnd. apply Hnd. apply in_or_app. left.
  rewrite <- E. now apply in_map.
Qed.

(** X8.  Offsets compose on a series with unique dates: when the [date]
    column read at offset [a] resolves a date, reading any column at offset
    [b] from that resolved date is reading it at offset [a + b] from the
    original request date. *)
Theorem QuarterlyTarget_offsets_compose (dl : data_loader) (col t : string)
  (a b : Z) (d : option Z) (d' : Z) :
  NoDup (map date (load_quarterly_data dl t)) ->
  quarterly_lookup dl "date" a t d = Some (CDate d') ->
  quarterly_lookup dl col b t (Some d') = quarterly_lookup dl col (a + b) t d.
Proof.
  unfold quarterly_lookup. intros Hnd H.
  set (q := rev (load_quarterly_data dl t)) in *.
  assert (Hnd' : NoDup (map date q))
    by (unfold q; rewrite map_rev; now apply NoDup_rev).
  assert (Hsome : QuarterlyTarget.lookup "date" a q d <> None) by congruence.
  destruct (lookup_Some_matched _ _ _ _ Hsome) as [i Hi].
  rewrite (lookup_matched "date" a _ _ _ Hi) in H.
  rewrite (lookup_matched col (a + b) _ _ _ Hi).
  destruct ((0 <=? Z.of_nat i + a) && (Z.of_nat i + a <? Z.of_nat (length q)))
    eqn:R; [|discriminate].
  apply andb_true_iff in R. destruct R as [R1 R2].
  apply Z.leb_le in R1. apply Z.ltb_lt in R2.
  destruct (nth_error q (Z.to_nat (Z.of_nat i + a))) as [m|] eqn:N.
  - rewrite (nth_error_nth_column "date" q _ m N) in H.
    unfold column in H. simpl in H. injection H as <-.
    rewrite (lookup_matched col b q _ _ (lookup_at_index q _ m Hnd' N)).
    replace (Z.of_nat (Z.to_nat (Z.of_nat i + a)) + b)
      with (Z.of_nat i + (a + b)) by lia.
    reflexivity.
  - apply nth_error_None in N. lia.
Qed.

Lemma QuarterlyTarget_offsets_compose_witness :
  (NoDup (map date (load_quarterly_data newest_first_provider "A")) /\
   quarterly_lookup newest_first_provider "date" 2 "A" (Some 0) =
     Some (CDate 2)) /\
  quarterly_lookup newest_first_provider "revenue" (-1) "A" (Some 2) =
  quarterly_lookup newest_first_provider "revenue" (2 + -1) "A" (Some 0).
Proof.
  assert (H1 : NoDup (map date (load_quarterly_data newest_first_provider "A"))).
  { simpl. repeat (constructor; [simpl; intuition discriminate|]). constructor. }
  assert (H2 : quarterly_lookup newest_first_provider "date" 2 "A" (Some 0) =
                 Some (CDate 2)) by reflexivity.
  exact (conj (conj H1 H2)
           (QuarterlyTarget_offsets_compose newest_first_provider "revenue" "A"
              2 (-1) (Some 0) 2 H1 H2)).
Defined.

(** ** Offsets on a series supplied oldest first *)

Lemma ascending_app (l1 l2 : list Z) :
  strictly_ascending (l1 ++ l2) = true ->
  strictly_ascending l1 = true /\ strictly_ascending l2 = true /\
  forall x z, In x l1 -> In z l2 -> x < z.
Proof.
  induction l1 as [|a l1 IH]; intros H.
  - simpl in H. repeat split; try assumption. intros x z [].
  - change ((a :: l1) ++ l2)%list with (a :: (l1 ++ l2))%list in H.
    pose proof (ascending_head _ _ H) as Hhead.
    apply ascending_tail in H. destruct (IH H) as [H1 [H2 H12]].
    repeat split; try assumption.
    + apply ascending_cons; [|assumption].
      intros x Hx. apply Hhead. apply in_or_app. now left.
    + intros x z [<- | Hx] Hz.
      * apply Hhead. apply in_or_app. now right.
      * now apply H12.
Qed.

Lemma ascending_split (l : list record) (d : Z) :
  strictly_ascending (map date l) = true -> In d (map date l) ->
  exists l1 m l2,
    l = (l1 ++ m :: l2)%list /\ date m = d /\
    (forall x, In x l1 -> date x < d) /\
    (forall x, In x l2 -> d < date x) /\
    strictly_ascending (map date l1) = true /\
    strictly_ascending (map date l2) = true.
Proof.
  intros Hs Hin. apply in_map_iff in Hin. destruct Hin as [m [Hm Hin]].
  apply in_split in Hin. destruct Hin as [l1 [l2 ->]].
  exists l1, m, l2. rewrite map_app in Hs. simpl map in Hs.
  destruct (ascending_app _ _ Hs) as [H1 [H2 H12]].
  pose proof (ascending_head _ _ H2) as Hhead.
  apply ascending_tail in H2. subst d.
  repeat split; try assumption.
  - intros x Hx. apply H12; [now apply in_map | now left].
  - intros x Hx. apply Hhead. now apply in_map.
Qed.

Lemma latest_of_ascending (l : list record) :
  strictly_ascending (map date l) = true ->
  fold_right pick_later None l = hd_error (rev l).
Proof.
  induction l as [|a l IH]; intros H; [reflexivity|].
  simpl map in H. pose proof (ascending_head _ _ H) as Hhead.
  apply ascending_tail in H. simpl. rewrite (IH H).
  destruct (rev l) as [|z rest] eqn:E; [reflexivity|]. simpl.
  replace (date z <? date a) with false; [reflexivity|].
  symmetry. apply Z.ltb_ge.
  assert (Hz : In z l) by (apply in_rev; rewrite E; now left).
  specialize (Hhead (date z) (in_map date _ _ Hz)). lia.
Qed.

Lemma earliest_of_ascending (l : list record) :
  strictly_ascending (map date l) = true ->
  fold_right pick_earlier None l = hd_error l.
Proof.
  induction l as [|a l IH]; intros H; [reflexivity|].
  simpl map in H. pose proof (ascending_head _ _ H) as Hhead.
  apply ascending_tail in H. simpl. rewrite (IH H).
  destruct l as [|b l]; [reflexivity|]. simpl.
  replace (date a <? date b) with true; [reflexivity|].
  symmetry. apply Z.ltb_lt. apply Hhead. simpl. now left.
Qed.

Section AscendingSeries.

Variables (l1 l2 : list record) (m : record) (d : Z).
Hypothesis here : date m = d.
Hypothesis earlier : forall x, In x l1 -> date x < d.
Hypothesis later : forall x, In x l2 -> d < date x.
Hypothesis sorted1 : strictly_ascending (map date l1) = true.
Hypothesis sorted2 : strictly_ascending (map date l2) = true.

Lemma previous_quarter_ascending :
  previous_quarter (l1 ++ m :: l2) d = hd_error (rev l1).
Proof.
  unfold previous_quarter. rewrite filter_app. simpl.
  rewrite filter_all by (intros x Hx; apply Z.ltb_lt; now apply earlier).
  replace (date m <? d) with false by (symmetry; apply Z.ltb_ge; lia).
  rewrite filter_none by (intros x Hx; apply Z.ltb_ge; specialize (later x Hx); lia).
  rewrite app_nil_r. now apply latest_of_ascending.
Qed.

Lemma next_quarter_ascending :
  next_quarter (l1 ++ m :: l2) d = hd_error l2.
Proof.
  unfold next_quarter. rewrite filter_app. simpl.
  rewrite filter_none by (intros x Hx; apply Z.ltb_ge; specialize (earlier x Hx); lia).
  replace (d <? date m) with false by (symmetry; apply Z.ltb_ge; lia).
  rewrite filter_all by (intros x Hx; apply Z.ltb_lt; now apply later).
  simpl. now apply earliest_of_ascending.
Qed.

Lemma same_quarter_ascending :
  same_quarter (l1 ++ m :: l2) d = Some m.
Proof.
  unfold same_quarter.
  rewrite find_skip by (intros x Hx; apply Z.eqb_neq; specialize (earlier x Hx); lia).
  simpl. replace (date m =? d) with true; [reflexivity|].
  symmetry. now apply Z.eqb_eq.
Qed.

End AscendingSeries.

Lemma ascending_lookup (dl : data_loader) (col t : string) (d : Z) :
  strictly_ascending (map date (load_quarterly_data dl t)) = true ->
  In d (map date (load_quarterly_data dl t)) ->
  quarterly_lookup dl col (-1) t (Some d) =
    Some (chronological_label next_quarter dl col t (Some d)) /\
  quarterly_lookup dl col 0 t (Some d) =
    Some (chronological_label same_quarter dl col t (Some d)) /\
  quarterly_lookup dl col 1 t (Some d) =
    Some (chronological_label previous_quarter dl col t (Some d)).
Proof.
  intros Hs Hin. unfold quarterly_lookup, chronological_label.
  destruct (ascending_split _ _ Hs Hin) as [l1 [m [l2 [-> [Hm [H1 [H2 [S1 S2]]]]]]]].
  rewrite (previous_quarter_ascending l1 l2 m d Hm H1 H2 S1).
  rewrite (same_quarter_ascending l1 l2 m d Hm H1).
  rewrite (next_quarter_ascending l1 l2 m d Hm H1 H2 S2).
  rewrite rev_app_distr. simpl rev. rewrite <- app_assoc. simpl app.
  assert (Hfirst : forall x, In x (rev l2) -> date x <> d).
  { intros x Hx. apply in_rev in Hx. specialize (H2 x Hx). lia. }
  rewrite (lookup_before col (rev l2) (rev l1) m d Hm Hfirst).
  rewrite (lookup_same col (rev l2) (rev l1) m d Hm Hfirst).
  rewrite (lookup_after col (rev l2) (rev l1) m d Hm Hfirst).
  rewrite rev_involutive. repeat split; reflexivity.
Qed.

(** X9.  On a series supplied oldest first (strictly ascending dates) the
    offsets read mirrored: for every request date equal to a quarter's
    report date, [quarter_shift = -1] returns the named column of the
    chronologically next quarter, [quarter_shift = 0] that of the matched
    quarter and [quarter_shift = 1] that of the chronologically previous
    quarter, null where there is no such quarter. *)
Theorem QuarterlyTarget_offsets_oldest_first (dl : data_loader) (col : string)
  (info_df : list request_row) :
  info_df <> [] ->
  (forall r, In r info_df ->
     strictly_ascending (map date (load_quarterly_data dl (ticker r))) = true /\
     exists d, rdate r = Some d /\
               In d (map date (load_quarterly_data dl (ticker r)))) ->
  QuarterlyTarget.calculate dl col (-1) info_df =
    Some (labelled (chronological_label next_quarter dl col) info_df) /\
  QuarterlyTarget.calculate dl col 0 info_df =
    Some (labelled (chronological_label same_quarter dl col) info_df) /\
  QuarterlyTarget.calculate dl col 1 info_df =
    Some (labelled (chronological_label previous_quarter dl col) info_df).
Proof.
  intros Hne Hrows.
  assert (Hrow : forall r, In r info_df ->
    quarterly_lookup dl col (-1) (ticker r) (rdate r) =
      Some (chronological_label next_quarter dl col (ticker r) (rdate r)) /\
    quarterly_lookup dl col 0 (ticker r) (rdate r) =
      Some (chronological_label same_quarter dl col (ticker r) (rdate r)) /\
    quarterly_lookup dl col 1 (ticker r) (rdate r) =
      Some (chronological_label previous_quarter dl col (ticker r) (rdate r))).
  { intros r Hr. destruct (Hrows r Hr) as [Hs [d [Hd Hin]]].
    rewrite Hd. now apply ascending_lookup. }
  split; [|split].
  - rewrite quarterly_calculate_labelled; [f_equal; apply labelled_ext | assumption |].
    + intros r Hr. unfold quarterly_label.
      destruct (Hrow r Hr) as [-> _]. reflexivity.
    + intros r Hr. destruct (Hrow r Hr) as [-> _]. discriminate.
  - rewrite quarterly_calculate_labelled; [f_equal; apply labelled_ext | assumption |].
    + intros r Hr. unfold quarterly_label.
      destruct (Hrow r Hr) as [_ [-> _]]. reflexivity.
    + intros r Hr. destruct (Hrow r Hr) as [_ [-> _]]. discriminate.
  - rewrite quarterly_calculate_labelled; [f_equal; apply labelled_ext | assumption |].
    + intros r Hr. unfold quarterly_label.
      destruct (Hrow r Hr) as [_ [_ ->]]. reflexivity.
    + intros r Hr. destruct (Hrow r Hr) as [_ [_ ->]]. discriminate.
Qed.

Lemma QuarterlyTarget_offsets_oldest_first_witness :
  (request_A 1 <> [] /\
   (forall r, In r (request_A 1) ->
      strictly_ascending (map date (load_quarterly_data oldest_first_provider (ticker r))) = true /\
      exists d, rdate r = Some d /\
                In d (map date (load_quarterly_data oldest_first_provider (ticker r))))) /\
  (QuarterlyTarget.calculate oldest_first_provider "revenue" (-1) (request_A 1) =
     Some (labelled (chronological_label next_quarter oldest_first_provider "revenue") (request_A 1)) /\
   QuarterlyTarget.calculate oldest_first_provider "revenue" 0 (request_A 1) =
     Some (labelled (chronological_label same_quarter oldest_first_provider "revenue") (request_A 1)) /\
   QuarterlyTarget.calculate oldest_first_provider "revenue" 1 (request_A 1) =
     Some (labelled (chronological_label previous_quarter oldest_first_provider "revenue") (request_A 1))).
Proof.
  assert (H1 : request_A 1 <> []) by discriminate.
  assert (H2 : forall r, In r (request_A 1) ->
      strictly_ascending (map date (load_quarterly_data oldest_first_provider (ticker r))) = true /\
      exists d, rdate r = Some d /\
                In d (map date (load_quarterly_data oldest_first_provider (ticker r)))).
  { intros r [<- | []]. split; [reflexivity|].
    exists 1. split; [reflexivity|]. simpl. tauto. }
  exact (conj (conj H1 H2)
           (QuarterlyTarget_offsets_oldest_first oldest_first_provider "revenue"
              (request_A 1) H1 H2)).
Defined.

(** X30.  On a series supplied newest first (strictly descending dates)
    the offsets read as the docstring of [QuarterlyTarget.__init__] names
    them: for a non-empty request table whose dates all equal a quarter's
    report date, [quarter_shift = -1] returns the named column's value of
    the chronologically previous quarter, [quarter_shift = 0] the matched
    quarter's value and [quarter_shift = 1] the chronologically next
    quarter's value, null where there is no such quarter. *)
Theorem QuarterlyTarget_offsets_newest_first (dl : data_loader) (col : string)
  (info_df : list request_row) :
  info_df <> [] ->
  (forall r, In r info_df ->
     strictly_descending (map date (load_quarterly_data dl (ticker r))) = true /\
     exists d, rdate r = Some d /\
               In d (map date (load_quarterly_data dl (ticker r)))) ->
  QuarterlyTarget.calculate dl col (-1) info_df =
    Some (labelled (chronological_label previous_quarter dl col) info_df) /\
  QuarterlyTarget.calculate dl col 0 info_df =
    Some (labelled (chronological_label same_quarter dl col) info_df) /\
  QuarterlyTarget.calculate dl col 1 info_df =
    Some (labelled (chronological_label next_quarter dl col) info_df).
Proof.
  intros Hne Hrows.
  assert (Hrow : forall r, In r info_df ->
    quarterly_lookup dl col (-1) (ticker r) (rdate r) =
      Some (chronological_label previous_quarter dl col (ticker r) (rdate r)) /\
    quarterly_lookup dl col 0 (ticker r) (rdate r) =
      Some (chronological_label same_quarter dl col (ticker r) (rdate r)) /\
    quarterly_lookup dl col 1 (ticker r) (rdate r) =
      Some (chronological_label next_quarter dl col (ticker r) (rdate r))).
  { intros r Hr. destruct (Hrows r Hr) as [Hs [d [Hd Hin]]].
    rewrite Hd. now apply descending_lookup. }
  repeat split.
  - rewrite quarterly_calculate_labelled; [f_equal; apply labelled_ext | assumption |].
    + intros r Hr. unfold quarterly_label.
      destruct (Hrow r Hr) as [-> _]. reflexivity.
    + intros r Hr. destruct (Hrow r Hr) as [-> _]. discriminate.
  - rewrite quarterly_calculate_labelled; [f_equal; apply labelled_ext | assumption |].
    + intros r Hr. unfold quarterly_label.
      destruct (Hrow r Hr) as [_ [-> _]]. reflexivity.
    + intros r Hr. destruct (Hrow r Hr) as [_ [-> _]]. discriminate.
  - rewrite quarterly_calculate_labelled; [f_equal; apply labelled_ext | assumption |].
    + intros r Hr. unfold quarterly_label.
      destruct (Hrow r Hr) as [_ [_ ->]]. reflexivity.
    + intros r Hr. destruct (Hrow r Hr) as [_ [_ ->]]. discriminate.
Qed.

Lemma QuarterlyTarget_offsets_newest_first_witness :
  (request_A 1 <> [] /\
   (forall r, In r (request_A 1) ->
      strictly_descending (map date (load_quarterly_data newest_first_provider (ticker r))) = true /\
      exists d, rdate r = Some d /\
                In d (map date (load_quarterly_data newest_first_provider (ticker r))))) /\
  (QuarterlyTarget.calculate newest_first_provider "revenue" (-1) (request_A 1) =
     Some (labelled (chronological_label previous_quarter newest_first_provider "revenue") (request_A 1)) /\
   QuarterlyTarget.calculate newest_first_provider "revenue" 0 (request_A 1) =
     Some (labelled (chronological_label same_quarter newest_first_provider "revenue") (request_A 1)) /\
   QuarterlyTarget.calculate newest_first_provider "revenue" 1 (request_A 1) =
     Some (labelled (chronological_label next_quarter newest_first_provider "revenue") (request_A 1))).
Proof.
  assert (H1 : request_A 1 <> []) by discriminate.
  assert (H2 : forall r, In r (request_A 1) ->
      strictly_descending (map date (load_quarterly_data newest_first_provider (ticker r))) = true /\
      exists d, rdate r = Some d /\
                In d (map date (load_quarterly_data newest_first_provider (ticker r)))).
  { intros r [<- | []]. split; [reflexivity|].
    exists 1. split; [reflexivity|]. simpl. tauto. }
  exact (conj (conj H1 H2)
           (QuarterlyTarget_offsets_newest_first newest_first_provider "revenue" (request_A 1) H1 H2)).
Defined.

(** ** The daily window, whatever the order of the series *)

Lemma firstn_incl {A : Type} (n : nat) (l : list A) (a : A) :
  In a (firstn n l) -> In a l.
Proof.
  intros H. rewrite <- (firstn_skipn n l). apply in_or_app. now left.
Qed.

Lemma skipn_incl {A : Type} (n : nat) (l : list A) (a : A) :
  In a (skipn n l) -> In a l.
Proof.
  intros H. rewrite <- (firstn_skipn n l). apply in_or_app. now right.
Qed.

(** X10.  The window never crosses the request date, in whatever order the
    provider supplies the series: with [horizon >= 0] every value of the
    window is the column value of a record dated on or after the request
    date, with [horizon < 0] of a record dated strictly before it. *)
Theorem DailyAggTarget_window_side (col : string) (horizon : Z)
  (daily : list record) (x : Z) :
  exists rs,
    DailyAggTarget.window col horizon (rev daily) (Some x) =
      map (column col) rs /\
    forall r, In r rs ->
      In r daily /\ if 0 <=? horizon then x <= date r else date r < x.
Proof.
  unfold DailyAggTarget.window. destruct (0 <=? horizon).
  - exists (firstn (Z.to_nat horizon)
              (filter (DailyAggTarget.on_or_after (Some x)) (rev daily))).
    split; [unfold slice_to; now rewrite firstn_map|].
    intros r Hr. apply firstn_incl, filter_In in Hr. destruct Hr as [Hin Hd].
    split; [now apply in_rev | now apply Z.leb_le].
  - exists (skipn (Z.to_nat (Z.of_nat (length (filter
              (DailyAggTarget.before (Some x)) (rev daily))) + horizon))
              (filter (DailyAggTarget.before (Some x)) (rev daily))).
    split; [unfold slice_from_neg; now rewrite skipn_map, length_map|].
    intros r Hr. apply skipn_incl, filter_In in Hr. destruct Hr as [Hin Hd].
    split; [now apply in_rev | now apply Z.ltb_lt].
Qed.

Lemma window_length (col : string) (horizon : Z)
  (daily_data : list record) (d : option Z) :
  length (DailyAggTarget.window col horizon daily_data d) =
  Nat.min (Z.abs_nat horizon) (length (filter (eligible horizon d) daily_data)).
Proof.
  unfold DailyAggTarget.window, eligible. destruct (0 <=? horizon) eqn:E.
  - apply Z.leb_le in E. unfold slice_to.
    rewrite length_firstn, length_map. f_equal. lia.
  - apply Z.leb_gt in E. unfold slice_from_neg.
    rewrite length_skipn, !length_map.
    set (n := length (filter (DailyAggTarget.before d) daily_data)).
    destruct (Nat.le_ge_cases (Z.abs_nat horizon) n);
      [rewrite Nat.min_l | rewrite Nat.min_r]; lia.
Qed.

(** X11.  The window holds [|horizon|] values when that many records are
    admitted by the request date, and all the admitted records when there
    are fewer: it is never padded and never longer than [|horizon|]. *)
Theorem DailyAggTarget_window_length (col : string) (horizon : Z)
  (daily_data : list record) (d : option Z) :
  length (DailyAggTarget.window col horizon daily_data d) =
  Nat.min (Z.abs_nat horizon) (length (filter (eligible horizon d) daily_data)) /\
  (length (DailyAggTarget.window col horizon daily_data d) <= Z.abs_nat horizon)%nat /\
  forall v, In v (DailyAggTarget.window col horizon daily_data d) ->
    exists r, In r daily_data /\ eligible horizon d r = true /\ v = column col r.
Proof.
  split; [apply window_length | split].
  - rewrite window_length. apply Nat.le_min_l.
  - intros v Hv. unfold DailyAggTarget.window, eligible in *.
    destruct (0 <=? horizon).
    + apply firstn_incl, in_map_iff in Hv. destruct Hv as [r [<- Hr]].
      apply filter_In in Hr. exists r. tauto.
    + apply skipn_incl, in_map_iff in Hv. destruct Hv as [r [<- Hr]].
      apply filter_In in Hr. exists r. tauto.
Qed.

Lemma window_empty (col : string) (horizon : Z) (daily_data : list record)
  (d : option Z) :
  horizon = 0 \/ (forall q, In q daily_data -> eligible horizon d q = false) ->
  DailyAggTarget.window col horizon daily_data d = [].
Proof.
  intros H. apply length_zero_iff_nil.
  rewrite window_length.
  destruct H as [-> | H]; [reflexivity|].
  rewrite filter_none by assumption. apply Nat.min_0_r.
Qed.

(** X12.  With [np.mean] as aggregation a window that runs off the history
    gives a null label and no error: on a non-empty request table whose
    rows for entities with daily history carry a date, for every row of an
    entity with history, when the horizon is 0 or the request date admits
    no record (none on or after it for [horizon >= 0], none before it for
    [horizon < 0]), the label is null. *)
Theorem DailyAggTarget_empty_window_null (dl : data_loader) (col : string)
  (horizon : Z) (info_df : list request_row) :
  info_df <> [] ->
  (forall r, In r info_df ->
     load_daily_data dl (ticker r) <> None -> rdate r <> None) ->
  exists out,
    DailyAggTarget.calculate dl col horizon np_mean info_df = Some out /\
    forall k r daily x,
      nth_error info_df k = Some r ->
      load_daily_data dl (ticker r) = Some daily ->
      rdate r = Some x ->
      horizon = 0 \/
      (forall q, In q daily -> eligible horizon (Some x) q = false) ->
      nth_error out k = Some (mkResult (ticker r) (Some x) CNull).
Proof.
  intros Hne Hdated.
  exists (labelled (daily_label dl col horizon np_mean) info_df). split.
  - apply daily_calculate_labelled; [assumption|].
    intros r Hr. apply daily_lookup_dated. now apply Hdated.
  - intros k r daily x Hk Hd Hx Hempty. rewrite (labelled_nth _ _ _ _ Hk), Hx.
    rewrite (daily_label_window _ _ _ _ _ _ _ Hd).
    rewrite window_empty; [reflexivity|].
    destruct Hempty as [-> | H]; [now left | right].
    intros q Hq. apply H. now apply in_rev.
Qed.

Lemma DailyAggTarget_empty_window_null_witness :
  (request_A 10 <> [] /\
   (forall r, In r (request_A 10) ->
      load_daily_data newest_first_provider (ticker r) <> None ->
      rdate r <> None)) /\
  exists out,
    DailyAggTarget.calculate newest_first_provider "marketcap" 3 np_mean
      (request_A 10) = Some out /\
    forall k r daily x,
      nth_error (request_A 10) k = Some r ->
      load_daily_data newest_first_provider (ticker r) = Some daily ->
      rdate r = Some x ->
      3 = 0 \/
      (forall q, In q daily -> eligible 3 (Some x) q = false) ->
      nth_error out k = Some (mkResult (ticker r) (Some x) CNull).
Proof.
  assert (H : request_A 10 <> []) by discriminate.
  assert (Hd : forall r, In r (request_A 10) ->
            load_daily_data newest_first_provider (ticker r) <> None ->
            rdate r <> None).
  { intros r [<- | []] _. discriminate. }
  exact (conj (conj H Hd)
           (DailyAggTarget_empty_window_null newest_first_provider
              "marketcap" 3 (request_A 10) H Hd)).
Defined.

(** X13.  What the reversal of the series does to the window, in the
    provider's own order: with [horizon >= 0] the window is the last
    [horizon] admitted values of the provider's series, read backwards;
    with [horizon < 0] it is the first [|horizon|] admitted values of the
    provider's series, read backwards. *)
Theorem DailyAggTarget_window_provider_order (col : string) (horizon : Z)
  (daily : list record) (d : option Z) :
  DailyAggTarget.window col horizon (rev daily) d =
  if 0 <=? horizon
  then rev (last_n (Z.to_nat horizon)
              (map (column col) (filter (DailyAggTarget.on_or_after d) daily)))
  else rev (firstn (Z.abs_nat horizon)
              (map (column col) (filter (DailyAggTarget.before d) daily))).
Proof.
  unfold DailyAggTarget.window. destruct (0 <=? horizon) eqn:E.
  - unfold slice_to, last_n. rewrite rev_involutive, filter_rev, map_rev.
    reflexivity.
  - apply Z.leb_gt in E. unfold slice_from_neg.
    rewrite filter_rev, map_rev, length_rev, skipn_rev. f_equal.
    set (l := map (column col) (filter (DailyAggTarget.before d) daily)).
    destruct (Nat.le_ge_cases (Z.abs_nat horizon) (length l)) as [H | H].
    + f_equal. lia.
    + rewrite !firstn_all2; [reflexivity | lia | lia].
Qed.

(** X28.  On daily series supplied newest first (strictly descending
    dates), for a non-empty request table whose rows for entities with
    daily history carry a date, and [horizon >= 0], [DailyAggTarget] takes
    the daily records dated on or after the requested date, keeps the
    first [horizon] of them in ascending chronological order, the ones
    nearest the requested date, and applies the aggregation function; with
    horizon 3 and the mean over the values 10, 20, 30, 40 on the days
    D .. D+3, supplied newest first and requested at D, the result is
    20. *)
Theorem DailyAggTarget_forward_newest_first :
  (forall (dl : data_loader) (col : string) (horizon : Z)
          (foo : list cell -> cell) (info_df : list request_row),
     0 <= horizon -> info_df <> [] ->
     (forall r daily, In r info_df ->
        load_daily_data dl (ticker r) = Some daily ->
        strictly_descending (map date daily) = true /\ rdate r <> None) ->
     DailyAggTarget.calculate dl col horizon foo info_df =
     Some (labelled (window_label forward_window dl col horizon foo) info_df)) /\
  (forall (D : Z) (t : string),
     DailyAggTarget.calculate (one_series (series_descending D)) "marketcap" 3
       np_mean [mkRequest t (Some D)] =
     Some [mkResult t (Some D) (num 20)]).
Proof.
  split.
  - intros dl col horizon foo info_df Hh Hne Hs.
    apply window_label_calculate; [assumption|].
    intros r daily Hr E. destruct (Hs r daily Hr E) as [Hd Hx].
    destruct (rdate r) as [x|]; [|congruence].
    exists x. split; [reflexivity|]. now apply window_forward.
  - exact forward_example.
Qed.

Lemma DailyAggTarget_forward_newest_first_witness :
  (0 <= 2 /\ request_A 1 <> [] /\
   (forall r daily, In r (request_A 1) ->
      load_daily_data newest_first_provider (ticker r) = Some daily ->
      strictly_descending (map date daily) = true /\ rdate r <> None)) /\
  DailyAggTarget.calculate newest_first_provider "marketcap" 2 np_mean (request_A 1) =
  Some (labelled (window_label forward_window newest_first_provider "marketcap" 2 np_mean) (request_A 1)).
Proof.
  assert (H0 : 0 <= 2) by lia.
  assert (H1 : request_A 1 <> []) by discriminate.
  assert (H2 : forall r daily, In r (request_A 1) ->
      load_daily_data newest_first_provider (ticker r) = Some daily ->
      strictly_descending (map date daily) = true /\ rdate r <> None).
  { intros r daily [<- | []] E. simpl in E. injection E as <-.
    split; [reflexivity | discriminate]. }
  exact (conj (conj H0 (conj H1 H2))
           (proj1 DailyAggTarget_forward_newest_first
              newest_first_provider "marketcap" 2 np_mean (request_A 1) H0 H1 H2)).
Defined.

(** X29.  On daily series supplied newest first (strictly descending
    dates), for a non-empty request table whose rows for entities with
    daily history carry a date, and [horizon < 0], [DailyAggTarget] takes
    the daily records dated strictly before the requested date and keeps
    the last [|horizon|] of them in ascending chronological order, the
    most recent days before the requested date, then applies the
    aggregation function; with horizon -3 over the values 10, 20, 30, 40
    on the days D .. D+3, supplied newest first and requested at D+3, the
    result is mean(10, 20, 30) = 20, the value at D+3 being excluded. *)
Theorem DailyAggTarget_backward_newest_first :
  (forall (dl : data_loader) (col : string) (horizon : Z)
          (foo : list cell -> cell) (info_df : list request_row),
     horizon < 0 -> info_df <> [] ->
     (forall r daily, In r info_df ->
        load_daily_data dl (ticker r) = Some daily ->
        strictly_descending (map date daily) = true /\ rdate r <> None) ->
     DailyAggTarget.calculate dl col horizon foo info_df =
     Some (labelled (window_label backward_window dl col horizon foo) info_df)) /\
  (forall (D : Z) (t : string),
     DailyAggTarget.calculate (one_series (series_descending D)) "marketcap" (-3)
       np_mean [mkRequest t (Some (D + 3))] =
     Some [mkResult t (Some (D + 3)) (num 20)]).
Proof.
  split.
  - intros dl col horizon foo info_df Hh Hne Hs.
    apply window_label_calculate; [assumption|].
    intros r daily Hr E. destruct (Hs r daily Hr E) as [Hd Hx].
    destruct (rdate r) as [x|]; [|congruence].
    exists x. split; [reflexivity|]. now apply window_backward.
  - exact backward_example.
Qed.

Lemma DailyAggTarget_backward_newest_first_witness :
  (-2 < 0 /\ request_A 3 <> [] /\
   (forall r daily, In r (request_A 3) ->
      load_daily_data newest_first_provider (ticker r) = Some daily ->
      strictly_descending (map date daily) = true /\ rdate r <> None)) /\
  DailyAggTarget.calculate newest_first_provider "marketcap" (-2) np_mean (request_A 3) =
  Some (labelled (window_label backward_window newest_first_provider "marketcap" (-2) np_mean) (request_A 3)).
Proof.
  assert (H0 : -2 < 0) by lia.
  assert (H1 : request_A 3 <> []) by discriminate.
  assert (H2 : forall r daily, In r (request_A 3) ->
      load_daily_data newest_first_provider (ticker r) = Some daily ->
      strictly_descending (map date daily) = true /\ rdate r <> None).
  { intros r daily [<- | []] E. simpl in E. injection E as <-.
    split; [reflexivity | discriminate]. }
  exact (conj (conj H0 (conj H1 H2))
           (proj1 DailyAggTarget_backward_newest_first
              newest_first_provider "marketcap" (-2) np_mean (request_A 3) H0 H1 H2)).
Defined.

(** ** Compositions as row-by-row loops *)

Lemma mapM_ext {A B : Type} (f g : A -> option B) (l : list A) :
  (forall a, In a l -> f a = g a) -> mapM f l = mapM g l.
Proof.
  induction l as [|a l IH]; intros H; simpl; [reflexivity|].
  rewrite (H a (or_introl eq_refl)), IH; [reflexivity|].
  intros x Hx. apply H. now right.
Qed.

Lemma mapM_zip {A B C D : Type} (f : A -> option B) (g : A -> option C)
  (h : B * C -> D) (l : list A) :
  (bs <- mapM f l ;; cs <- mapM g l ;; Some (map h (combine bs cs))) =
  mapM (fun a => b <- f a ;; c <- g a ;; Some (h (b, c))) l.
Proof.
  induction l as [|a l IH]; simpl; [reflexivity|].
  destruct (f a) as [b|]; simpl.
  - destruct (g a) as [c|]; simpl.
    + rewrite <- IH.
      destruct (mapM f l) as [bs|]; simpl;
        [destruct (mapM g l) as [cs|]; simpl|]; reflexivity.
    + now destruct (mapM f l).
  - reflexivity.
Qed.

Lemma rowwise_keys (f : string -> option Z -> option cell)
  (info_df : list request_row) (out : list result_row) :
  rowwise f info_df = Some out ->
  map result_key out = map request_key info_df.
Proof.
  unfold rowwise. destruct info_df as [|r0 rest]; [discriminate|].
  revert out. generalize (r0 :: rest). intros l.
  induction l as [|r l IH]; intros out H; simpl in H.
  - injection H as <-. reflexivity.
  - destruct (f (ticker r) (rdate r)) as [v|]; simpl in H; [|discriminate].
    destruct (mapM _ l) as [rows|]; simpl in H; [|discriminate].
    injection H as <-. simpl. f_equal. now apply IH.
Qed.

Lemma matched_lookup (dl : data_loader) (col : string) (shift : Z)
  (r : request_row) :
  (exists q, In q (load_quarterly_data dl (ticker r)) /\ rdate r = Some (date q)) ->
  quarterly_lookup dl col shift (ticker r) (rdate r) =
  Some (quarterly_label dl col shift (ticker r) (rdate r)).
Proof.
  intros [q [Hq Hd]]. unfold quarterly_label.
  destruct (quarterly_lookup dl col shift (ticker r) (rdate r)) as [v|] eqn:E;
    [reflexivity|].
  exfalso. unfold quarterly_lookup in E.
  apply (lookup_None_unmatched _ _ _ _ E q); [now apply in_rev in Hq | assumption].
Qed.

(** ** The quarterly difference and its sign *)

(** Replacing the labels of a table position by position. *)
Lemma relabel_spec (f : nat -> option cell) (l : list result_row) :
  forall s out,
    mapM (fun kr => v <- f (fst kr) ;; Some (set_y (snd kr) v))
         (combine (seq s (length l)) l) = Some out ->
    map result_key out = map result_key l /\
    forall k r, nth_error out k = Some r -> f (s + k)%nat = Some (y r).
Proof.
  induction l as [|a l IH]; intros s out H; simpl in H.
  - injection H as <-. split; [reflexivity|]. intros [|k] r Hk; discriminate.
  - destruct (f s) as [v|] eqn:E; simpl in H; [|discriminate].
    destruct (mapM _ (combine (seq (S s) (length l)) l)) as [rest|] eqn:M;
      simpl in H; [|discriminate].
    injection H as <-. destruct (IH (S s) rest M) as [Hk Hl]. split.
    + simpl. now f_equal.
    + intros [|k] r Hr; simpl in Hr.
      * injection Hr as <-. now rewrite Nat.add_0_r.
      * rewrite Nat.add_succ_r. now apply (Hl k r).
Qed.

Lemma relabel_None (f : nat -> option cell) (l : list result_row) :
  forall s,
    mapM (fun kr => v <- f (fst kr) ;; Some (set_y (snd kr) v))
         (combine (seq s (length l)) l) = None ->
    exists k, (k < length l)%nat /\ f (s + k)%nat = None.
Proof.
  induction l as [|a l IH]; intros s H; simpl in H; [discriminate|].
  destruct (f s) as [v|] eqn:E; simpl in H.
  - destruct (mapM _ (combine (seq (S s) (length l)) l)) as [rest|] eqn:M;
      simpl in H; [discriminate|].
    destruct (IH (S s) M) as [k [Hk Hf]]. exists (S k).
    split; [simpl; lia | now rewrite Nat.add_succ_r].
  - exists O. split; [simpl; lia | now rewrite Nat.add_0_r].
Qed.

Lemma relabel_fails (f : nat -> option cell) (l : list result_row) :
  forall s k, (k < length l)%nat -> f (s + k)%nat = None ->
    mapM (fun kr => v <- f (fst kr) ;; Some (set_y (snd kr) v))
         (combine (seq s (length l)) l) = None.
Proof.
  induction l as [|a l IH]; intros s k Hk Hf; simpl in Hk; [lia|]. simpl.
  destruct k as [|k].
  - rewrite Nat.add_0_r in Hf. now rewrite Hf.
  - destruct (f s) as [v|]; simpl; [|reflexivity].
    rewrite (IH (S s) k); [reflexivity | lia |].
    replace (S s + k)%nat with (s + S k)%nat by lia. exact Hf.
Qed.

Lemma labelled_labels (dl : data_loader) (col : string) (shift : Z)
  (info_df : list request_row) :
  map y (labelled (quarterly_label dl col shift) info_df) =
  label_column dl col shift info_df.
Proof. unfold labelled, label_column. now rewrite map_map. Qed.

(** The difference table keeps the request table's keys, row for row. *)
Lemma diff_keys (sub : series_sub) (dl : data_loader) (col : string)
  (info_df : list request_row) (diff : list result_row) :
  QuarterlyDiffTarget.calculate sub dl col info_df = Some diff ->
  map result_key diff = map request_key info_df.
Proof.
  unfold QuarterlyDiffTarget.calculate. intros H.
  destruct (QuarterlyTarget.calculate dl col 0 info_df) as [curr|] eqn:C;
    simpl in H; [|discriminate].
  destruct (QuarterlyTarget.calculate dl col (-1) info_df) as [last|];
    simpl in H; [|discriminate].
  destruct (relabel_spec _ _ _ _ H) as [Hk _]. rewrite Hk.
  now apply (dispatch_and_merge_keys _ _ _ C).
Qed.

(** X14.  On a non-empty request table whose dates all match,
    [QuarterlyDiffTarget] without normalization subtracts, as whole
    columns, the labels read at offset -1 from the labels read at offset 0,
    both in request order: it returns a table unless the subtraction
    raises, the table has the request table's keys, row for row, and the
    label of row [k] is the value of the difference at position [k]. *)
Theorem QuarterlyDiffTarget_labels (sub : series_sub) (dl : data_loader)
  (col : string) (info_df : list request_row) :
  info_df <> [] ->
  (forall r, In r info_df ->
     exists q, In q (load_quarterly_data dl (ticker r)) /\
               rdate r = Some (date q)) ->
  (QuarterlyDiffTarget.calculate sub dl col info_df = None <->
   exists k, (k < length info_df)%nat /\
     sub (label_column dl col 0 info_df) (label_column dl col (-1) info_df) k = None) /\
  ((forall k, (k < length info_df)%nat ->
      sub (label_column dl col 0 info_df) (label_column dl col (-1) info_df) k <> None) ->
   exists out, QuarterlyDiffTarget.calculate sub dl col info_df = Some out) /\
  forall out, QuarterlyDiffTarget.calculate sub dl col info_df = Some out ->
    map result_key out = map request_key info_df /\
    forall k r, nth_error out k = Some r ->
      sub (label_column dl col 0 info_df) (label_column dl col (-1) info_df) k =
      Some (y r).
Proof.
  intros Hne Hm.
  set (curr := label_column dl col 0 info_df).
  set (last := label_column dl col (-1) info_df).
  assert (Hcalc : forall shift,
            QuarterlyTarget.calculate dl col shift info_df =
            Some (labelled (quarterly_label dl col shift) info_df)).
  { intros shift. apply quarterly_calculate_labelled; [assumption|].
    intros r Hr. rewrite (matched_lookup dl col shift r (Hm r Hr)). discriminate. }
  assert (Hdiff : QuarterlyDiffTarget.calculate sub dl col info_df =
            mapM (fun kr => v <- sub curr last (fst kr) ;; Some (set_y (snd kr) v))
                 (combine (seq 0 (length (labelled (quarterly_label dl col 0) info_df)))
                          (labelled (quarterly_label dl col 0) info_df))).
  { unfold QuarterlyDiffTarget.calculate. rewrite !Hcalc. simpl.
    now rewrite !labelled_labels. }

  assert (Hlen : length (labelled (quarterly_label dl col 0) info_df) =
                 length info_df) by (unfold labelled; apply length_map).
  assert (Hnone : QuarterlyDiffTarget.calculate sub dl col info_df = None <->
                  exists k, (k < length info_df)%nat /\ sub curr last k = None).
  { rewrite Hdiff. split.
    - intros H. destruct (relabel_None _ _ _ H) as [k [Hk Hf]].
      exists k. rewrite <- Hlen. now split.
    - intros [k [Hk Hf]]. apply (relabel_fails _ _ 0%nat k); [now rewrite Hlen|].
      exact Hf. }
  split; [exact Hnone|]. split.
  - intros Hall.
    destruct (QuarterlyDiffTarget.calculate sub dl col info_df) as [out|] eqn:E;
      [now exists out|].
    destruct (proj1 Hnone eq_refl) as [k [Hk Hf]]. now elim (Hall k Hk).
  - intros out H. split; [exact (diff_keys sub dl col info_df out H)|].
    rewrite Hdiff in H. destruct (relabel_spec _ _ _ _ H) as [_ Hl].
    intros k r Hk. exact (Hl k r Hk).
Qed.

Lemma QuarterlyDiffTarget_labels_witness :
  (up_down_request <> [] /\
   (forall r, In r up_down_request ->
      exists q, In q (load_quarterly_data up_down_provider (ticker r)) /\
                rdate r = Some (date q))) /\
  ((QuarterlyDiffTarget.calculate whole_sub up_down_provider "revenue"
      up_down_request = None <->
    exists k, (k < length up_down_request)%nat /\
      whole_sub (label_column up_down_provider "revenue" 0 up_down_request)
        (label_column up_down_provider "revenue" (-1) up_down_request) k = None) /\
   ((forall k, (k < length up_down_request)%nat ->
       whole_sub (label_column up_down_provider "revenue" 0 up_down_request)
         (label_column up_down_provider "revenue" (-1) up_down_request) k <> None) ->
    exists out, QuarterlyDiffTarget.calculate whole_sub up_down_provider "revenue"
                  up_down_request = Some out) /\
   forall out, QuarterlyDiffTarget.calculate whole_sub up_down_provider "revenue"
                 up_down_request = Some out ->
     map result_key out = map request_key up_down_request /\
     forall k r, nth_error out k = Some r ->
       whole_sub (label_column up_down_provider "revenue" 0 up_down_request)
         (label_column up_down_provider "revenue" (-1) up_down_request) k =
       Some (y r)).
Proof.
  assert (H1 : up_down_request <> []) by discriminate.
  assert (H2 : forall r, In r up_down_request ->
      exists q, In q (load_quarterly_data up_down_provider (ticker r)) /\
                rdate r = Some (date q)).
  { intros r [<- | [<- | [<- | []]]].
    - exists (sample 1 15). split; [simpl; tauto | reflexivity].
    - exists (sample 2 10). split; [simpl; tauto | reflexivity].
    - exists (sample 0 10). split; [simpl; tauto | reflexivity]. }
  exact (conj (conj H1 H2)
           (QuarterlyDiffTarget_labels whole_sub up_down_provider "revenue"
              up_down_request H1 H2)).
Defined.

Lemma binarized_range (c : cell) :
  binarized c = CNull \/ binarized c = CNum 0 \/ binarized c = CNum 1.
Proof.
  destruct c as [|x|d|n|]; unfold binarized; simpl; try (now left).
  destruct (x ?= 0)%Q; tauto.
Qed.

Lemma binarize_rows (diff out : list result_row) :
  mapM (fun r => v <- QuarterlyBinDiffTarget.binarize (y r) ;; Some (set_y r v)) diff
    = Some out ->
  out = map (fun r => set_y r (binarized (y r))) diff.
Proof.
  revert out. induction diff as [|r diff IH]; intros out H; simpl in H.
  - now injection H as <-.
  - destruct (QuarterlyBinDiffTarget.binarize (y r)) as [v|] eqn:E; simpl in H;
      [|discriminate].
    destruct (mapM _ diff) as [rest|]; simpl in H; [|discriminate].
    injection H as <-. simpl. f_equal; [|now apply IH].
    unfold binarized. now rewrite E.
Qed.

(** X16.  Whatever the data and whatever the subtraction returns, a table
    returned by [QuarterlyBinDiffTarget] has the keys of the request table,
    row for row, and carries no label other than 0.0, 1.0 and null. *)
Theorem QuarterlyBinDiffTarget_label_range (sub : series_sub)
  (dl : data_loader) (col : string)
  (info_df : list request_row) (out : list result_row) :
  QuarterlyBinDiffTarget.calculate sub dl col info_df = Some out ->
  map result_key out = map request_key info_df /\
  forall r, In r out -> y r = CNull \/ y r = CNum 0 \/ y r = CNum 1.
Proof.
  unfold QuarterlyBinDiffTarget.calculate. intros H.
  destruct (QuarterlyDiffTarget.calculate sub dl col info_df) as [diff|] eqn:D;
    simpl in H; [|discriminate].
  rewrite (binarize_rows diff out H). split.
  - rewrite map_map. simpl. rewrite <- (diff_keys sub dl col info_df diff D).
    reflexivity.
  - intros r Hr. apply in_map_iff in Hr. destruct Hr as [r' [<- _]].
    simpl. apply binarized_range.
Qed.

Lemma QuarterlyBinDiffTarget_label_range_witness :
  QuarterlyBinDiffTarget.calculate whole_sub up_down_provider "revenue" up_down_request =
    Some [mkResult "A" (Some 1) (CNum 1); mkResult "A" (Some 2) (CNum 0);
          mkResult "A" (Some 0) CNull] /\
  map result_key [mkResult "A" (Some 1) (CNum 1); mkResult "A" (Some 2) (CNum 0);
                  mkResult "A" (Some 0) CNull] =
    map request_key up_down_request /\
  forall r, In r [mkResult "A" (Some 1) (CNum 1); mkResult "A" (Some 2) (CNum 0);
                  mkResult "A" (Some 0) CNull] ->
    y r = CNull \/ y r = CNum 0 \/ y r = CNum 1.
Proof.
  assert (H : QuarterlyBinDiffTarget.calculate whole_sub up_down_provider "revenue"
                up_down_request =
              Some [mkResult "A" (Some 1) (CNum 1); mkResult "A" (Some 2) (CNum 0);
                    mkResult "A" (Some 0) CNull]) by reflexivity.
  exact (conj H (QuarterlyBinDiffTarget_label_range whole_sub up_down_provider
                   "revenue" up_down_request _ H)).
Defined.

(** X18.  An unmatched request date aborts the compositions too: when some
    request row's date is carried by no quarter of the row's entity,
    [QuarterlyDiffTarget], [QuarterlyBinDiffTarget] and the date rebasing
    of [DailySmoothedQuarterlyDiffTarget] return no table, whatever the
    subtraction. *)
Theorem compositions_abort_on_unmatched_date (sub : series_sub)
  (dl : data_loader) (col : string)
  (info_df : list request_row) (r : request_row) :
  In r info_df ->
  (forall q, In q (load_quarterly_data dl (ticker r)) -> rdate r <> Some (date q)) ->
  QuarterlyDiffTarget.calculate sub dl col info_df = None /\
  QuarterlyBinDiffTarget.calculate sub dl col info_df = None /\
  DailySmoothedQuarterlyDiffTarget.last_date_df dl info_df = None /\
  DailySmoothedQuarterlyDiffTarget.two_pass dl col info_df = None.
Proof.
  intros Hin Hun.
  assert (Hfail : forall c s, QuarterlyTarget.calculate dl c s info_df = None).
  { intros c s. apply (quarterly_calculate_fails dl c s info_df r Hin).
    unfold quarterly_lookup. apply lookup_unmatched.
    intros x Hx. apply Hun. now apply in_rev. }
  assert (Hdiff : QuarterlyDiffTarget.calculate sub dl col info_df = None).
  { unfold QuarterlyDiffTarget.calculate. now rewrite Hfail. }
  assert (Hlast : DailySmoothedQuarterlyDiffTarget.last_date_df dl info_df = None).
  { unfold DailySmoothedQuarterlyDiffTarget.last_date_df. now rewrite Hfail. }
  repeat split; try assumption.
  - unfold QuarterlyBinDiffTarget.calculate. now rewrite Hdiff.
  - unfold DailySmoothedQuarterlyDiffTarget.two_pass. now rewrite Hlast.
Qed.

Lemma compositions_abort_on_unmatched_date_witness :
  (In (mkRequest "A" (Some 7)) unmatched_request /\
   (forall q, In q (load_quarterly_data newest_first_provider "A") ->
      Some 7 <> Some (date q))) /\
  (QuarterlyDiffTarget.calculate whole_sub newest_first_provider "revenue"
     unmatched_request = None /\
   QuarterlyBinDiffTarget.calculate whole_sub newest_first_provider "revenue"
     unmatched_request = None /\
   DailySmoothedQuarterlyDiffTarget.last_date_df newest_first_provider unmatched_request = None /\
   DailySmoothedQuarterlyDiffTarget.two_pass newest_first_provider "revenue"
     unmatched_request = None).
Proof.
  assert (H1 : In (mkRequest "A" (Some 7)) unmatched_request)
    by (simpl; tauto).
  assert (H2 : forall q, In q (load_quarterly_data newest_first_provider "A") ->
                 Some 7 <> Some (date q)).
  { intros q Hq. simpl in Hq.
    destruct Hq as [<- | [<- | [<- | [<- | []]]]]; discriminate. }
  exact (conj (conj H1 H2)
           (compositions_abort_on_unmatched_date whole_sub newest_first_provider
              "revenue" unmatched_request (mkRequest "A" (Some 7)) H1 H2)).
Defined.

(** ** ReportGapTarget *)

(** ** ReportGapTarget *)

Lemma gap_rowwise (dl : data_loader) (col : string) (smooth_horizon : Z)
  (info_df : list request_row) :
  ReportGapTarget.calculate dl col smooth_horizon info_df =
  rowwise (gap_lookup dl col smooth_horizon) info_df.
Proof.
  unfold ReportGapTarget.calculate. rewrite !daily_calculate_rowwise.
  destruct info_df as [|r0 rest]; [reflexivity|].
  unfold rowwise. rewrite mapM_zip. apply mapM_ext. intros r _.
  unfold gap_lookup.
  destruct (daily_lookup dl col smooth_horizon np_mean (ticker r) (rdate r))
    as [a|]; simpl; [|reflexivity].
  now destruct (daily_lookup dl col (- smooth_horizon) np_mean (ticker r) (rdate r)).
Qed.

Lemma gap_lookup_None (dl : data_loader) (col : string) (smooth_horizon : Z)
  (t : string) (d : option Z) :
  gap_lookup dl col smooth_horizon t d = None <->
  load_daily_data dl t <> None /\ d = None.
Proof.
  unfold gap_lookup, daily_lookup, DailyAggTarget.aggregate.
  destruct (load_daily_data dl t) as [daily|], d as [x|]; simpl; split;
    try discriminate; try (intros [H1 H2]; congruence).
  intros _. split; [discriminate | reflexivity].
Qed.

(** X19.  [ReportGapTarget] without normalization computes what the plain
    loop over the request rows computes: every request row, in order, with
    the mean of its window on and after the date minus the mean of its
    window before the date, null when either mean is null or the entity
    has no daily history.  It returns no table exactly when the request
    table is empty or some row of an entity with daily history has a
    missing date; a table it returns has the request table's keys, row for
    row. *)
Theorem ReportGapTarget_calculate_rowwise (dl : data_loader) (col : string)
  (smooth_horizon : Z) (info_df : list request_row) :
  ReportGapTarget.calculate dl col smooth_horizon info_df =
    rowwise (fun t d =>
               curr <- daily_lookup dl col smooth_horizon np_mean t d ;;
               last <- daily_lookup dl col (- smooth_horizon) np_mean t d ;;
               Some (numeric_sub curr last)) info_df /\
  (ReportGapTarget.calculate dl col smooth_horizon info_df = None <->
   info_df = [] \/
   exists r, In r info_df /\ load_daily_data dl (ticker r) <> None /\
             rdate r = None) /\
  forall out, ReportGapTarget.calculate dl col smooth_horizon info_df = Some out ->
    map result_key out = map request_key info_df.
Proof.
  split; [exact (gap_rowwise dl col smooth_horizon info_df)|].
  rewrite gap_rowwise. split.
  - unfold rowwise. destruct info_df as [|r0 rest].
    + split; [now left | reflexivity].
    + split.
      * intros H. right. destruct (mapM_None_inv _ _ H) as [r [Hr Hnone]].
        exists r. split; [assumption|].
        apply (gap_lookup_None dl col smooth_horizon).
        now destruct (gap_lookup dl col smooth_horizon (ticker r) (rdate r)).
      * intros [E | [r [Hr Hd]]]; [discriminate|].
        apply (mapM_fails _ _ r Hr).
        now rewrite (proj2 (gap_lookup_None dl col smooth_horizon _ _) Hd).
  - intros out H. exact (rowwise_keys _ _ _ H).
Qed.

Lemma numeric_sub_swap (a b : cell) :
  cell_equiv (numeric_sub b a) (cell_opp (numeric_sub a b)).
Proof.
  destruct a as [|x|da|na|], b as [|z|db|nb|]; simpl; try exact I. ring.
Qed.

(** X20.  Negating [smooth_horizon] swaps the two windows of
    [ReportGapTarget], so it negates the gap: the tables for
    [smooth_horizon] and [- smooth_horizon] have the same keys, row for
    row, and opposite labels, null where the other is null. *)
Theorem ReportGapTarget_negated_horizon (dl : data_loader) (col : string)
  (smooth_horizon : Z) (info_df : list request_row) (out : list result_row) :
  ReportGapTarget.calculate dl col smooth_horizon info_df = Some out ->
  exists out',
    ReportGapTarget.calculate dl col (- smooth_horizon) info_df = Some out' /\
    Forall2 (fun r r' => result_key r' = result_key r /\
                         cell_equiv (y r') (cell_opp (y r))) out out'.
Proof.
  rewrite !gap_rowwise. unfold rowwise.
  destruct info_df as [|r0 rest]; [discriminate|].
  revert out. generalize (r0 :: rest). intros l.
  induction l as [|r l IH]; intros out H; simpl in H.
  - injection H as <-. exists []. split; [reflexivity | constructor].
  - unfold gap_lookup in H at 1.
    destruct (daily_lookup dl col smooth_horizon np_mean (ticker r) (rdate r))
      as [a|] eqn:Ea; simpl in H; [|discriminate].
    destruct (daily_lookup dl col (- smooth_horizon) np_mean (ticker r) (rdate r))
      as [b|] eqn:Eb; simpl in H; [|discriminate].
    destruct (mapM _ l) as [rows|] eqn:M; simpl in H; [|discriminate].
    injection H as <-. destruct (IH rows eq_refl) as [rows' [M' F]].
    exists (mkResult (ticker r) (rdate r) (numeric_sub b a) :: rows'). split.
    + simpl. unfold gap_lookup at 1. rewrite Z.opp_involutive, Ea, Eb. simpl.
      now rewrite M'.
    + constructor; [|exact F]. split; [reflexivity | apply numeric_sub_swap].
Qed.

Lemma ReportGapTarget_negated_horizon_witness :
  ReportGapTarget.calculate newest_first_provider "marketcap" 1 (request_A 2) =
    Some [mkResult "A" (Some 2) (num 10)] /\
  exists out',
    ReportGapTarget.calculate newest_first_provider "marketcap" (- 1) (request_A 2) =
      Some out' /\
    Forall2 (fun r r' => result_key r' = result_key r /\
                         cell_equiv (y r') (cell_opp (y r)))
      [mkResult "A" (Some 2) (num 10)] out'.
Proof.
  assert (H : ReportGapTarget.calculate newest_first_provider "marketcap" 1
                (request_A 2) = Some [mkResult "A" (Some 2) (num 10)])
    by reflexivity.
  exact (conj H (ReportGapTarget_negated_horizon newest_first_provider
                   "marketcap" 1 (request_A 2) _ H)).
Defined.

(** X21.  With [smooth_horizon = 0] both windows of [ReportGapTarget] are
    empty, [-0] falling in the branch of the non-negative horizons as
    well: on a request table whose rows for entities with daily history
    carry a date, every label is null. *)
Theorem ReportGapTarget_zero_horizon (dl : data_loader) (col : string)
  (info_df : list request_row) :
  (forall r, In r info_df ->
     load_daily_data dl (ticker r) <> None -> rdate r <> None) ->
  ReportGapTarget.calculate dl col 0 info_df =
  rowwise (fun _ _ => Some CNull) info_df.
Proof.
  intros Hdated. rewrite gap_rowwise.
  destruct info_df as [|r0 rest]; [reflexivity|].
  unfold rowwise. apply mapM_ext. intros r Hr.
  unfold gap_lookup, daily_lookup. simpl.
  destruct (load_daily_data dl (ticker r)) as [daily|] eqn:E; [|reflexivity].
  assert (Hx : rdate r <> None) by (apply (Hdated r Hr); congruence).
  destruct (rdate r) as [x|]; [|congruence].
  unfold DailyAggTarget.aggregate.
  rewrite window_empty by now left. reflexivity.
Qed.

Lemma ReportGapTarget_zero_horizon_witness :
  (forall r, In r absent_request ->
     load_daily_data partial_loader (ticker r) <> None -> rdate r <> None) /\
  ReportGapTarget.calculate partial_loader "marketcap" 0 absent_request =
  rowwise (fun _ _ => Some CNull) absent_request.
Proof.
  assert (H : forall r, In r absent_request ->
            load_daily_data partial_loader (ticker r) <> None -> rdate r <> None).
  { intros r [<- | [<- | [<- | []]]] Hh; simpl in *; congruence. }
  exact (conj H (ReportGapTarget_zero_horizon partial_loader "marketcap"
                   absent_request H)).
Defined.

(** ** BaseInfoTarget *)

Lemma unique_ticker_filter (base_df : list base_row) (t : string) :
  NoDup (map b_ticker base_df) ->
  filter (fun b => String.eqb t (b_ticker b)) base_df =
  match find (fun b => String.eqb t (b_ticker b)) base_df with
  | Some b => [b]
  | None => []
  end.
Proof.
  induction base_df as [|a base IH]; intros Hnd; [reflexivity|].
  simpl in Hnd. inversion Hnd as [|? ? Ha Hnd']; subst. simpl.
  destruct (String.eqb t (b_ticker a)) eqn:E.
  - apply String.eqb_eq in E. subst t. f_equal. apply filter_none.
    intros x Hx. apply String.eqb_neq. intros F. apply Ha. rewrite F.
    now apply in_map.
  - now apply IH.
Qed.

(** X22.  When the base table holds every ticker at most once,
    [BaseInfoTarget.calculate] returns exactly one row per request row, in
    request order, carrying the ticker's attribute, or null when the base
    table does not hold the ticker. *)
Theorem BaseInfoTarget_unique_base (base_df : list base_row) (col : string)
  (info_df : list string) :
  NoDup (map b_ticker base_df) ->
  BaseInfoTarget.calculate base_df col info_df =
    map (fun t => (t, match find (fun b => String.eqb t (b_ticker b)) base_df with
                      | Some b => b_fields b col
                      | None => CNull
                      end)) info_df /\
  length (BaseInfoTarget.calculate base_df col info_df) = length info_df /\
  map fst (BaseInfoTarget.calculate base_df col info_df) = info_df.
Proof.
  intros Hnd.
  assert (H : BaseInfoTarget.calculate base_df col info_df =
    map (fun t => (t, match find (fun b => String.eqb t (b_ticker b)) base_df with
                      | Some b => b_fields b col
                      | None => CNull
                      end)) info_df).
  { unfold BaseInfoTarget.calculate.
    induction info_df as [|t info IH]; [reflexivity|].
    cbn [flat_map]. rewrite IH, (unique_ticker_filter base_df t Hnd).
    cbn [map].
    destruct (find (fun b => String.eqb t (b_ticker b)) base_df); reflexivity. }
  rewrite H. split; [reflexivity|]. split.
  - apply length_map.
  - rewrite map_map. simpl. apply map_id.
Qed.

Lemma BaseInfoTarget_unique_base_witness :
  NoDup (map b_ticker unique_base_table) /\
  (BaseInfoTarget.calculate unique_base_table "sector" ticker_request =
     map (fun t => (t, match find (fun b => String.eqb t (b_ticker b))
                               unique_base_table with
                       | Some b => b_fields b "sector"
                       | None => CNull
                       end)) ticker_request /\
   length (BaseInfoTarget.calculate unique_base_table "sector" ticker_request) =
     length ticker_request /\
   map fst (BaseInfoTarget.calculate unique_base_table "sector" ticker_request) =
     ticker_request).
Proof.
  assert (H : NoDup (map b_ticker unique_base_table)).
  { simpl. repeat (constructor; [simpl; intuition discriminate|]). constructor. }
  exact (conj H (BaseInfoTarget_unique_base unique_base_table "sector"
                   ticker_request H)).
Defined.

(** X23.  [BaseInfoTarget.calculate] does not deduplicate the base table:
    a request row yields as many output rows as the base table holds rows
    of its ticker, and one null row when it holds none.  The output is
    never shorter than the request table, its tickers are request tickers,
    and every non-null label is the attribute of a base row of that
    ticker. *)
Theorem BaseInfoTarget_row_count (base_df : list base_row) (col : string)
  (info_df : list string) :
  length (BaseInfoTarget.calculate base_df col info_df) =
    list_sum (map (fun t =>
                     Nat.max 1 (length (filter (fun b => String.eqb t (b_ticker b))
                                          base_df))) info_df) /\
  (length info_df <= length (BaseInfoTarget.calculate base_df col info_df))%nat /\
  forall t v, In (t, v) (BaseInfoTarget.calculate base_df col info_df) ->
    In t info_df /\
    ((v = CNull /\ forall b, In b base_df -> b_ticker b <> t) \/
     exists b, In b base_df /\ b_ticker b = t /\ v = b_fields b col).
Proof.
  unfold BaseInfoTarget.calculate.
  assert (Hlen : forall t,
    length match filter (fun b => String.eqb t (b_ticker b)) base_df with
           | [] => [(t, CNull)]
           | b :: ms => map (fun b => (t, b_fields b col)) (b :: ms)
           end =
    Nat.max 1 (length (filter (fun b => String.eqb t (b_ticker b)) base_df))).
  { intros t. destruct (filter (fun b => String.eqb t (b_ticker b)) base_df);
      [reflexivity|]. rewrite length_map. simpl. lia. }
  split; [|split].
  - induction info_df as [|t info IH]; [reflexivity|].
    cbn [flat_map]. rewrite length_app, IH, Hlen. reflexivity.
  - induction info_df as [|t info IH]; [simpl; lia|].
    cbn [flat_map length]. rewrite length_app, Hlen. lia.
  - intros t v H. apply in_flat_map in H. destruct H as [t' [Ht' H]].
    destruct (filter (fun b => String.eqb t' (b_ticker b)) base_df)
      as [|b ms] eqn:F.
    + destruct H as [E | []]. injection E as <- <-. split; [assumption|].
      left. split; [reflexivity|]. intros b Hb E.
      assert (Hin : In b (filter (fun b => String.eqb t' (b_ticker b)) base_df)).
      { apply filter_In. split; [assumption|]. rewrite E. apply String.eqb_refl. }
      rewrite F in Hin. contradiction.
    + apply in_map_iff in H. destruct H as [b' [E Hb']]. injection E as <- <-.
      split; [assumption|]. right. rewrite <- F in Hb'.
      apply filter_In in Hb'. destruct Hb' as [Hin Heq].
      apply String.eqb_eq in Heq. exists b'. repeat split; [assumption | now symmetry].
Qed.

(** ** Rebased request dates *)

Lemma pick_later_In (l : list record) (p : record) :
  fold_right pick_later None l = Some p -> In p l.
Proof.
  revert p. induction l as [|a l IH]; intros p H; simpl in H; [discriminate|].
  destruct (fold_right pick_later None l) as [b|]; simpl in H.
  - destruct (date b <? date a); injection H as <-; [now left|].
    right. now apply IH.
  - injection H as <-. now left.
Qed.

Lemma previous_quarter_earlier (l : list record) (d : Z) (p : record) :
  previous_quarter l d = Some p -> In p l /\ date p < d.
Proof.
  intros H. apply pick_later_In, filter_In in H. destruct H as [Hin Hd].
  split; [assumption | now apply Z.ltb_lt].
Qed.

(** X24.  On series supplied newest first, the dates that
    [DailySmoothedQuarterlyDiffTarget] substitutes for the request dates
    are the report dates of the chronologically previous quarters: every
    substituted date is strictly earlier than the request date it replaces
    and is a report date of the same entity, and it is missing exactly
    when the request date is the entity's oldest quarter. *)
Theorem last_date_df_previous_quarter (dl : data_loader)
  (info_df : list request_row) :
  info_df <> [] ->
  (forall r, In r info_df ->
     strictly_descending (map date (load_quarterly_data dl (ticker r))) = true /\
     exists d, rdate r = Some d /\
               In d (map date (load_quarterly_data dl (ticker r)))) ->
  exists rebased,
    DailySmoothedQuarterlyDiffTarget.last_date_df dl info_df = Some rebased /\
    Forall2 (fun r r' =>
               ticker r' = ticker r /\
               exists d, rdate r = Some d /\
                 rdate r' = option_map date
                              (previous_quarter (load_quarterly_data dl (ticker r)) d) /\
                 forall d', rdate r' = Some d' ->
                   d' < d /\ In d' (map date (load_quarterly_data dl (ticker r))))
            info_df rebased.
Proof.
  intros Hne Hrows.
  assert (Hrow : forall r, In r info_df ->
    quarterly_lookup dl "date" (-1) (ticker r) (rdate r) =
      Some (chronological_label previous_quarter dl "date" (ticker r) (rdate r))).
  { intros r Hr. destruct (Hrows r Hr) as [Hs [d [Hd Hin]]]. rewrite Hd.
    now destruct (descending_lookup dl "date" (ticker r) d Hs Hin) as [-> _]. }
  unfold DailySmoothedQuarterlyDiffTarget.last_date_df.
  rewrite quarterly_calculate_labelled; [|assumption|].
  - simpl. eexists. split; [reflexivity|].
    unfold labelled. rewrite map_map. simpl.
    clear Hne. induction info_df as [|r l IH]; simpl; constructor.
    + split; [reflexivity|].
      assert (Hr : In r (r :: l)) by now left.
      destruct (Hrows r Hr) as [_ [d [Hd _]]]. exists d.
      unfold quarterly_label. rewrite (Hrow r Hr), Hd. simpl.
      destruct (previous_quarter (load_quarterly_data dl (ticker r)) d)
        as [p|] eqn:P; simpl.
      * unfold column. simpl. repeat split; try reflexivity.
        -- injection H as <-. now apply (previous_quarter_earlier _ _ _ P).
        -- injection H as <-. apply in_map.
           now apply (previous_quarter_earlier _ _ _ P).
      * repeat split; try reflexivity; discriminate.
    + apply IH.
      * intros x Hx. apply Hrows. now right.
      * intros x Hx. apply Hrow. now right.
  - intros r Hr. rewrite (Hrow r Hr). discriminate.
Qed.

Lemma last_date_df_previous_quarter_witness :
  (up_down_request <> [] /\
   (forall r, In r up_down_request ->
      strictly_descending
        (map date (load_quarterly_data up_down_provider (ticker r))) = true /\
      exists d, rdate r = Some d /\
                In d (map date (load_quarterly_data up_down_provider (ticker r))))) /\
  exists rebased,
    DailySmoothedQuarterlyDiffTarget.last_date_df up_down_provider up_down_request =
      Some rebased /\
    Forall2 (fun r r' =>
               ticker r' = ticker r /\
               exists d, rdate r = Some d /\
                 rdate r' = option_map date
                              (previous_quarter
                                 (load_quarterly_data up_down_provider (ticker r)) d) /\
                 forall d', rdate r' = Some d' ->
                   d' < d /\
                   In d' (map date (load_quarterly_data up_down_provider (ticker r))))
            up_down_request rebased.
Proof.
  assert (H1 : up_down_request <> []) by discriminate.
  assert (H2 : forall r, In r up_down_request ->
      strictly_descending
        (map date (load_quarterly_data up_down_provider (ticker r))) = true /\
      exists d, rdate r = Some d /\
                In d (map date (load_quarterly_data up_down_provider (ticker r)))).
  { intros r [<- | [<- | [<- | []]]]; (split; [reflexivity|]).
    - exists 1. split; [reflexivity | simpl; tauto].
    - exists 2. split; [reflexivity | simpl; tauto].
    - exists 0. split; [reflexivity | simpl; tauto]. }
  exact (conj (conj H1 H2)
           (last_date_df_previous_quarter up_down_provider up_down_request H1 H2)).
Defined.

(** ** utils.make_step_function *)

Lemma insert_step_perm (a : step_row) (l : list step_row) :
  Permutation (insert_step a l) (a :: l).
Proof.
  induction l as [|h l IH]; simpl; [reflexivity|].
  destruct (step_le a h); [reflexivity|].
  rewrite IH. apply perm_swap.
Qed.

Lemma sort_steps_perm (l : list step_row) : Permutation (sort_steps l) l.
Proof.
  induction l as [|a l IH]; simpl; [reflexivity|].
  rewrite insert_step_perm. now constructor.
Qed.

Lemma step_le_total (a b : step_row) : step_le a b = false -> step_le b a = true.
Proof.
  unfold step_le. intros H. apply orb_false_iff in H. destruct H as [H1 H2].
  apply Z.ltb_ge in H1. apply orb_true_iff.
  destruct (Z.eq_dec (fst (fst a)) (fst (fst b))) as [E | E].
  - right. rewrite E in *. rewrite Z.eqb_refl in *. simpl in *.
    apply Z.leb_gt in H2. apply Z.leb_le. lia.
  - left. apply Z.ltb_lt. lia.
Qed.

Lemma insert_step_sorted (a : step_row) (l : list step_row) :
  step_sorted l -> step_sorted (insert_step a l).
Proof.
  unfold step_sorted. induction l as [|h l IH]; intros H; simpl.
  - repeat constructor.
  - destruct (step_le a h) eqn:E.
    + constructor; [assumption | constructor; exact E].
    + inversion H as [|? ? Hl Hh]; subst.
      constructor; [now apply IH|].
      destruct l as [|h' l]; simpl.
      * constructor. now apply step_le_total.
      * destruct (step_le a h'); constructor;
          [now apply step_le_total | now inversion Hh].
Qed.

Lemma sort_steps_sorted (l : list step_row) : step_sorted (sort_steps l).
Proof.
  induction l as [|a l IH]; simpl; [constructor | now apply insert_step_sorted].
Qed.

Lemma step_sorted_x (l : list step_row) :
  step_sorted l -> Sorted (fun a b => fst a <= fst b) (map fst l).
Proof.
  unfold step_sorted. induction 1 as [|a l Hl IH Hh]; simpl; constructor;
    [assumption|].
  destruct Hh as [|b l Hab]; simpl; constructor.
  unfold step_le in Hab. apply orb_true_iff in Hab.
  destruct Hab as [H | H].
  - apply Z.ltb_lt in H. lia.
  - apply andb_true_iff in H. destruct H as [H _]. apply Z.eqb_eq in H. lia.
Qed.

Lemma shift_up_length (ys : list cell) : length (shift_up ys) = length ys.
Proof.
  destruct ys as [|y ys]; simpl; [reflexivity|].
  rewrite length_app. simpl. lia.
Qed.

Lemma combine_fst {A B : Type} (xs : list A) (ys : list B) :
  length xs = length ys -> map fst (combine xs ys) = xs.
Proof.
  revert ys. induction xs as [|x xs IH]; intros [|y ys] H; simpl in *;
    try discriminate; [reflexivity|].
  f_equal. apply IH. lia.
Qed.

Lemma part_2_x (df : list (Z * cell)) :
  map fst (combine (map fst df) (shift_up (map snd df))) = map fst df.
Proof.
  apply combine_fst. now rewrite shift_up_length, !length_map.
Qed.

Lemma step_body_perm (df : list (Z * cell)) :
  Permutation (map fst (step_body df)) (map fst df ++ map fst df).
Proof.
  unfold step_body. rewrite sort_steps_perm.
  rewrite !map_app, !map_map. simpl.
  rewrite (map_ext (fun x : Z * cell => fst x) fst) by reflexivity.
  apply Permutation_app_head.
  rewrite <- (map_map fst (fun x => x)), map_id, part_2_x. reflexivity.
Qed.

Lemma step_body_length (df : list (Z * cell)) :
  length (step_body df) = (2 * length df)%nat.
Proof.
  rewrite <- (length_map fst), (Permutation_length (step_body_perm df)).
  rewrite length_app, length_map. lia.
Qed.

Lemma make_step_function_body (now : Z) (df : list (Z * cell)) :
  make_step_function now df =
  match rev (step_body df) with
  | [] => None
  | last_row :: _ => Some (step_body df ++ [(now, snd last_row)])%list
  end.
Proof. reflexivity. Qed.

(** X25.  [make_step_function] fails on an empty frame and on no other.
    On a frame of [n] rows it returns [2 n + 1] rows: the [2 n] rows of the
    frame and of its shifted copy, sorted by [x] with every [x] of the
    frame occurring twice, followed by one row dated [now] that repeats the
    value of the last sorted row. *)
Theorem make_step_function_shape (now : Z) (df : list (Z * cell)) :
  (make_step_function now df = None <-> df = []) /\
  forall out, make_step_function now df = Some out ->
    length out = (2 * length df + 1)%nat /\
    exists body x v,
      out = (body ++ [(x, v)] ++ [(now, v)])%list /\
      Sorted (fun a b => fst a <= fst b) (body ++ [(x, v)])%list /\
      Permutation (map fst (body ++ [(x, v)])%list) (map fst df ++ map fst df).
Proof.
  rewrite make_step_function_body.
  pose proof (step_body_length df) as Hlen.
  pose proof (step_body_perm df) as Hperm.
  assert (Hsorted : Sorted (fun a b => fst a <= fst b) (step_body df))
    by (apply step_sorted_x, sort_steps_sorted).
  destruct (rev (step_body df)) as [|[x v] pre] eqn:E.
  - apply (f_equal (@rev _)) in E. rewrite rev_involutive in E. simpl in E.
    rewrite E in Hlen. simpl in Hlen. split.
    + split; [intros _ | reflexivity]. destruct df; [reflexivity | simpl in Hlen; lia].
    + discriminate.
  - apply (f_equal (@rev _)) in E. rewrite rev_involutive in E. simpl in E.
    split.
    + split; [discriminate|]. intros ->. rewrite E in Hlen. simpl in Hlen.
      rewrite length_app in Hlen. simpl in Hlen. lia.
    + intros out H. injection H as <-. split.
      * rewrite length_app, Hlen. simpl. lia.
      * exists (rev pre), x, v. rewrite E in *. simpl.
        repeat split; [now rewrite <- app_assoc | assumption | assumption].
Qed.

Lemma part_2_cons (r : Z * cell) (rest : list (Z * cell)) :
  combine (map fst (r :: rest)) (shift_up (map snd (r :: rest))) =
  (fst r, next_y rest) ::
  combine (map fst rest) (shift_up (map snd rest)).
Proof. destruct rest as [|r' rest]; reflexivity. Qed.

Lemma fold_insert_head (a : step_row) (L M : list step_row) :
  (forall m, In m M -> step_le m a = false) ->
  fold_right insert_step (a :: L) M = a :: fold_right insert_step L M.
Proof.
  induction M as [|m M IH]; intros H; [reflexivity|].
  simpl. rewrite IH by (intros x Hx; apply H; now right).
  simpl. now rewrite (H m (or_introl eq_refl)).
Qed.

Lemma tagged_steps_head (rest : list (Z * cell)) (a : step_row) :
  (forall r, In r rest -> fst (fst a) < fst r) ->
  (forall h, In h (tagged_steps rest) -> step_le a h = true).
Proof.
  intros H. induction rest as [|r rest IH]; intros h Hh; [contradiction|].
  assert (Hr : fst (fst a) < fst r) by (apply H; now left).
  simpl in Hh. destruct Hh as [<- | [<- | Hh]].
  - unfold step_le. simpl. apply orb_true_iff. left. now apply Z.ltb_lt.
  - unfold step_le. simpl. apply orb_true_iff. left. now apply Z.ltb_lt.
  - apply IH; [|assumption]. intros x Hx. apply H. now right.
Qed.

Lemma insert_step_front (a : step_row) (l : list step_row) :
  (forall h, In h l -> step_le a h = true) -> insert_step a l = a :: l.
Proof.
  destruct l as [|h l]; intros H; [reflexivity|].
  simpl. now rewrite (H h (or_introl eq_refl)).
Qed.

Lemma ascending_frame_head (r : Z * cell) (rest : list (Z * cell)) :
  strictly_ascending (map fst (r :: rest)) = true ->
  forall x, In x rest -> fst r < fst x.
Proof.
  intros H x Hx. simpl in H. apply (ascending_head _ _ H). now apply in_map.
Qed.

Lemma sort_part_2 (df : list (Z * cell)) :
  strictly_ascending (map fst df) = true ->
  sort_steps (map (fun r => (r, 1))
                (combine (map fst df) (shift_up (map snd df)))) =
  map (fun r => (r, 1)) (combine (map fst df) (shift_up (map snd df))).
Proof.
  induction df as [|r rest IH]; intros H; [reflexivity|].
  rewrite part_2_cons. simpl map. simpl sort_steps.
  fold (sort_steps (map (fun r0 : Z * cell => (r0, 1))
          (combine (map fst rest) (shift_up (map snd rest))))).
  pose proof (ascending_frame_head r rest H) as Hhead.
  simpl in H. rewrite (IH (ascending_tail _ _ H)).
  apply insert_step_front. intros h Hh.
  apply in_map_iff in Hh. destruct Hh as [[x v] [<- Hin]].
  assert (Hx : In x (map fst rest)).
  { rewrite <- (part_2_x rest). now apply (in_map fst _ (x, v)). }
  apply in_map_iff in Hx. destruct Hx as [r' [<- Hr']].
  unfold step_le. simpl. apply orb_true_iff. left. apply Z.ltb_lt.
  now apply Hhead.
Qed.

Lemma merge_parts (df : list (Z * cell)) :
  strictly_ascending (map fst df) = true ->
  fold_right insert_step
    (map (fun r => (r, 1)) (combine (map fst df) (shift_up (map snd df))))
    (map (fun r => (r, 2)) df) =
  tagged_steps df.
Proof.
  induction df as [|r rest IH]; intros H; [reflexivity|].
  pose proof (ascending_frame_head r rest H) as Hhead.
  rewrite part_2_cons. simpl map. simpl fold_right.
  rewrite fold_insert_head.
  - simpl in H. rewrite (IH (ascending_tail _ _ H)). simpl.
    replace (step_le (r, 2) (fst r, next_y rest, 1)) with false.
    + f_equal. apply insert_step_front.
      apply tagged_steps_head. intros x Hx. simpl. now apply Hhead.
    + unfold step_le. simpl. rewrite Z.ltb_irrefl, Z.eqb_refl. reflexivity.
  - intros m Hm. apply in_map_iff in Hm. destruct Hm as [r' [<- Hr']].
    specialize (Hhead r' Hr'). unfold step_le. simpl.
    apply orb_false_iff. split; [apply Z.ltb_ge; lia|].
    apply andb_false_iff. left. apply Z.eqb_neq. lia.
Qed.

Lemma sort_steps_app (l l' : list step_row) :
  sort_steps (l ++ l') = fold_right insert_step (sort_steps l') l.
Proof. unfold sort_steps. apply fold_right_app. Qed.

Lemma tagged_steps_rows (df : list (Z * cell)) :
  map fst (tagged_steps df) = steps df.
Proof.
  induction df as [|r rest IH]; simpl; [reflexivity | now rewrite IH].
Qed.

Lemma steps_last (df : list (Z * cell)) (r : Z * cell) :
  exists pre, steps (df ++ [r]) = (pre ++ [r])%list.
Proof.
  induction df as [|a df IH]; simpl.
  - now exists [(fst r, CNull)].
  - destruct IH as [pre ->].
    now exists ((fst a, next_y (df ++ [r])) :: a :: pre).
Qed.

(** X26.  On a frame with strictly ascending [x], [make_step_function]
    returns every [x] twice, first with the value of the row that follows
    it (NaN after the last row) and then with its own value, and closes
    with a row dated [now] that repeats the value of the last row of the
    frame. *)
Theorem make_step_function_ascending (now : Z) (df : list (Z * cell))
  (x : Z) (v : cell) :
  strictly_ascending (map fst (df ++ [(x, v)])) = true ->
  make_step_function now (df ++ [(x, v)]) =
  Some (steps (df ++ [(x, v)]) ++ [(now, v)])%list.
Proof.
  intros H. rewrite make_step_function_body. unfold step_body.
  rewrite sort_steps_app, (sort_part_2 _ H), (merge_parts _ H), tagged_steps_rows.
  destruct (steps_last df (x, v)) as [pre E]. rewrite E.
  rewrite rev_app_distr. reflexivity.
Qed.

Lemma make_step_function_ascending_witness :
  strictly_ascending (map fst ([(1, num 10); (2, num 20)] ++ [(3, num 30)])) = true /\
  make_step_function 100 ([(1, num 10); (2, num 20)] ++ [(3, num 30)]) =
  Some (steps ([(1, num 10); (2, num 20)] ++ [(3, num 30)]) ++ [(100, num 30)])%list.
Proof.
  assert (H : strictly_ascending
                (map fst ([(1, num 10); (2, num 20)] ++ [(3, num 30)])) = true)
    by reflexivity.
  exact (conj H (make_step_function_ascending 100 [(1, num 10); (2, num 20)]
                   3 (num 30) H)).
Defined.

(** X27.  On daily series supplied newest first and with a positive
    [smooth_horizon], for a non-empty request table whose rows for
    entities with daily history carry a date, the gap of [ReportGapTarget]
    without normalization is the mean over the first [smooth_horizon] days
    on or after the report date minus the mean over the last
    [smooth_horizon] days strictly before it: the report day itself counts
    on the side after the report. *)
Theorem ReportGapTarget_newest_first (dl : data_loader) (col : string)
  (smooth_horizon : Z) (info_df : list request_row) :
  0 < smooth_horizon -> info_df <> [] ->
  (forall r daily, In r info_df ->
     load_daily_data dl (ticker r) = Some daily ->
     strictly_descending (map date daily) = true /\ rdate r <> None) ->
  ReportGapTarget.calculate dl col smooth_horizon info_df =
  Some (labelled (fun t d =>
          numeric_sub
            (window_label forward_window dl col smooth_horizon np_mean t d)
            (window_label backward_window dl col (- smooth_horizon) np_mean t d))
          info_df).
Proof.
  intros Hh Hne Hs. rewrite gap_rowwise. unfold rowwise.
  destruct info_df as [|r0 rest] eqn:E; [congruence|]. rewrite <- E in *.
  unfold labelled. apply mapM_total. intros r Hr.
  unfold gap_lookup, daily_lookup, window_label.
  destruct (load_daily_data dl (ticker r)) as [daily|] eqn:D; [|reflexivity].
  destruct (Hs r daily Hr D) as [Hd Hx].
  destruct (rdate r) as [x|]; [|congruence].
  unfold DailyAggTarget.aggregate. simpl.
  rewrite window_forward, window_backward;
    [reflexivity | lia | assumption | lia | assumption].
Qed.

Lemma ReportGapTarget_newest_first_witness :
  (0 < 1 /\ request_A 2 <> [] /\
   (forall r daily, In r (request_A 2) ->
      load_daily_data newest_first_provider (ticker r) = Some daily ->
      strictly_descending (map date daily) = true /\ rdate r <> None)) /\
  ReportGapTarget.calculate newest_first_provider "marketcap" 1 (request_A 2) =
  Some (labelled (fun t d =>
          numeric_sub
            (window_label forward_window newest_first_provider "marketcap" 1 np_mean t d)
            (window_label backward_window newest_first_provider "marketcap" (- 1)
               np_mean t d))
          (request_A 2)).
Proof.
  assert (H0 : 0 < 1) by lia.
  assert (H1 : request_A 2 <> []) by discriminate.
  assert (H2 : forall r daily, In r (request_A 2) ->
      load_daily_data newest_first_provider (ticker r) = Some daily ->
      strictly_descending (map date daily) = true /\ rdate r <> None).
  { intros r daily [<- | []] E. simpl in E. injection E as <-.
    split; [reflexivity | discriminate]. }
  exact (conj (conj H0 (conj H1 H2))
           (ReportGapTarget_newest_first newest_first_provider "marketcap" 1
              (request_A 2) H0 H1 H2)).
Defined.
